(** * ImageClassifier (ml5): a shallow embedding of src/ImageClassifier/index.js

    The first part embeds the class: JavaScript values and exceptions, the
    tensor operations of tf that the class calls, the static methods
    [cropImage], [imgToTensor] and [getTopKClasses], the [DEFAULTS] table,
    the fields, and the methods (constructor, [loadModel] and the handler
    of its promise, [addImage], [train], [predict]) as functions on an
    explicit state.  The second part states and proves the properties.

    What the class gets from outside is a parameter of the embedding: the
    label table, the two networks, the bilinear resize and [processVideo].

    Numbers.  A JavaScript number is either [NaN] or a finite value, and a
    finite value is carried as a rational [Q]; the infinities are left out.
    The product of the row count by the batch fraction in [train] is the
    product of two doubles, rounded to the nearest double as IEEE 754
    prescribes ([roundDouble]).  The other arithmetic steps of the class (a
    division by 2, 127 or 127.5, a difference of two probabilities) are
    read over the rationals. *)

From Stdlib Require Import String.
From Stdlib Require Import List ZArith QArith Qround Qpower Qabs Bool Arith Lia Lqa.
From Stdlib Require Import Sorting.Sorted Permutation.
From Stdlib Require PrimFloat SpecFloat FloatOps Uint63.
Import ListNotations.

Local Open Scope nat_scope.

(* ------------------------------------------------------------------ *)
(** ** Exceptions *)

Inductive JsError : Type :=
| TypeError                   (* a property read on undefined, a call of a non-function *)
| RangeError                  (* an invalid typed-array length *)
| TfError                     (* an argument check of a tf operation fails *)
| Error (msg : string).       (* [throw new Error(msg)] in the class itself *)

Inductive outcome (A : Type) : Type :=
| Ok (a : A)
| Throw (e : JsError).

Arguments Ok {A} a.
Arguments Throw {A} e.

Definition bind {A B : Type} (m : outcome A) (k : A -> outcome B) : outcome B :=
  match m with
  | Ok a => k a
  | Throw e => Throw e
  end.

Notation "x <- m ;; k" := (bind m (fun x => k))
  (at level 61, m at next level, right associativity).

Definition succeeded {A : Type} (m : outcome A) : bool :=
  match m with Ok _ => true | Throw _ => false end.

(* ------------------------------------------------------------------ *)
(** ** JavaScript values *)

Inductive number : Type :=
| Fin (q : Q)
| NaN.

(** The pixels an image element, or the current frame of a video element,
    hands to [tf.fromPixels]: a height, a width and one value in 0..255 per
    row, column and colour channel. *)
Record Pixels : Type := mkPixels {
  pheight : nat;
  pwidth : nat;
  rgb : nat -> nat -> nat -> Z
}.

(** The values that reach the class: option fields, the arguments of
    [predict] and [addImage], the [video] field.  A function value carries
    an identifier and its [length] (the number of declared parameters).
    [tf.fromPixels] takes an image element, a video element, a canvas
    element or an ImageData object; the last two are one constructor, since
    the class tells them apart from nothing but the two kinds of element. *)
Inductive jsval : Type :=
| JUndefined
| JNull
| JBool (b : bool)
| JNum (n : number)
| JImage (p : Pixels)          (* instanceof HTMLImageElement *)
| JVideo (p : Pixels)          (* instanceof HTMLVideoElement *)
| JCanvas (p : Pixels)         (* an HTMLCanvasElement or an ImageData object *)
| JFun (id : nat) (arity : nat).

Definition JNumQ (q : Q) : jsval := JNum (Fin q).

(** ToBoolean. *)
Definition truthy (v : jsval) : bool :=
  match v with
  | JUndefined | JNull => false
  | JBool b => b
  | JNum (Fin q) => negb (Qeq_bool q 0)
  | JNum NaN => false
  | JImage _ | JVideo _ | JCanvas _ | JFun _ _ => true
  end.

(** [a || b]. *)
Definition js_or (a b : jsval) : jsval := if truthy a then a else b.

(** ToNumber; an element or a function converts to NaN. *)
Definition toNumber (v : jsval) : number :=
  match v with
  | JUndefined => NaN
  | JNull => Fin 0
  | JBool b => Fin (if b then 1 else 0)
  | JNum n => n
  | JImage _ | JVideo _ | JCanvas _ | JFun _ _ => NaN
  end.

(** A default parameter value replaces [undefined] only. *)
Definition default_param (v dflt : jsval) : jsval :=
  match v with JUndefined => dflt | _ => v end.

(** A rational that is a natural number, as an index. *)
Definition asIndex (q : Q) : option nat :=
  let r := Qred q in
  if (Pos.eqb (Qden r) 1 && (0 <=? Qnum r)%Z)%bool
  then Some (Z.to_nat (Qnum r)) else None.

(* ------------------------------------------------------------------ *)
(** ** Tensors and the tf operations the class calls

    A tensor is a shape and its values in row-major order, as tf stores
    them.  The dtype is not tracked: [toFloat] changes no value. *)

Record Tensor : Type := mkTensor {
  shape : list nat;
  data : list Q
}.

Definition numel (s : list nat) : nat := fold_right Nat.mul 1 s.

(** Row-major enumeration of a rank-3 index space. *)
Definition tabulate3 (d0 d1 d2 : nat) (f : nat -> nat -> nat -> Q) : list Q :=
  flat_map (fun i =>
    flat_map (fun j =>
      map (fun c => f i j c) (seq 0 d2)) (seq 0 d1)) (seq 0 d0).

Definition offset3 (d1 d2 i j c : nat) : nat := (i * d1 + j) * d2 + c.

(** [tf.fromPixels(input)]: three channels, shape [[height, width, 3]];
    anything but an element, a canvas or an ImageData object is refused. *)
Definition fromPixels (input : jsval) : outcome Tensor :=
  match input with
  | JImage p | JVideo p | JCanvas p =>
      Ok (mkTensor [pheight p; pwidth p; 3]
            (tabulate3 (pheight p) (pwidth p) 3
               (fun i j c => inject_Z (rgb p i j c))))
  | _ => Throw TfError
  end.

Definition toFloat (t : Tensor) : Tensor := t.

Definition div_scalar (t : Tensor) (s : Q) : Tensor :=
  mkTensor (shape t) (map (fun x => x / s)%Q (data t)).

Definition sub_scalar (t : Tensor) (s : Q) : Tensor :=
  mkTensor (shape t) (map (fun x => x - s)%Q (data t)).

Definition expandDims0 (t : Tensor) : Tensor :=
  mkTensor (1 :: shape t) (data t).

(** [t.reshape(s)] keeps the values and fails when the sizes differ. *)
Definition reshape (t : Tensor) (s : list nat) : outcome Tensor :=
  if numel s =? numel (shape t) then Ok (mkTensor s (data t)) else Throw TfError.

(** [t.slice(begin, size)] on a rank-3 tensor.  tf checks the rank and
    that each [begin + size] stays inside the shape.  The offsets computed
    by [cropImage] are numbers, not integers; what tf does with a
    fractional offset depends on its backend, and here such a slice is
    refused. *)
Definition slice3 (t : Tensor) (b0 b1 b2 : Q) (s0 s1 s2 : nat) : outcome Tensor :=
  match shape t with
  | [d0; d1; d2] =>
      match asIndex b0, asIndex b1, asIndex b2 with
      | Some i0, Some j0, Some c0 =>
          if ((i0 + s0 <=? d0) && (j0 + s1 <=? d1) && (c0 + s2 <=? d2))%bool
          then Ok (mkTensor [s0; s1; s2]
                     (tabulate3 s0 s1 s2
                        (fun i j c =>
                           nth (offset3 d1 d2 (i0 + i) (j0 + j) (c0 + c)) (data t) 0%Q)))
          else Throw TfError
      | _, _, _ => Throw TfError
      end
  | _ => Throw TfError
  end.

(** [a.concat(b, 0)]: the rows of [b] after the rows of [a]; the other
    dimensions must agree. *)
Definition concat0 (a b : Tensor) : outcome Tensor :=
  match shape a, shape b with
  | ra :: da, rb :: db =>
      if list_eq_dec Nat.eq_dec da db
      then Ok (mkTensor ((ra + rb) :: da) (data a ++ data b))
      else Throw TfError
  | _, _ => Throw TfError
  end.

(** Number of rows (the first dimension); [null] has none. *)
Definition rows (t : option Tensor) : nat :=
  match t with
  | Some t => hd 0 (shape t)
  | None => 0
  end.

Definition natQ (n : nat) : Q := inject_Z (Z.of_nat n).

(* ------------------------------------------------------------------ *)
(** ** cropImage and imgToTensor (static methods) *)

(** [cropImage(img)]: [size = min(shape[0], shape[1])], the begin offsets
    are [shape[0] / 2 - size / 2] and [shape[1] / 2 - size / 2], and the
    slice takes [[size, size, 3]] from [[beginHeight, beginWidth, 0]]. *)
Definition cropSize (img : Tensor) : nat :=
  Nat.min (nth 0 (shape img) 0) (nth 1 (shape img) 0).

Definition cropBeginHeight (img : Tensor) : Q :=
  let size := natQ (cropSize img) in
  let centerHeight := (natQ (nth 0%nat (shape img) 0%nat) / 2)%Q in
  (centerHeight - size / 2)%Q.

Definition cropBeginWidth (img : Tensor) : Q :=
  let size := natQ (cropSize img) in
  let centerWidth := (natQ (nth 1%nat (shape img) 0%nat) / 2)%Q in
  (centerWidth - size / 2)%Q.

Definition cropImage (img : Tensor) : outcome Tensor :=
  let size := cropSize img in
  slice3 img (cropBeginHeight img) (cropBeginWidth img) 0 size size 3.

(** [imgToTensor(input)]: fromPixels, cropImage, expandDims(0), toFloat,
    div(127), sub(1). *)
Definition imgToTensor (input : jsval) : outcome Tensor :=
  img <- fromPixels input ;;
  croppedImage <- cropImage img ;;
  let batchedImage := expandDims0 croppedImage in
  Ok (sub_scalar (div_scalar (toFloat batchedImage) 127) 1).

(* ------------------------------------------------------------------ *)
(** ** Array.prototype.sort

    [arr.sort(cmp)] puts [a] before [b] when [cmp(a, b) < 0] and keeps the
    original order of two elements when [cmp(a, b)] is 0: ECMAScript (2019
    and later) requires the sort to be stable, so a consistent comparator
    leaves one possible result.  It is computed here by insertion. *)

Section ArraySort.
Context {A : Type}.
Variable cmp : A -> A -> Q.

Fixpoint sort_insert (x : A) (l : list A) : list A :=
  match l with
  | [] => [x]
  | y :: l' => if Qle_bool (cmp x y) 0 then x :: y :: l' else y :: sort_insert x l'
  end.

Fixpoint array_sort (l : list A) : list A :=
  match l with
  | [] => []
  | x :: l' => sort_insert x (array_sort l')
  end.
End ArraySort.

(* ------------------------------------------------------------------ *)
(** ** Typed arrays *)

(** Truncation toward zero (ToIntegerOrInfinity on a finite number). *)
Definition Qtrunc (q : Q) : Z :=
  if Qle_bool 0 q then Qfloor q else Qceiling q.

(** The largest integer ToIndex accepts, 2^53 - 1. *)
Definition maxIndex : Z := 2 ^ 53 - 1.

(** The largest length [new Float32Array] is asked for in [getTopKClasses]
    without refusing.  ToIndex refuses an integer above 2^53 - 1.  The
    method holds a typed array already, [values], and a list of any length
    may stand for it here, so a length that [values] has is not refused
    either: for every list of at most 2^53 - 1 values, as every typed array
    is, the limit is 2^53 - 1.  An engine also refuses, with a RangeError,
    a length it cannot allocate; memory is not part of the model. *)
Definition lengthLimit (values : list Q) : Z :=
  Z.max maxIndex (Z.of_nat (length values)).

(** [new Float32Array(v)] and [new Int32Array(v)]: the length of the new
    array.  A primitive goes through ToIndex, which refuses a negative
    integer and one above the limit; a function is taken as an array-like
    object of its own [length]; an element, a canvas and an ImageData
    object have no [length]. *)
Definition typedArrayLength (limit : Z) (v : jsval) : outcome nat :=
  match v with
  | JFun _ arity => Ok arity
  | JImage _ | JVideo _ | JCanvas _ => Ok 0
  | _ =>
      match toNumber v with
      | NaN => Ok 0
      | Fin q =>
          if ((Qtrunc q <? 0)%Z || (limit <? Qtrunc q)%Z)%bool
          then Throw RangeError
          else Ok (Z.to_nat (Qtrunc q))
      end
  end.

(** What an entry of [new Float32Array(v)] holds before anything is
    stored in it: 0 when [v] is a length; when [v] is an array-like
    object, ToNumber of its element, and a function has no elements, so
    each one reads as undefined and is stored as NaN.  An entry of
    [new Int32Array(v)] is 0 in both cases. *)
Definition float32Initial (v : jsval) : number :=
  match v with
  | JFun _ _ => NaN
  | _ => Fin 0
  end.

(** How many times the body of [for (let i = 0; i < v; i += 1)] runs. *)
Definition loopCount (v : jsval) : nat :=
  match toNumber v with
  | NaN => 0
  | Fin q => Z.to_nat (Qceiling q)
  end.

(* ------------------------------------------------------------------ *)
(** ** getTopKClasses (static method) *)

Record ValueIndex : Type := mkVI { value : Q; index : nat }.

(** An entry of the returned list; [probability] is read out of a
    Float32Array and can be NaN. *)
Record ClassProb : Type := mkCP { className : option string; probability : number }.

(** The first loop: [valuesAndIndices.push({ value: values[i], index: i })]. *)
Fixpoint valuesAndIndicesFrom (i : nat) (values : list Q) : list ValueIndex :=
  match values with
  | [] => []
  | v :: rest => mkVI v i :: valuesAndIndicesFrom (S i) rest
  end.

Definition valuesAndIndices (values : list Q) : list ValueIndex :=
  valuesAndIndicesFrom 0 values.

(** The comparator [(a, b) => b.value - a.value]. *)
Definition byValueDesc (a b : ValueIndex) : Q := (value b - value a)%Q.

(** The second loop runs [count] times over the two typed arrays of
    length [len].  Reading [valuesAndIndices[i].value] with [i] past the
    end is a TypeError; a store past the end of a typed array is dropped.
    The result is what the loop has stored, [topkValues[i]] beside
    [topkIndices[i]] for every [i] below both [len] and [count].  The
    values come out of a Float32Array and the indices are below the length
    of an array, so the stores change neither. *)
Definition fillTopK (sorted : list ValueIndex) (len count : nat)
  : outcome (list ValueIndex) :=
  if count <=? length sorted
  then Ok (map (fun i => nth i sorted (mkVI 0 0)) (seq 0 (Nat.min len count)))
  else Throw TypeError.

(** The sorted pairs kept by [getTopKClasses]: the entries of
    [topkValues] and [topkIndices] that the loop has stored, side by
    side. *)
Definition rankTopK (values : list Q) (topK : jsval) : outcome (list ValueIndex) :=
  let sorted := array_sort byValueDesc (valuesAndIndices values) in
  len <- typedArrayLength (lengthLimit values) topK ;;
  fillTopK sorted len (loopCount topK).

(** What a run lets the outside observe. *)
Inductive Event : Type :=
| Inferred (img : jsval)       (* predict ran this.mobilenet.predict on [img] *)
| Rejected (e : JsError)       (* an exception leaves a method or rejects its promise *)
| Called (f : jsval)           (* [f()] *)
| CalledWith (f : jsval) (results : list ClassProb).   (* [f(results)] *)

(** [if (callback) { callback(results); }]. *)
Definition callIfSet (callback : jsval) (results : list ClassProb) : outcome (list Event) :=
  if truthy callback
  then match callback with
       | JFun _ _ => Ok [CalledWith callback results]
       | _ => Throw TypeError
       end
  else Ok [].

Section TopK.
(** The label table of utils/IMAGENET_CLASSES, indexed by class id. *)
Variable IMAGENET_CLASSES : list string.

Definition topClassesAndProbs (top : list ValueIndex) : list ClassProb :=
  map (fun vi => mkCP (nth_error IMAGENET_CLASSES (index vi)) (Fin (value vi))) top.

(** The entries of the two typed arrays that the loop has not stored,
    which come after the stored ones: index 0 with the initial value of the
    Float32Array.  There are some only when the loop runs fewer times than
    the arrays are long, as it does for a function given as [topK]. *)
Definition neverStored (values : list Q) (topK : jsval) : list ClassProb :=
  match typedArrayLength (lengthLimit values) topK with
  | Ok len => repeat (mkCP (nth_error IMAGENET_CLASSES 0) (float32Initial topK))
                (len - loopCount topK)
  | Throw _ => []
  end.

(** [getTopKClasses(logits, topK, callback)], after [logits.data()] has
    delivered [values]: the returned list and the callback call. *)
Definition getTopKClasses (values : list Q) (topK callback : jsval)
  : outcome (list ClassProb * list Event) :=
  top <- rankTopK values topK ;;
  let results := topClassesAndProbs top ++ neverStored values topK in
  evs <- callIfSet callback results ;;
  Ok (results, evs).
End TopK.

(* ------------------------------------------------------------------ *)
(** ** The class: its fields *)

(** [DEFAULTS]. *)
Module DEFAULTS.
Definition learningRate : jsval := JNumQ (1 # 10000).
Definition hiddenUnits : jsval := JNumQ 100.
Definition epochs : jsval := JNumQ 20.
Definition numClasses : jsval := JNumQ 2.
Definition batchSize : jsval := JNumQ (4 # 10).
End DEFAULTS.

(** The [options] object; a field that is absent reads as [undefined]. *)
Record Options : Type := mkOptions {
  o_learningRate : jsval;
  o_hiddenUnits : jsval;
  o_epochs : jsval;
  o_numClasses : jsval;
  o_batchSize : jsval
}.

(** [{}], the default value of the [options] parameter. *)
Definition noOptions : Options :=
  mkOptions JUndefined JUndefined JUndefined JUndefined JUndefined.

(** An entry of [waitingPredictions]. *)
Record QueueEntry : Type := mkEntry {
  imgToPredict : jsval;
  num : jsval;
  callback : jsval
}.

(** The pretrained network, [this.mobilenet]: only the values of its
    output are read ([logits.data()]), so a run returns them. *)
Definition FullModel : Type := Tensor -> outcome (list Q).

(** The network cut at its layer conv_pw_13_relu, [this.mobilenetModified]. *)
Definition TruncModel : Type := Tensor -> outcome Tensor.

(** What [train] hands to [customModel.fit]. *)
Record FitCall : Type := mkFit {
  fit_xs : option Tensor;
  fit_ys : option Tensor;
  fit_batchSize : Z;
  fit_epochs : jsval;
  fit_onProgress : jsval
}.

(** [this.customModel]: the sequential model built by [train] (flatten,
    dense with [hiddenUnits] units, dense with [numClasses] units), the
    learning rate of its optimizer, and the [fit] call made on it. *)
Record Sequential : Type := mkSequential {
  denseUnits : jsval;
  outputUnits : jsval;
  adamRate : jsval;
  fitted : option FitCall
}.

Record ImageClassifier : Type := mkClassifier {
  mobilenet : option FullModel;
  imageSize : nat;
  modelPath : string;
  topKPredictions : jsval;
  modelLoaded : bool;
  video : jsval;
  waitingPredictions : list QueueEntry;
  hasAnyTrainedClass : bool;
  customModel : option Sequential;
  epochs : jsval;
  hiddenUnits : jsval;
  numClasses : jsval;
  learningRate : jsval;
  batchSize : jsval;
  isPredicting : bool;
  mobilenetModified : option TruncModel;
  xs : option Tensor;
  ys : option Tensor
}.

Definition set_mobilenet (v : option FullModel) (c : ImageClassifier) : ImageClassifier :=
  mkClassifier v (imageSize c) (modelPath c) (topKPredictions c)
    (modelLoaded c) (video c) (waitingPredictions c) (hasAnyTrainedClass c)
    (customModel c) (epochs c) (hiddenUnits c) (numClasses c) (learningRate c)
    (batchSize c) (isPredicting c) (mobilenetModified c) (xs c) (ys c).

Definition set_modelLoaded (v : bool) (c : ImageClassifier) : ImageClassifier :=
  mkClassifier (mobilenet c) (imageSize c) (modelPath c) (topKPredictions c)
    v (video c) (waitingPredictions c) (hasAnyTrainedClass c) (customModel c)
    (epochs c) (hiddenUnits c) (numClasses c) (learningRate c) (batchSize c)
    (isPredicting c) (mobilenetModified c) (xs c) (ys c).

Definition set_video (v : jsval) (c : ImageClassifier) : ImageClassifier :=
  mkClassifier (mobilenet c) (imageSize c) (modelPath c) (topKPredictions c)
    (modelLoaded c) v (waitingPredictions c) (hasAnyTrainedClass c)
    (customModel c) (epochs c) (hiddenUnits c) (numClasses c) (learningRate c)
    (batchSize c) (isPredicting c) (mobilenetModified c) (xs c) (ys c).

Definition set_waitingPredictions (v : list QueueEntry) (c : ImageClassifier) : ImageClassifier :=
  mkClassifier (mobilenet c) (imageSize c) (modelPath c) (topKPredictions c)
    (modelLoaded c) (video c) v (hasAnyTrainedClass c) (customModel c) (epochs
    c) (hiddenUnits c) (numClasses c) (learningRate c) (batchSize c)
    (isPredicting c) (mobilenetModified c) (xs c) (ys c).

Definition set_hasAnyTrainedClass (v : bool) (c : ImageClassifier) : ImageClassifier :=
  mkClassifier (mobilenet c) (imageSize c) (modelPath c) (topKPredictions c)
    (modelLoaded c) (video c) (waitingPredictions c) v (customModel c) (epochs
    c) (hiddenUnits c) (numClasses c) (learningRate c) (batchSize c)
    (isPredicting c) (mobilenetModified c) (xs c) (ys c).

Definition set_customModel (v : option Sequential) (c : ImageClassifier) : ImageClassifier :=
  mkClassifier (mobilenet c) (imageSize c) (modelPath c) (topKPredictions c)
    (modelLoaded c) (video c) (waitingPredictions c) (hasAnyTrainedClass c) v
    (epochs c) (hiddenUnits c) (numClasses c) (learningRate c) (batchSize c)
    (isPredicting c) (mobilenetModified c) (xs c) (ys c).

Definition set_isPredicting (v : bool) (c : ImageClassifier) : ImageClassifier :=
  mkClassifier (mobilenet c) (imageSize c) (modelPath c) (topKPredictions c)
    (modelLoaded c) (video c) (waitingPredictions c) (hasAnyTrainedClass c)
    (customModel c) (epochs c) (hiddenUnits c) (numClasses c) (learningRate c)
    (batchSize c) v (mobilenetModified c) (xs c) (ys c).

Definition set_mobilenetModified (v : option TruncModel) (c : ImageClassifier) : ImageClassifier :=
  mkClassifier (mobilenet c) (imageSize c) (modelPath c) (topKPredictions c)
    (modelLoaded c) (video c) (waitingPredictions c) (hasAnyTrainedClass c)
    (customModel c) (epochs c) (hiddenUnits c) (numClasses c) (learningRate c)
    (batchSize c) (isPredicting c) v (xs c) (ys c).

Definition set_xs (v : option Tensor) (c : ImageClassifier) : ImageClassifier :=
  mkClassifier (mobilenet c) (imageSize c) (modelPath c) (topKPredictions c)
    (modelLoaded c) (video c) (waitingPredictions c) (hasAnyTrainedClass c)
    (customModel c) (epochs c) (hiddenUnits c) (numClasses c) (learningRate c)
    (batchSize c) (isPredicting c) (mobilenetModified c) v (ys c).

Definition set_ys (v : option Tensor) (c : ImageClassifier) : ImageClassifier :=
  mkClassifier (mobilenet c) (imageSize c) (modelPath c) (topKPredictions c)
    (modelLoaded c) (video c) (waitingPredictions c) (hasAnyTrainedClass c)
    (customModel c) (epochs c) (hiddenUnits c) (numClasses c) (learningRate c)
    (batchSize c) (isPredicting c) (mobilenetModified c) (xs c) v.

(* ------------------------------------------------------------------ *)
(** ** The class at run time

    A [World] is an instance together with what surrounds it in the
    JavaScript run: whether the promise of [loadModel] is still pending,
    the [callback] captured by the constructor, the continuations waiting
    behind an [await], and the calls observed so far, oldest first.

    One thread runs everything.  A call from outside runs to its end, then
    the continuations it left run, in the order in which they were left:
    [logits.data()] is taken to settle as soon as the call has returned.
    tf may settle it later; that moves the delivery of results, not the
    order in which [predict] is entered.  [customModel.fit] is started and
    not awaited by [train]; what training does afterwards (the calls of
    [onProgress]) is not part of a run. *)

(** The rest of [getTopKClasses] behind [await logits.data()]. *)
Record Pending : Type := mkPending {
  p_values : list Q;
  p_topK : jsval;
  p_callback : jsval
}.

Record World : Type := mkWorld {
  self : ImageClassifier;
  loading : bool;
  onReady : jsval;
  microtasks : list Pending;
  log : list Event
}.

Definition upd (f : ImageClassifier -> ImageClassifier) (w : World) : World :=
  mkWorld (f (self w)) (loading w) (onReady w) (microtasks w) (log w).

Definition with_self (c : ImageClassifier) (w : World) : World :=
  mkWorld c (loading w) (onReady w) (microtasks w) (log w).

Definition emit (evs : list Event) (w : World) : World :=
  mkWorld (self w) (loading w) (onReady w) (microtasks w) (log w ++ evs).

Definition defer (p : Pending) (w : World) : World :=
  mkWorld (self w) (loading w) (onReady w) (microtasks w ++ [p]) (log w).

(** [() => {}], the default callback. *)
Definition noop : jsval := JFun 0 0.

(** A call [f()] of a value that may not be a function. *)
Definition callNoArg (f : jsval) : list Event :=
  match f with
  | JFun _ _ => [Called f]
  | _ => [Rejected TypeError]
  end.

(** *** Doubles

    A finite number of JavaScript is a double, a binary64 value of IEEE
    754: [m * 2^e] with a whole [m] of at most 53 bits.  [Fin q] stands for
    the double nearest to [q], as a literal such as [0.4] does in the
    source.  Rounding is to the nearest double, a tie going to the even
    significand.  The exponent is not bounded here: a result of 2^1024 or
    more is Infinity in JavaScript, and a result below 2^-1022 has fewer
    bits there. *)

(** The nearest integer, a tie going to the even one. *)
Definition roundHalfEven (q : Q) : Z :=
  let f := Qfloor q in
  match Qcompare (q - inject_Z f) (1 # 2) with
  | Lt => f
  | Gt => (f + 1)%Z
  | Eq => if Z.even f then f else (f + 1)%Z
  end.

(** The exponent [l] with [2^l <= q < 2^(l+1)], for a positive [q]. *)
Definition Qlog2 (q : Q) : Z :=
  let l := (Z.log2 (Qnum q) - Z.log2 (Z.pos (Qden q)))%Z in
  if Qle_bool (2 ^ l) q then l else (l - 1)%Z.

(** The double nearest to a positive [q]: its significand [q / 2^e],
    between 2^52 and 2^53, is rounded to a whole number. *)
Definition roundPositive (q : Q) : Q :=
  let e := (Qlog2 q - 52)%Z in
  inject_Z (roundHalfEven (q / 2 ^ e)) * 2 ^ e.

Definition roundDouble (q : Q) : Q :=
  match Qcompare q 0 with
  | Eq => 0
  | Gt => roundPositive q
  | Lt => - roundPositive (- q)
  end.

(** [x * y] on two finite numbers. *)
Definition doubleProduct (x y : Q) : Q :=
  roundDouble (roundDouble x * roundDouble y).

(** The same product on the binary64 numbers of the machine, to set
    beside [doubleProduct] on examples.  [machineDouble q] is the double
    nearest to [q] when the numerator and the denominator of [q] are
    doubles themselves: the division of two doubles is rounded once. *)
Definition machineInteger (z : Z) : PrimFloat.float :=
  match z with
  | Z.neg _ => PrimFloat.opp (PrimFloat.of_uint63 (Uint63.of_Z (- z)))
  | _ => PrimFloat.of_uint63 (Uint63.of_Z z)
  end.

Definition machineDouble (q : Q) : PrimFloat.float :=
  PrimFloat.div (machineInteger (Qnum q)) (machineInteger (Z.pos (Qden q))).

Definition machineValue (f : PrimFloat.float) : option Q :=
  match FloatOps.Prim2SF f with
  | SpecFloat.S754_zero _ => Some 0%Q
  | SpecFloat.S754_finite sign m e =>
      Some ((if sign then - inject_Z (Z.pos m) else inject_Z (Z.pos m)) * 2 ^ e)%Q
  | _ => None
  end.

Definition machineProduct (x y : Q) : option Q :=
  machineValue (PrimFloat.mul (machineDouble x) (machineDouble y)).

Definition sameNumber (a : option Q) (b : Q) : bool :=
  match a with
  | Some q => Qeq_bool q b
  | None => false
  end.

(** Number arithmetic used by [train]. *)
Definition js_mul (a b : number) : number :=
  match a, b with
  | Fin x, Fin y => Fin (doubleProduct x y)
  | _, _ => NaN
  end.

Definition js_floor (a : number) : number :=
  match a with
  | Fin x => Fin (inject_Z (Qfloor x))
  | NaN => NaN
  end.

(** [a > 0]. *)
Definition js_gt0 (a : number) : bool :=
  match a with
  | Fin x => negb (Qle_bool x 0)
  | NaN => false
  end.

Definition numberToZ (a : number) : Z :=
  match a with
  | Fin x => Qfloor x
  | NaN => 0%Z
  end.

(** [tf.oneHot(tf.tensor1d([label]), depth)]: one row of [depth] entries,
    1 at position [label]. *)
Definition oneHot (label : Z) (depth : jsval) : outcome Tensor :=
  match depth with
  | JNum (Fin q) =>
      match asIndex q with
      | Some d =>
          Ok (mkTensor [1; d]
                (map (fun i => if (Z.of_nat i =? label)%Z then 1%Q else 0%Q) (seq 0 d)))
      | None => Throw TfError
      end
  | _ => Throw TfError
  end.

Definition embeddingShape : list nat := [7; 7; 256].

Section Class.
(** What the class receives from outside: the label table, the network
    fetched from [modelPath], the values the network has at its layer
    conv_pw_13_relu, the bilinear resize of tf, and [processVideo] of
    utils/imageUtilities. *)
Variable IMAGENET_CLASSES : list string.
Variable loadedModel : Tensor -> outcome (list Q).
Variable conv_pw_13_relu : Tensor -> outcome (list Q).
Variable resizeBilinear : Tensor -> nat -> nat -> Tensor.
Variable processVideo : Pixels -> nat -> Pixels.

(** [tf.model({ inputs, outputs: layer.output })]: the network cut at its
    layer conv_pw_13_relu.  The network is the one at [modelPath], a
    constant of the constructor; in it the output of that layer has shape
    [[null, 7, 7, 256]], which is the [inputShape] that [train] writes for
    the head.  The values come from [conv_pw_13_relu], which may throw (for
    an input of another size than the network's, say); the shape is taken
    as known: one embedding per row of the input. *)
Definition truncated : TruncModel :=
  fun t => d <- conv_pw_13_relu t ;;
           Ok (mkTensor (hd 0 (shape t) :: embeddingShape) d).

(** A method call on a field that may still be [null] or [undefined]. *)
Definition callModel {R : Type} (m : option (Tensor -> outcome R)) (t : Tensor)
  : outcome R :=
  match m with
  | Some f => f t
  | None => Throw TypeError
  end.

(** *** constructor *)
Definition construct (video0 : jsval) (options : Options) (callback0 : jsval) : World :=
  let callback := default_param callback0 noop in
  let c :=
    mkClassifier
      None
      224
      "https://storage.googleapis.com/tfjs-models/tfjs/mobilenet_v1_0.25_224/model.json"
      (JNumQ 10)
      false
      JNull
      []
      false
      None
      (js_or (o_epochs options) DEFAULTS.epochs)
      (js_or (o_hiddenUnits options) DEFAULTS.hiddenUnits)
      (js_or (o_numClasses options) DEFAULTS.numClasses)
      (js_or (o_learningRate options) DEFAULTS.learningRate)
      (js_or (o_batchSize options) DEFAULTS.batchSize)
      false
      None
      None
      None in
  let c :=
    match video0 with
    | JVideo v => set_video (JVideo (processVideo v (imageSize c))) c
    | _ => c
    end in
  mkWorld c true callback [] [].

(** *** predict *)

(** The tensor [batched] built inside [predict]. *)
Definition predict_batched (c : ImageClassifier) (img : jsval) : outcome Tensor :=
  pixels0 <- fromPixels img ;;
  let pixels := toFloat pixels0 in
  let resized := resizeBilinear pixels (imageSize c) (imageSize c) in
  let offset := (1275 # 10)%Q in
  let normalized := div_scalar (sub_scalar resized offset) offset in
  reshape normalized [1; imageSize c; imageSize c; 3].

(** The [tf.tidy] block of [predict]: the values of [logits]. *)
Definition predict_logits (c : ImageClassifier) (img : jsval) : outcome (list Q) :=
  batched <- predict_batched c img ;;
  callModel (mobilenet c) batched.

(** The head of [predict]: which image, which count and which callback
    the three arguments stand for.  Only the last branch sets
    [numberOfClasses]; the second one may set [this.video]. *)
Definition predict_args (c : ImageClassifier) (inputOrNum numOrCallback cb : jsval)
  : ImageClassifier * jsval * jsval * jsval :=
  match inputOrNum with
  | JImage _ => (c, inputOrNum, JUndefined, cb)
  | JVideo v =>
      let c1 := if truthy (video c)
                then c
                else set_video (JVideo (processVideo v (imageSize c))) c in
      (c1, video c1, JUndefined, cb)
  | _ => (c, video c, inputOrNum, numOrCallback)
  end.

(** [predict(inputOrNum, numOrCallback = null, cb = null)] up to its
    first [await]. *)
Definition predict (w : World) (inputOrNum numOrCallback0 cb0 : jsval) : World :=
  let numOrCallback := default_param numOrCallback0 JNull in
  let cb := default_param cb0 JNull in
  let '(c1, img, numberOfClasses, cbk) :=
    predict_args (self w) inputOrNum numOrCallback cb in
  let topK := js_or numberOfClasses (topKPredictions c1) in
  if negb (modelLoaded c1)
  then with_self
         (set_waitingPredictions
            (waitingPredictions c1 ++ [mkEntry img topK cbk]) c1) w
  else
    match predict_logits c1 img with
    | Throw e => emit [Rejected e] (with_self c1 w)
    | Ok values =>
        defer (mkPending values topK cbk) (emit [Inferred img] (with_self c1 w))
    end.

(** What follows [await logits.data()]. *)
Definition resume (w : World) (p : Pending) : World :=
  match getTopKClasses IMAGENET_CLASSES (p_values p) (p_topK p) (p_callback p) with
  | Ok (_, evs) => emit evs w
  | Throw e => emit [Rejected e] w
  end.

(** The continuations run once the current call has returned. *)
Definition runMicrotasks (w : World) : World :=
  fold_left resume (microtasks w)
    (mkWorld (self w) (loading w) (onReady w) [] (log w)).

(** *** loadModel and the handler of its promise *)

(** [loadModel()] after [tf.loadModel] has delivered the network. *)
Definition loadModel (c : ImageClassifier) : ImageClassifier * outcome TruncModel :=
  let c1 := set_mobilenet (Some loadedModel) c in
  if truthy (video c1)
  then match (t <- imgToTensor (video c1) ;; callModel (mobilenet c1) t) with
       | Ok _ => (c1, Ok truncated)
       | Throw e => (c1, Throw e)
       end
  else (c1, Ok truncated).

(** The function given to [then] in the constructor. *)
Definition onLoaded (w : World) (net : TruncModel) : World :=
  let w1 := upd (set_modelLoaded true) w in
  let w2 := upd (set_mobilenetModified (Some net)) w1 in
  let w3 := fold_left
              (fun w i => predict w (imgToPredict i) (num i) (callback i))
              (waitingPredictions (self w2)) w2 in
  emit (callNoArg (onReady w3)) w3.

Definition settled (w : World) : World :=
  mkWorld (self w) false (onReady w) (microtasks w) (log w).

(** The promise of [loadModel] settles, once. *)
Definition loadDone (w : World) : World :=
  if loading w
  then match loadModel (self w) with
       | (c1, Ok net) => onLoaded (settled (with_self c1 w)) net
       | (c1, Throw e) => emit [Rejected e] (settled (with_self c1 w))
       end
  else w.

(** *** addImage *)

(** The [tf.tidy] block of [addImage]. *)
Definition addImage_tidy (c : ImageClassifier) (label : Z) (input : jsval)
  : ImageClassifier * outcome unit :=
  match (processedImg <- imgToTensor (if truthy input then input else video c) ;;
         prediction <- callModel (mobilenetModified c) processedImg ;;
         y <- oneHot label (numClasses c) ;;
         Ok (prediction, y)) with
  | Throw e => (c, Throw e)
  | Ok (prediction, y) =>
      match xs c with
      | None =>
          (set_hasAnyTrainedClass true
             (set_ys (Some y) (set_xs (Some prediction) c)), Ok tt)
      | Some oldX =>
          match concat0 oldX prediction with
          | Throw e => (c, Throw e)
          | Ok newX =>
              let c1 := set_xs (Some newX) c in
              match ys c with
              | None => (c1, Throw TypeError)
              | Some oldY =>
                  match concat0 oldY y with
                  | Throw e => (c1, Throw e)
                  | Ok newY => (set_ys (Some newY) c1, Ok tt)
                  end
              end
          end
      end
  end.

(** [addImage(label, callback = () => {}, input = null)]. *)
Definition addImage (c : ImageClassifier) (label : Z) (callback0 input0 : jsval)
  : ImageClassifier * outcome (list Event) :=
  let cbk := default_param callback0 noop in
  let input := default_param input0 JNull in
  if modelLoaded c
  then match addImage_tidy c label input with
       | (c1, Throw e) => (c1, Throw e)
       | (c1, Ok _) =>
           match cbk with
           | JFun _ _ => (c1, Ok [Called cbk])
           | _ => (c1, Throw TypeError)
           end
       end
  else (c, Ok []).

(** *** train

    [tf.sequential] with its two dense layers, [tf.train.adam] and
    [compile] receive [hiddenUnits], [numClasses] and [learningRate] as
    they are.  What tf makes of values that are not sensible for them is
    not described here: the three calls are taken to return, and a run in
    which one of them throws is not among the runs of the model.  [fit] is
    started and not awaited. *)

Definition train (c : ImageClassifier) (onProgress : jsval)
  : ImageClassifier * outcome unit :=
  if negb (hasAnyTrainedClass c)
  then (c, Throw (Error "Add some examples before training!"))
  else
    let c1 := set_isPredicting false c in
    let model := mkSequential (hiddenUnits c1) (numClasses c1) (learningRate c1) None in
    let c2 := set_customModel (Some model) c1 in
    match xs c2 with
    | None => (c2, Throw TypeError)
    | Some x =>
        let shape0 := match shape x with r :: _ => Fin (natQ r) | [] => NaN end in
        let batch := js_floor (js_mul shape0 (toNumber (batchSize c2))) in
        if negb (js_gt0 batch)
        then (c2, Throw (Error "Batch size is 0 or NaN. Please choose a non-zero fraction."))
        else
          let call := mkFit (xs c2) (ys c2) (numberToZ batch) (epochs c2) onProgress in
          (set_customModel
             (Some (mkSequential (denseUnits model) (outputUnits model)
                      (adamRate model) (Some call))) c2, Ok tt)
    end.

(** *** A run of the program: calls made from outside, one at a time *)

Inductive Call : Type :=
| CallAddImage (label : Z) (callback input : jsval)
| CallTrain (onProgress : jsval)
| CallPredict (inputOrNum numOrCallback cb : jsval)
| LoadDone.

Definition step (w : World) (call : Call) : World :=
  match call with
  | CallAddImage label cbk input =>
      match addImage (self w) label cbk input with
      | (c1, Ok evs) => emit evs (with_self c1 w)
      | (c1, Throw e) => emit [Rejected e] (with_self c1 w)
      end
  | CallTrain onProgress =>
      match train (self w) onProgress with
      | (c1, Ok _) => with_self c1 w
      | (c1, Throw e) => emit [Rejected e] (with_self c1 w)
      end
  | CallPredict a b c => runMicrotasks (predict w a b c)
  | LoadDone => runMicrotasks (loadDone w)
  end.

Definition run (w : World) (calls : list Call) : World := fold_left step calls w.

End Class.

(* ------------------------------------------------------------------ *)
(** ** Notions used in the statements *)

(** [a] is ranked before [b]: a larger value, or the same value and a
    smaller index. *)
Definition rankedBefore (a b : ValueIndex) : Prop :=
  (value b < value a)%Q \/ ((value a == value b)%Q /\ index a < index b).

Definition indexBefore (a b : ValueIndex) : Prop := index a < index b.

(** A callback argument that [getTopKClasses] can handle: a function, or a
    falsy value (no callback). *)
Definition callable_or_unset (cb : jsval) : bool :=
  match cb with
  | JFun _ _ => true
  | _ => negb (truthy cb)
  end.

(** [a >= b] on numbers; a comparison with NaN does not hold. *)
Definition js_ge (a b : number) : Prop :=
  match a, b with
  | Fin x, Fin y => (y <= x)%Q
  | _, _ => False
  end.

(** The order of the returned list: probabilities do not increase. *)
Definition nonIncreasing (a b : ClassProb) : Prop :=
  js_ge (probability a) (probability b).

Definition fittedBatchSize (c : ImageClassifier) : option Z :=
  match customModel c with
  | Some m => match fitted m with
              | Some call => Some (fit_batchSize call)
              | None => None
              end
  | None => None
  end.

(** The fields fixed by the constructor and by the end of loading. *)
Definition core (c : ImageClassifier) :=
  (imageSize c, topKPredictions c, modelLoaded c, mobilenet c,
   mobilenetModified c, numClasses c).

(** The fields of the dataset. *)
Definition dataset (c : ImageClassifier) :=
  (hasAnyTrainedClass c, xs c, ys c).

(** The values of a dataset tensor; [null] has none. *)
Definition values (t : option Tensor) : list Q :=
  match t with
  | Some t => data t
  | None => []
  end.

(** What holds of the dataset fields at every moment. *)
Definition datasetInv (c : ImageClassifier) : Prop :=
  (hasAnyTrainedClass c = true <-> xs c <> None) /\
  (xs c = None <-> ys c = None) /\
  rows (xs c) = rows (ys c) /\
  (forall y, ys c = Some y ->
     exists n q d, shape y = [n; d] /\ numClasses c = JNum (Fin q) /\ asIndex q = Some d).

(** An [addImage] call that appends: the model is loaded and the
    [tf.tidy] block runs to its end. *)
Definition appended (c : ImageClassifier) (label : Z) (input : jsval) : bool :=
  modelLoaded c && succeeded (snd (addImage_tidy c label (default_param input JNull))).

Definition predictCalls (l : list (jsval * jsval * jsval)) : list Call :=
  map (fun '(a, b, c) => CallPredict a b c) l.

Definition is_function (v : jsval) : bool :=
  match v with JFun _ _ => true | _ => false end.

(** A call of a callback without argument: the constructor's [callback]
    and the callback of [addImage] are the only ones called this way. *)
Definition isCalled (ev : Event) : bool :=
  match ev with Called _ => true | _ => false end.

(** The end of a prediction: its callback receives the results, or its
    promise is rejected. *)
Definition isDelivery (ev : Event) : bool :=
  match ev with CalledWith _ _ | Rejected _ => true | _ => false end.

(** The image a replayed entry is predicted on: the entry's own image, or
    the current frame when the entry holds none. *)
Definition replayImage (c : ImageClassifier) (e : QueueEntry) : jsval :=
  match imgToPredict e with
  | JImage _ => imgToPredict e
  | _ => video c
  end.

(** What a [predict] call on a loaded instance logs before its [await]. *)
Definition startEvent (resizeBilinear : Tensor -> nat -> nat -> Tensor)
  (c : ImageClassifier) (img : jsval) : Event :=
  match predict_logits resizeBilinear c img with
  | Ok _ => Inferred img
  | Throw e => Rejected e
  end.

(** The entry that stands for a call [predict(a, b, cb)] made too early:
    its callback, its count and, for an image, the image itself; for a
    call without an image the entry holds the frame source of that
    moment, a video element or [null]. *)
Definition captures (call : jsval * jsval * jsval) (e : QueueEntry) : Prop :=
  let '(a, b, cb) := call in
  match a with
  | JImage _ =>
      imgToPredict e = a /\ num e = JNumQ 10 /\ callback e = default_param cb JNull
  | JVideo _ =>
      (exists p, imgToPredict e = JVideo p) /\ num e = JNumQ 10 /\
      callback e = default_param cb JNull
  | _ =>
      (imgToPredict e = JNull \/ exists p, imgToPredict e = JVideo p) /\
      num e = js_or a (JNumQ 10) /\ callback e = default_param b JNull
  end.

(** The frame source is absent or a video element, and an entry that
    holds a video element was queued when the frame source was set. *)
Definition queueInv (c : ImageClassifier) : Prop :=
  (video c = JNull \/ exists p, video c = JVideo p) /\
  Forall (fun e => forall p, imgToPredict e = JVideo p -> truthy (video c) = true)
         (waitingPredictions c).

(** The number of rows a call appends to the dataset. *)
Definition added (w : World) (call : Call) : nat :=
  match call with
  | CallAddImage label _ input => if appended (self w) label input then 1 else 0
  | _ => 0
  end.

Section Statements.
Variable IMAGENET_CLASSES : list string.
Variable loadedModel : Tensor -> outcome (list Q).
Variable conv_pw_13_relu : Tensor -> outcome (list Q).
Variable resizeBilinear : Tensor -> nat -> nat -> Tensor.
Variable processVideo : Pixels -> nat -> Pixels.

(** What holds of the configuration and of the networks at every moment. *)
Definition loadedInv (c : ImageClassifier) : Prop :=
  imageSize c = 224 /\
  topKPredictions c = JNumQ 10 /\
  (modelLoaded c = true ->
   mobilenet c = Some loadedModel /\
   mobilenetModified c = Some (truncated conv_pw_13_relu)).

Definition Inv (c : ImageClassifier) : Prop := loadedInv c /\ datasetInv c.

Fixpoint appends (w : World) (calls : list Call) : nat :=
  match calls with
  | [] => 0
  | call :: rest => added w call
      + appends (step IMAGENET_CLASSES loadedModel conv_pw_13_relu resizeBilinear
                   processVideo w call) rest
  end.

End Statements.

(* ------------------------------------------------------------------ *)
(** ** Sample instances, used to run the definitions on concrete inputs *)

Definition sample_classes : list string :=
  ["tench"; "goldfish"; "great white shark"; "tiger shark"; "hammerhead"]%string.

Definition sample_values : list Q := [2 # 10; 5 # 10; 2 # 10; 5 # 10; 1 # 10]%Q.

(** A network that answers every image with [n] equal probabilities. *)
Definition uniform_model (n : nat) : Tensor -> outcome (list Q) :=
  fun _ => Ok (repeat (1 # Pos.of_nat n)%Q n).

(** Embedding values that are all 0. *)
Definition zero_embedding : Tensor -> outcome (list Q) :=
  fun _ => Ok (repeat 0%Q (numel embeddingShape)).

(** A resize that paints the whole output with the first value of its
    input: the bilinear resize of an image of one colour. *)
Definition flat_resize (t : Tensor) (h w : nat) : Tensor :=
  mkTensor [h; w; 3] (repeat (nth 0 (data t) 0%Q) (h * w * 3)).

Definition same_frames (p : Pixels) (size : nat) : Pixels :=
  mkPixels size size (rgb p).

(** An image of one colour. *)
Definition plain_image (h w : nat) (v : Z) : Pixels :=
  mkPixels h w (fun _ _ _ => v).

(** A page that waits for the network, then adds [n] examples of label 0
    from a 2 by 4 image. *)
Definition sample_calls (n : nat) : list Call :=
  LoadDone :: repeat (CallAddImage 0 JUndefined (JImage (plain_image 2 4 255))) n.

Definition sample_world (n : nat) : World :=
  run sample_classes (uniform_model 1000) zero_embedding flat_resize same_frames
    (construct same_frames JUndefined noOptions JUndefined) (sample_calls n).

(** The same page after three examples and a call of [train]. *)
Definition sample_trained : World :=
  run sample_classes (uniform_model 1000) zero_embedding flat_resize same_frames
    (construct same_frames JUndefined noOptions JUndefined)
    (sample_calls 3 ++ [CallTrain noop]).

(** A page that calls [addImage] too early, then without any image, then
    with [null] for a callback. *)
Definition sample_mixed_calls : list Call :=
  [CallAddImage 0 JUndefined (JImage (plain_image 2 4 255));
   LoadDone;
   CallAddImage 0 JUndefined (JImage (plain_image 2 4 255));
   CallAddImage 1 JUndefined JUndefined;
   CallAddImage 1 JNull (JImage (plain_image 4 2 0))].

(** Three calls made while the network loads: an image with a count, a
    count alone (no frame source is set), another image; and one call made
    afterwards. *)
Definition sample_early : list (jsval * jsval * jsval) :=
  [(JImage (plain_image 1 1 0), JNumQ 3, JFun 1 1);
   (JNumQ 2, JFun 2 1, JUndefined);
   (JImage (plain_image 1 2 0), JNumQ 4, JFun 3 1)].

Definition sample_late : list (jsval * jsval * jsval) :=
  [(JImage (plain_image 1 3 0), JNumQ 3, JFun 4 1)].

(** An event in short: its kind, the size of the image or the identifier
    of the function, and the number of results. *)
Definition eventTag (ev : Event) : string * nat * nat :=
  match ev with
  | Inferred (JImage p) => ("inferred", pheight p, pwidth p)
  | Inferred _ => ("inferred", 0, 0)
  | Rejected _ => ("rejected", 0, 0)
  | Called (JFun id _) => ("called", id, 0)
  | Called _ => ("called", 0, 0)
  | CalledWith (JFun id _) r => ("called with", id, length r)
  | CalledWith _ r => ("called with", 0, length r)
  end%string.

(** A tensor of shape [[2, 4, 3]] without values. *)
Definition wide_tensor : Tensor := mkTensor [2; 4; 3] [].

(** The options kept by the constructor, and the address of the network. *)
Definition settings (c : ImageClassifier) :=
  (epochs c, hiddenUnits c, numClasses c, learningRate c, batchSize c, modelPath c).

(** Everything [addImage] has no business with. *)
Definition besideDataset (c : ImageClassifier) :=
  (core c, settings c, video c, waitingPredictions c, customModel c, isPredicting c).

(** Everything [train] has no business with, the dataset and the
    networks apart. *)
Definition besideHead (c : ImageClassifier) :=
  (settings c, video c, waitingPredictions c).

(** Everything [predict] has no business with, the dataset and the
    networks apart. *)
Definition besideQueue (c : ImageClassifier) :=
  (settings c, customModel c, isPredicting c).

Definition isPredictCall (call : Call) : bool :=
  match call with CallPredict _ _ _ => true | _ => false end.

Definition isTrainCall (call : Call) : bool :=
  match call with CallTrain _ => true | _ => false end.

Definition isLoadDone (call : Call) : bool :=
  match call with LoadDone => true | _ => false end.

(** The error of [train] without examples. *)
Definition noExamples : JsError := Error "Add some examples before training!".

(** An instance on which nothing has happened but calls of [predict]
    waiting in the queue. *)
Definition unloaded (w : World) : Prop :=
  modelLoaded (self w) = false /\
  hasAnyTrainedClass (self w) = false /\
  xs (self w) = None /\ ys (self w) = None /\
  customModel (self w) = None /\
  microtasks w = [] /\
  topKPredictions (self w) = JNumQ 10 /\
  queueInv (self w).

(** A network that refuses every input. *)
Definition failing_model : Tensor -> outcome (list Q) :=
  fun _ => Throw TfError.

(** A [processVideo] that hands the frames over as they are. *)
Definition keep_frames (p : Pixels) (size : nat) : Pixels := p.

(** A page that predicts and trains before the network is there, and
    goes on afterwards. *)
Definition sample_impatient : list Call :=
  [CallPredict (JImage (plain_image 1 1 0)) JUndefined (JFun 1 1);
   CallTrain noop;
   CallAddImage 0 (JFun 2 0) (JImage (plain_image 2 4 255));
   CallPredict (JNumQ 3) (JFun 3 1) JUndefined].

Definition sample_afterwards : list Call :=
  [LoadDone;
   CallPredict (JImage (plain_image 1 2 0)) JUndefined (JFun 4 1);
   CallAddImage 1 (JFun 5 0) (JImage (plain_image 2 4 255));
   CallTrain noop].

(** The row [tf.oneHot] makes of a label, [d] entries wide. *)
Definition labelRow (label : Z) (d : nat) : list Q :=
  map (fun i => if (Z.of_nat i =? label)%Z then 1%Q else 0%Q) (seq 0 d).

(** Every feature tensor has the shape the head declares for its input,
    one row per example and at least one row. *)
Definition xsShaped (c : ImageClassifier) : Prop :=
  forall x, xs c = Some x -> exists n, shape x = S n :: embeddingShape.

Definition zeroBatch : JsError :=
  Error "Batch size is 0 or NaN. Please choose a non-zero fraction.".

(** The batch size [train] computes for a dataset of [n] rows. *)
Definition batchFor (c : ImageClassifier) (n : nat) : number :=
  js_floor (js_mul (Fin (natQ n)) (toNumber (batchSize c))).

(** The head [train] builds, before [fit] is called on it. *)
Definition freshHead (c : ImageClassifier) : Sequential :=
  mkSequential (hiddenUnits c) (numClasses c) (learningRate c) None.

(** A dataset and a batch fraction with which [train] goes through. *)
Definition trainable (c : ImageClassifier) : Prop :=
  hasAnyTrainedClass c = true /\ js_gt0 (batchFor c (rows (xs c))) = true.

(** What the end of a prediction logs: the call of the callback with
    the results, or the rejection. *)
Definition delivered (CLASSES : list string) (values : list Q) (topK cbk : jsval)
  : list Event :=
  match getTopKClasses CLASSES values topK cbk with
  | Ok (_, evs) => evs
  | Throw e => [Rejected e]
  end.

(** An image or a video element. *)
Definition isElement (v : jsval) : bool :=
  match v with JImage _ | JVideo _ => true | _ => false end.

(** What [tf.fromPixels] takes: an image or a video element, a canvas
    element or an ImageData object. *)
Definition hasPixels (v : jsval) : bool :=
  match v with JImage _ | JVideo _ | JCanvas _ => true | _ => false end.

(** The ten best classes of a list of probabilities. *)
Definition tenBest (CLASSES : list string) (values : list Q) : list ClassProb :=
  topClassesAndProbs CLASSES
    (firstn 10 (array_sort byValueDesc (valuesAndIndices values))).

(** The callback that the replay of an entry ends with.  The entry of
    a call that named an image or a video element is replayed as
    [predict(element, num, callback)] and keeps its callback.  An entry
    that holds [null] is replayed as [predict(null, num, callback)], where
    [predict] takes its second argument, the stored count, for the
    callback. *)
Definition replayCallback (e : QueueEntry) : jsval :=
  match imgToPredict e with
  | JImage _ | JVideo _ => default_param (callback e) JNull
  | _ => default_param (num e) JNull
  end.

(** What the continuation of a prediction logs when it runs. *)
Definition deliveryOf (CLASSES : list string) (p : Pending) : list Event :=
  delivered CLASSES (p_values p) (p_topK p) (p_callback p).

Section Served.
Variable IMAGENET_CLASSES : list string.
Variable resizeBilinear : Tensor -> nat -> nat -> Tensor.
Variable processVideo : Pixels -> nat -> Pixels.

(** The continuation that the replay of an entry leaves behind its
    [await]: ten classes are to be ranked, whatever count the entry holds;
    none when the run of the network was rejected. *)
Definition replayPending (c : ImageClassifier) (e : QueueEntry) : list Pending :=
  match predict_logits resizeBilinear c (replayImage c e) with
  | Ok values => [mkPending values (JNumQ 10) (replayCallback e)]
  | Throw _ => []
  end.

(** What the end of a replayed prediction logs. *)
Definition replayDelivery (c : ImageClassifier) (e : QueueEntry) : list Event :=
  match predict_logits resizeBilinear c (replayImage c e) with
  | Ok values => delivered IMAGENET_CLASSES values (JNumQ 10) (replayCallback e)
  | Throw _ => []
  end.

(** The instance after a call [predict(a, b, cb)]: only a first video
    element changes it. *)
Definition afterCall (c : ImageClassifier) (call : jsval * jsval * jsval)
  : ImageClassifier :=
  let '(a, b, cb) := call in
  fst (fst (fst (predict_args processVideo c a (default_param b JNull)
                   (default_param cb JNull)))).

(** What a call [predict(a, b, cb)] on a loaded instance logs when it
    is run to its end: the run of the network and the delivery of the
    results, or the rejection. *)
Definition servedCall (c : ImageClassifier) (call : jsval * jsval * jsval)
  : list Event :=
  let '(a, b, cb) := call in
  let args := predict_args processVideo c a (default_param b JNull)
                (default_param cb JNull) in
  let c1 := fst (fst (fst args)) in
  let img := snd (fst (fst args)) in
  match predict_logits resizeBilinear c1 img with
  | Throw e => [Rejected e]
  | Ok values =>
      Inferred img
      :: delivered IMAGENET_CLASSES values
           (js_or (snd (fst args)) (topKPredictions c1)) (snd args)
  end.

(** The same for calls made one after the other. *)
Fixpoint served (c : ImageClassifier) (calls : list (jsval * jsval * jsval))
  : list Event :=
  match calls with
  | [] => []
  | call :: rest => servedCall c call ++ served (afterCall c call) rest
  end.

End Served.

(* ================================================================== *)
(** * Properties *)

(** ** Numbers and indices *)

Lemma Qred_inject_Z (z : Z) : Qred (inject_Z z) = inject_Z z.
Proof.
  unfold inject_Z, Qred.
  pose proof (Z.ggcd_gcd z 1) as Hg.
  pose proof (Z.ggcd_correct_divisors z 1) as Hd.
  destruct (Z.ggcd z 1) as [g [a b]]; simpl in *.
  rewrite Z.gcd_1_r in Hg. subst g.
  destruct Hd as [Ha Hb].
  rewrite Z.mul_1_l in Ha, Hb. subst a. subst b. reflexivity.
Qed.

Lemma asIndex_natQ (q : Q) (n : nat) : q == natQ n -> asIndex q = Some n.
Proof.
  intros H. unfold asIndex.
  rewrite (Qred_complete _ _ H). unfold natQ. rewrite Qred_inject_Z. simpl.
  replace (0 <=? Z.of_nat n)%Z with true by (symmetry; apply Z.leb_le; lia).
  simpl. now rewrite Nat2Z.id.
Qed.

Lemma Qle_bool_natQ (n : nat) : Qle_bool 0 (natQ n) = true.
Proof.
  apply Qle_bool_iff. unfold natQ, Qle. simpl. lia.
Qed.

Lemma Qtrunc_natQ (n : nat) : Qtrunc (natQ n) = Z.of_nat n.
Proof.
  unfold Qtrunc. rewrite Qle_bool_natQ. unfold natQ. apply Qfloor_Z.
Qed.

Lemma loopCount_nat (k : nat) : loopCount (JNumQ (natQ k)) = k.
Proof.
  unfold loopCount, JNumQ, natQ. simpl. rewrite Qceiling_Z. apply Nat2Z.id.
Qed.

Lemma typedArrayLength_nat (limit : Z) (k : nat) :
  (Z.of_nat k <= limit)%Z -> typedArrayLength limit (JNumQ (natQ k)) = Ok k.
Proof.
  intros Hk. unfold typedArrayLength, JNumQ. simpl toNumber. cbv iota beta.
  rewrite Qtrunc_natQ.
  replace (Z.of_nat k <? 0)%Z with false by (symmetry; apply Z.ltb_ge; lia).
  replace (limit <? Z.of_nat k)%Z with false by (symmetry; apply Z.ltb_ge; lia).
  cbn [orb]. now rewrite Nat2Z.id.
Qed.

Lemma lengthLimit_length (values : list Q) (k : nat) :
  k <= length values -> (Z.of_nat k <= lengthLimit values)%Z.
Proof. intros Hk. unfold lengthLimit. lia. Qed.

Lemma lengthLimit_maxIndex (values : list Q) (k : nat) :
  (Z.of_nat k <= maxIndex)%Z -> (Z.of_nat k <= lengthLimit values)%Z.
Proof. intros Hk. unfold lengthLimit. lia. Qed.

Lemma neverStored_nat (CLASSES : list string) (values : list Q) (k : nat) :
  neverStored CLASSES values (JNumQ (natQ k)) = [].
Proof.
  unfold neverStored.
  destruct (typedArrayLength (lengthLimit values) (JNumQ (natQ k))) as [len|] eqn:E;
    [|reflexivity].
  assert (Hlen : len = k).
  { unfold typedArrayLength, JNumQ in E. simpl toNumber in E. cbv iota beta in E.
    rewrite Qtrunc_natQ in E.
    destruct (_ || _)%bool; [discriminate|].
    injection E as <-. apply Nat2Z.id. }
  rewrite Hlen, loopCount_nat, Nat.sub_diag. reflexivity.
Qed.

(** ** Lists *)

Lemma map_nth_seq {A : Type} (l : list A) (d : A) (k : nat) :
  k <= length l -> map (fun i => nth i l d) (seq 0 k) = firstn k l.
Proof.
  revert k. induction l as [|x l IH]; intros [|k] Hk; simpl in *; try reflexivity; try lia.
  f_equal. rewrite <- seq_shift, map_map. apply IH. lia.
Qed.

Lemma map_guarded_nth_seq {A : Type} (l : list A) (d : A) (k : nat) :
  k <= length l ->
  map (fun i => if i <? k then nth i l d else d) (seq 0 k) = firstn k l.
Proof.
  intros Hk. rewrite <- (map_nth_seq l d k Hk).
  apply map_ext_in. intros i Hi. apply in_seq in Hi.
  destruct (Nat.ltb_spec i k); [reflexivity | lia].
Qed.

Lemma StronglySorted_firstn {A : Type} (R : A -> A -> Prop) (l : list A) (k : nat) :
  StronglySorted R l -> StronglySorted R (firstn k l).
Proof.
  intros H. revert k. induction H as [|x l Hs IH Hx]; intros [|k]; simpl; try constructor.
  - apply IH.
  - rewrite Forall_forall in *. intros y Hy. apply Hx.
    rewrite <- (firstn_skipn k l). apply in_or_app. now left.
Qed.

Lemma StronglySorted_nth {A : Type} (R : A -> A -> Prop) (l : list A) (d : A) :
  StronglySorted R l ->
  forall i j, i < j -> j < length l -> R (nth i l d) (nth j l d).
Proof.
  induction 1 as [|x l Hs IH Hx]; intros i j Hij Hj; simpl in Hj; [lia|].
  destruct j as [|j]; [lia|]. destruct i as [|i]; simpl.
  - rewrite Forall_forall in Hx. apply Hx. apply nth_In. lia.
  - apply IH; lia.
Qed.

(** ** Array.prototype.sort *)

Section ArraySortFacts.
Context {A : Type}.
Variable cmp : A -> A -> Q.

Lemma sort_insert_perm (x : A) (l : list A) :
  Permutation (sort_insert cmp x l) (x :: l).
Proof.
  induction l as [|y l IH]; simpl; [reflexivity|].
  destruct (Qle_bool (cmp x y) 0); [reflexivity|].
  rewrite IH. apply perm_swap.
Qed.

Lemma array_sort_perm (l : list A) : Permutation (array_sort cmp l) l.
Proof.
  induction l as [|x l IH]; simpl; [reflexivity|].
  rewrite sort_insert_perm. now constructor.
Qed.

Lemma array_sort_length (l : list A) : length (array_sort cmp l) = length l.
Proof. apply Permutation_length, array_sort_perm. Qed.
End ArraySortFacts.

(** ** The ranking of getTopKClasses *)

Lemma sort_insert_ranked (x : ValueIndex) (l : list ValueIndex) :
  StronglySorted rankedBefore l ->
  Forall (indexBefore x) l ->
  StronglySorted rankedBefore (sort_insert byValueDesc x l).
Proof.
  intros Hs. induction Hs as [|y l Hs IH Hy]; intros Hx; simpl.
  - repeat constructor.
  - inversion Hx as [|? ? Hxy Hxl]; subst.
    destruct (Qle_bool (byValueDesc x y) 0) eqn:E.
    + apply Qle_bool_iff in E. unfold byValueDesc in E.
      assert (Hyx : (value y <= value x)%Q) by lra.
      constructor; [constructor; assumption|].
      constructor.
      * unfold rankedBefore, indexBefore in *.
        destruct (Qlt_le_dec (value y) (value x)); [now left|right].
        split; [lra | assumption].
      * rewrite Forall_forall in *. intros z Hz.
        specialize (Hy z Hz). specialize (Hxl z Hz).
        unfold rankedBefore, indexBefore in *.
        destruct (Qlt_le_dec (value z) (value x)); [now left|right].
        split; [|assumption]. destruct Hy as [Hy|[Hy _]]; lra.
    + assert (Hlt : (value x < value y)%Q).
      { unfold byValueDesc in E.
        destruct (Qlt_le_dec (value x) (value y)) as [|Hle]; [assumption|].
        assert (Hc : Qle_bool (value y - value x) 0 = true)
          by (apply Qle_bool_iff; lra).
        congruence. }
      constructor; [apply IH; assumption|].
      eapply Permutation_Forall.
      * symmetry. apply sort_insert_perm.
      * constructor; [now left | assumption].
Qed.

Lemma array_sort_ranked (l : list ValueIndex) :
  StronglySorted indexBefore l ->
  StronglySorted rankedBefore (array_sort byValueDesc l).
Proof.
  induction 1 as [|x l Hs IH Hx]; simpl; [constructor|].
  apply sort_insert_ranked; [assumption|].
  eapply Permutation_Forall; [symmetry; apply array_sort_perm | assumption].
Qed.

Lemma valuesAndIndicesFrom_length (i : nat) (values : list Q) :
  length (valuesAndIndicesFrom i values) = length values.
Proof. revert i. induction values; intros; simpl; auto. Qed.

Lemma valuesAndIndicesFrom_lower (i : nat) (values : list Q) :
  Forall (fun vi => i <= index vi) (valuesAndIndicesFrom i values).
Proof.
  revert i. induction values as [|v values IH]; intros i; simpl; constructor.
  - simpl. lia.
  - eapply Forall_impl; [|apply (IH (S i))]. simpl. intros; lia.
Qed.

Lemma valuesAndIndicesFrom_sorted (i : nat) (values : list Q) :
  StronglySorted indexBefore (valuesAndIndicesFrom i values).
Proof.
  revert i. induction values as [|v values IH]; intros i; simpl; constructor.
  - apply IH.
  - eapply Forall_impl; [|apply (valuesAndIndicesFrom_lower (S i))].
    unfold indexBefore. simpl. intros; lia.
Qed.

Lemma rankTopK_nat (values : list Q) (k : nat) :
  k <= length values ->
  rankTopK values (JNumQ (natQ k))
  = Ok (firstn k (array_sort byValueDesc (valuesAndIndices values))).
Proof.
  intros Hk. unfold rankTopK.
  rewrite typedArrayLength_nat by (now apply lengthLimit_length). simpl bind.
  rewrite loopCount_nat. unfold fillTopK.
  rewrite array_sort_length. unfold valuesAndIndices at 1.
  rewrite valuesAndIndicesFrom_length.
  destruct (Nat.leb_spec k (length values)); [|lia].
  rewrite Nat.min_id.
  rewrite map_nth_seq; [reflexivity|].
  rewrite array_sort_length. unfold valuesAndIndices.
  now rewrite valuesAndIndicesFrom_length.
Qed.

Lemma rankTopK_past_end (values : list Q) (k : nat) :
  length values < k -> (Z.of_nat k <= maxIndex)%Z ->
  rankTopK values (JNumQ (natQ k)) = Throw TypeError.
Proof.
  intros Hk Hmax. unfold rankTopK.
  rewrite typedArrayLength_nat by (now apply lengthLimit_maxIndex). simpl bind.
  rewrite loopCount_nat. unfold fillTopK.
  rewrite array_sort_length. unfold valuesAndIndices.
  rewrite valuesAndIndicesFrom_length.
  destruct (Nat.leb_spec k (length values)); [lia|reflexivity].
Qed.

Lemma rankTopK_too_long (values : list Q) (k : nat) :
  length values < k -> (maxIndex < Z.of_nat k)%Z ->
  rankTopK values (JNumQ (natQ k)) = Throw RangeError.
Proof.
  intros Hk Hmax. unfold rankTopK, typedArrayLength, JNumQ. simpl toNumber.
  cbv iota beta. rewrite Qtrunc_natQ.
  replace (lengthLimit values <? Z.of_nat k)%Z with true
    by (symmetry; apply Z.ltb_lt; unfold lengthLimit; lia).
  rewrite orb_true_r. reflexivity.
Qed.

Lemma rankTopK_ranked (values : list Q) (k : nat) :
  StronglySorted rankedBefore
    (firstn k (array_sort byValueDesc (valuesAndIndices values))).
Proof.
  apply StronglySorted_firstn, array_sort_ranked, valuesAndIndicesFrom_sorted.
Qed.

Lemma valuesAndIndicesFrom_genuine (i : nat) (values : list Q) :
  Forall (fun vi => i <= index vi /\
                    nth_error values (index vi - i) = Some (value vi))
         (valuesAndIndicesFrom i values).
Proof.
  revert i. induction values as [|v values IH]; intros i; simpl; constructor.
  - simpl. rewrite Nat.sub_diag. split; [lia | reflexivity].
  - eapply Forall_impl; [|apply (IH (S i))]. simpl. intros vi [Hle Hn].
    split; [lia|]. replace (index vi - i) with (S (index vi - S i)) by lia.
    exact Hn.
Qed.

Lemma firstn_Forall {A : Type} (P : A -> Prop) (l : list A) (k : nat) :
  Forall P l -> Forall P (firstn k l).
Proof.
  rewrite !Forall_forall. intros H x Hx. apply H.
  rewrite <- (firstn_skipn k l). apply in_or_app. now left.
Qed.

Lemma rankTopK_genuine (values : list Q) (k : nat) :
  Forall (fun vi => nth_error values (index vi) = Some (value vi))
    (firstn k (array_sort byValueDesc (valuesAndIndices values))).
Proof.
  apply firstn_Forall.
  eapply Permutation_Forall; [symmetry; apply array_sort_perm|].
  eapply Forall_impl; [|apply (valuesAndIndicesFrom_genuine 0)].
  simpl. intros vi [_ H]. now rewrite Nat.sub_0_r in H.
Qed.

Lemma callIfSet_callable (cb : jsval) (results : list ClassProb) :
  callable_or_unset cb = true -> exists evs, callIfSet cb results = Ok evs.
Proof.
  unfold callIfSet. destruct cb as [| |b|n|p|p|p|f a]; simpl; intros H;
    try (eexists; reflexivity).
  - destruct b; [discriminate | eexists; reflexivity].
  - destruct n as [q|]; simpl in *; [|eexists; reflexivity].
    destruct (Qeq_bool q 0); simpl in *; [eexists; reflexivity | discriminate].
  - discriminate.
  - discriminate.
  - discriminate.
Qed.

Lemma callIfSet_not_callable (cb : jsval) (results : list ClassProb) :
  callable_or_unset cb = false -> callIfSet cb results = Throw TypeError.
Proof.
  unfold callIfSet, callable_or_unset.
  destruct cb as [| |b|n|p|p|p|f a]; simpl; try discriminate; try reflexivity.
  - destruct b; [reflexivity | discriminate].
  - destruct n as [q|]; simpl; [|discriminate].
    destruct (Qeq_bool q 0); simpl; [discriminate | reflexivity].
Qed.

Lemma topClassesAndProbs_sorted (CLASSES : list string) (top : list ValueIndex) :
  StronglySorted rankedBefore top ->
  StronglySorted nonIncreasing (topClassesAndProbs CLASSES top).
Proof.
  induction 1 as [|x l Hs IH Hx]; simpl; constructor; [assumption|].
  rewrite Forall_forall in *. intros cp Hcp.
  apply in_map_iff in Hcp. destruct Hcp as [vi [<- Hvi]].
  specialize (Hx vi Hvi). unfold nonIncreasing, js_ge, rankedBefore in *. simpl.
  destruct Hx as [Hx|[Hx _]]; lra.
Qed.

Example getTopKClasses_sample :
  getTopKClasses sample_classes sample_values (JNumQ 4) JNull
  = Ok ([mkCP (Some "goldfish") (Fin (5 # 10));
         mkCP (Some "tiger shark") (Fin (5 # 10));
         mkCP (Some "tench") (Fin (2 # 10));
         mkCP (Some "great white shark") (Fin (2 # 10))]%string,
        []).
Proof. reflexivity. Qed.

Example getTopKClasses_sample_fraction :
  getTopKClasses sample_classes sample_values (JNumQ (5 # 2)) JNull
  = Ok ([mkCP (Some "goldfish") (Fin (5 # 10));
         mkCP (Some "tiger shark") (Fin (5 # 10))]%string,
        []).
Proof. reflexivity. Qed.

(** A function given as the count, as in [predict(gotResults)]: the two
    typed arrays take the [length] of the function, the loop runs no time,
    and the list pairs the first label with NaN; nothing is ranked. *)
Example getTopKClasses_sample_function :
  getTopKClasses sample_classes sample_values (JFun 7 2) JNull
  = Ok ([mkCP (Some "tench") NaN; mkCP (Some "tench") NaN]%string, []).
Proof. reflexivity. Qed.

(** Which calls of [predict] choose the count: the number-first form
    does, the image-first form leaves [numberOfClasses] undefined and the
    ranking falls back on [topKPredictions]. *)
Example predict_args_count (processVideo : Pixels -> nat -> Pixels)
  (c : ImageClassifier) (p : Pixels) (k : Q) (cb : jsval) :
  predict_args processVideo c (JNumQ k) cb JNull = (c, video c, JNumQ k, cb) /\
  predict_args processVideo c (JImage p) (JNumQ k) cb = (c, JImage p, JUndefined, cb).
Proof. split; reflexivity. Qed.

(** C4 (as amended).  [getTopKClasses] with a whole number [k] for a
    count returns exactly when [k] is at most the number of probabilities
    and the callback is a function or falsy; the list then has
    [min k size = k] entries in non-increasing order of probability.  In
    every other case it throws and nothing is clamped.  With [k] above the
    number of probabilities the error is a TypeError (the read past the end
    of the sorted list) or a RangeError (the typed array is refused), and a
    RangeError for every [k] above 2^53 - 1; with [k] within the number of
    probabilities and a truthy callback that is not a function it is a
    TypeError. *)
Theorem getTopKClasses_length_sorted
  (CLASSES : list string) (values : list Q) (k : nat) (cb : jsval) :
  match getTopKClasses CLASSES values (JNumQ (natQ k)) cb with
  | Ok (results, _) =>
      k <= length values /\
      callable_or_unset cb = true /\
      length results = Nat.min k (length values) /\
      StronglySorted nonIncreasing results
  | Throw e =>
      (length values < k /\
       (e = TypeError \/ e = RangeError) /\
       ((maxIndex < Z.of_nat k)%Z -> e = RangeError)) \/
      (k <= length values /\ callable_or_unset cb = false /\ e = TypeError)
  end.
Proof.
  unfold getTopKClasses.
  destruct (Nat.le_gt_cases k (length values)) as [Hk|Hk].
  - rewrite (rankTopK_nat values k Hk). cbn [bind]. cbv zeta.
    rewrite neverStored_nat, app_nil_r.
    destruct (callable_or_unset cb) eqn:Hcb.
    + destruct (callIfSet_callable cb
                  (topClassesAndProbs CLASSES
                     (firstn k (array_sort byValueDesc (valuesAndIndices values)))) Hcb)
        as [evs ->].
      simpl. split; [assumption|]. split; [reflexivity|]. split.
      * unfold topClassesAndProbs. rewrite length_map, firstn_length_le.
        -- now rewrite Nat.min_l.
        -- rewrite array_sort_length. unfold valuesAndIndices.
           now rewrite valuesAndIndicesFrom_length.
      * apply topClassesAndProbs_sorted, rankTopK_ranked.
    + rewrite (callIfSet_not_callable cb _ Hcb). simpl.
      right. split; [assumption|]. split; reflexivity.
  - destruct (Z.le_gt_cases (Z.of_nat k) maxIndex) as [Hmax|Hmax].
    + rewrite (rankTopK_past_end values k Hk Hmax). simpl.
      left. split; [assumption|]. split; [now left|]. intros H. lia.
    + rewrite (rankTopK_too_long values k Hk Hmax). simpl.
      left. split; [assumption|]. split; [now right|]. reflexivity.
Qed.

(** C4 (as stated) fails: with two probabilities and [k = 3] the claim
    promises a list of [min 3 2 = 2] entries, and the call throws. *)
Lemma getTopKClasses_no_clamp :
  getTopKClasses ["tench"; "goldfish"]%string [6 # 10; 4 # 10]%Q (JNumQ 3) JNull
  = Throw TypeError /\
  ~ (exists results evs,
       getTopKClasses ["tench"; "goldfish"]%string [6 # 10; 4 # 10]%Q (JNumQ 3) JNull
       = Ok (results, evs) /\
       length results = Nat.min 3 (length [6 # 10; 4 # 10]%Q)).
Proof.
  split; [reflexivity|].
  intros [results [evs [H _]]]. vm_compute in H. discriminate.
Qed.

(** C5.  In the ranking kept by [getTopKClasses] each entry is a
    probability with its own class index, and two entries of the same
    probability come out in ascending order of class index; the returned
    list is this ranking with each index replaced by its label. *)
Theorem getTopKClasses_ties_by_index
  (CLASSES : list string) (values : list Q) (k : nat) :
  k <= length values ->
  exists top,
    rankTopK values (JNumQ (natQ k)) = Ok top /\
    length top = k /\
    Forall (fun vi => nth_error values (index vi) = Some (value vi)) top /\
    (forall i j, i < j -> j < k ->
       (value (nth i top (mkVI 0 0)) == value (nth j top (mkVI 0 0)))%Q ->
       index (nth i top (mkVI 0 0)) < index (nth j top (mkVI 0 0))) /\
    (forall cb results evs,
       getTopKClasses CLASSES values (JNumQ (natQ k)) cb = Ok (results, evs) ->
       results = topClassesAndProbs CLASSES top).
Proof.
  intros Hk.
  exists (firstn k (array_sort byValueDesc (valuesAndIndices values))).
  assert (Hlen : length (firstn k (array_sort byValueDesc (valuesAndIndices values))) = k).
  { rewrite firstn_length_le; [reflexivity|].
    rewrite array_sort_length. unfold valuesAndIndices.
    now rewrite valuesAndIndicesFrom_length. }
  split; [apply rankTopK_nat; assumption|].
  split; [assumption|].
  split; [apply rankTopK_genuine|].
  split.
  - intros i j Hij Hj Heq.
    pose proof (StronglySorted_nth rankedBefore _ (mkVI 0 0)
                  (rankTopK_ranked values k) i j Hij) as H.
    rewrite Hlen in H. specialize (H Hj).
    destruct H as [H|[_ H]]; [lra | assumption].
  - intros cb results evs H. unfold getTopKClasses in H.
    rewrite (rankTopK_nat values k Hk) in H. cbn [bind] in H. cbv zeta in H.
    rewrite neverStored_nat, app_nil_r in H.
    destruct (callIfSet cb _); simpl in H; [|discriminate].
    now inversion H.
Qed.

Lemma getTopKClasses_ties_by_index_witness :
  4 <= length sample_values /\
  exists top,
    rankTopK sample_values (JNumQ (natQ 4)) = Ok top /\
    length top = 4 /\
    Forall (fun vi => nth_error sample_values (index vi) = Some (value vi)) top /\
    (forall i j, i < j -> j < 4 ->
       (value (nth i top (mkVI 0 0)) == value (nth j top (mkVI 0 0)))%Q ->
       index (nth i top (mkVI 0 0)) < index (nth j top (mkVI 0 0))) /\
    (forall cb results evs,
       getTopKClasses sample_classes sample_values (JNumQ (natQ 4)) cb
       = Ok (results, evs) ->
       results = topClassesAndProbs sample_classes top).
Proof.
  split; [simpl; lia|].
  apply (getTopKClasses_ties_by_index sample_classes sample_values 4).
  simpl; lia.
Defined.

(** ** The constructor *)

Example construct_numClasses_zero :
  numClasses (self (construct same_frames JUndefined
                      (mkOptions JUndefined JUndefined JUndefined (JNumQ 0) JUndefined)
                      JUndefined))
  = JNumQ 2.
Proof. reflexivity. Qed.

Example construct_numClasses_five :
  numClasses (self (construct same_frames JUndefined
                      (mkOptions JUndefined JUndefined JUndefined (JNumQ 5) JUndefined)
                      JUndefined))
  = JNumQ 5.
Proof. reflexivity. Qed.

Lemma construct_fields (processVideo : Pixels -> nat -> Pixels)
  (video0 : jsval) (options : Options) (callback0 : jsval) :
  let c := self (construct processVideo video0 options callback0) in
  epochs c = js_or (o_epochs options) DEFAULTS.epochs /\
  hiddenUnits c = js_or (o_hiddenUnits options) DEFAULTS.hiddenUnits /\
  numClasses c = js_or (o_numClasses options) DEFAULTS.numClasses /\
  learningRate c = js_or (o_learningRate options) DEFAULTS.learningRate /\
  batchSize c = js_or (o_batchSize options) DEFAULTS.batchSize.
Proof.
  unfold construct. destruct video0; simpl; repeat split; reflexivity.
Qed.

(** C10.  An option that is present but falsy (0, NaN, false, null) is
    replaced by the built-in default, for each of the five options; with
    [numClasses: 0] the instance has [numClasses] 2. *)
Theorem constructor_falsy_option_uses_default
  (processVideo : Pixels -> nat -> Pixels)
  (video0 : jsval) (options : Options) (callback0 : jsval) :
  let c := self (construct processVideo video0 options callback0) in
  (truthy (o_epochs options) = false -> epochs c = JNumQ 20) /\
  (truthy (o_hiddenUnits options) = false -> hiddenUnits c = JNumQ 100) /\
  (truthy (o_numClasses options) = false -> numClasses c = JNumQ 2) /\
  (truthy (o_learningRate options) = false -> learningRate c = JNumQ (1 # 10000)) /\
  (truthy (o_batchSize options) = false -> batchSize c = JNumQ (4 # 10)) /\
  (o_numClasses options = JNumQ 0 -> numClasses c = JNumQ 2).
Proof.
  intros c.
  destruct (construct_fields processVideo video0 options callback0)
    as (He & Hh & Hn & Hl & Hb).
  fold c in He, Hh, Hn, Hl, Hb.
  split; [|split; [|split; [|split; [|split]]]]; intros H.
  - rewrite He. unfold js_or. now rewrite H.
  - rewrite Hh. unfold js_or. now rewrite H.
  - rewrite Hn. unfold js_or. now rewrite H.
  - rewrite Hl. unfold js_or. now rewrite H.
  - rewrite Hb. unfold js_or. now rewrite H.
  - rewrite Hn, H. reflexivity.
Qed.

Lemma constructor_falsy_option_uses_default_witness :
  let options := mkOptions (JNum NaN) (JBool false) JNull (JNumQ 0) (JNumQ 0) in
  let c := self (construct same_frames JUndefined options JUndefined) in
  epochs c = JNumQ 20 /\
  hiddenUnits c = JNumQ 100 /\
  numClasses c = JNumQ 2 /\
  learningRate c = JNumQ (1 # 10000) /\
  batchSize c = JNumQ (4 # 10).
Proof.
  intros options c.
  destruct (constructor_falsy_option_uses_default same_frames JUndefined options JUndefined)
    as (He & Hh & Hn & Hl & Hb & _).
  exact (conj (He eq_refl) (conj (Hh eq_refl) (conj (Hn eq_refl)
           (conj (Hl eq_refl) (Hb eq_refl))))).
Defined.

(** ** Doubles *)

Section Doubles.
Local Open Scope Q_scope.

Lemma roundHalfEven_near (q : Q) :
  (Qfloor q <= roundHalfEven q <= Qfloor q + 1)%Z.
Proof.
  unfold roundHalfEven. cbv zeta.
  destruct (Qcompare _ _); [destruct (Z.even _)| |]; lia.
Qed.

Lemma roundHalfEven_monotone (x y : Q) :
  x <= y -> (roundHalfEven x <= roundHalfEven y)%Z.
Proof.
  intros Hxy.
  pose proof (Qfloor_resp_le x y Hxy) as Hf.
  pose proof (roundHalfEven_near x) as Hx.
  pose proof (roundHalfEven_near y) as Hy.
  destruct (Z.eq_dec (Qfloor x) (Qfloor y)) as [He|Hne]; [|lia].
  unfold roundHalfEven in *. cbv zeta in *. rewrite He in *.
  destruct (Qcompare (x - inject_Z (Qfloor y)) (1 # 2)) eqn:Cx;
    destruct (Qcompare (y - inject_Z (Qfloor y)) (1 # 2)) eqn:Cy;
    try lia; try (destruct (Z.even (Qfloor y)); lia).
  - (* x tie, y below *) apply Qeq_alt in Cx. apply Qlt_alt in Cy. exfalso. lra.
  - (* x above, y tie *) apply Qgt_alt in Cx. apply Qeq_alt in Cy. exfalso. lra.
  - apply Qgt_alt in Cx. apply Qlt_alt in Cy. exfalso. lra.
Qed.

Lemma two_neq_0 : ~ 2 == 0.
Proof. intros H. discriminate H. Qed.

Lemma pow2_pos (e : Z) : 0 < 2 ^ e.
Proof. apply Qpower_0_lt. reflexivity. Qed.

Lemma Qlog2_spec (q : Q) :
  0 < q -> 2 ^ Qlog2 q <= q /\ q < 2 ^ (Qlog2 q + 1).
Proof.
  intros Hq. destruct q as [a b].
  assert (Ha : (0 < a)%Z) by (unfold Qlt in Hq; simpl in Hq; lia).
  unfold Qlog2. cbn [Qnum Qden].
  set (la := Z.log2 a). set (lb := Z.log2 (Z.pos b)).
  destruct (Z.log2_spec a Ha) as [Ha1 Ha2]. fold la in Ha1, Ha2.
  destruct (Z.log2_spec (Z.pos b) (Pos2Z.is_pos b)) as [Hb1 Hb2]. fold lb in Hb1, Hb2.
  assert (Hla : (0 <= la)%Z) by apply Z.log2_nonneg.
  assert (Hlb : (0 <= lb)%Z) by apply Z.log2_nonneg.
  assert (Hq' : a # b == inject_Z a / inject_Z (Z.pos b)) by apply Qmake_Qdiv.
  assert (Hbpos : 0 < inject_Z (Z.pos b)).
  { change 0 with (inject_Z 0). rewrite <- Zlt_Qlt. lia. }
  (* bounds of numerator and denominator as powers in Q *)
  assert (A1 : 2 ^ la <= inject_Z a).
  { change 2 with (inject_Z 2). rewrite <- Zpower_Qpower by assumption.
    rewrite <- Zle_Qle. assumption. }
  assert (A2 : inject_Z a < 2 ^ (la + 1)).
  { change 2 with (inject_Z 2). rewrite <- Zpower_Qpower by lia.
    rewrite <- Zlt_Qlt. unfold Z.succ in Ha2. assumption. }
  assert (B1 : 2 ^ lb <= inject_Z (Z.pos b)).
  { change 2 with (inject_Z 2). rewrite <- Zpower_Qpower by assumption.
    rewrite <- Zle_Qle. assumption. }
  assert (B2 : inject_Z (Z.pos b) < 2 ^ (lb + 1)).
  { change 2 with (inject_Z 2). rewrite <- Zpower_Qpower by lia.
    rewrite <- Zlt_Qlt. unfold Z.succ in Hb2. assumption. }
  (* q * b = a *)
  assert (Hmul : (a # b) * inject_Z (Z.pos b) == inject_Z a).
  { rewrite Hq'. field. intros H. rewrite H in Hbpos. apply (Qlt_irrefl 0). assumption. }
  assert (U : a # b < 2 ^ (la - lb + 1)).
  { (* a < 2^(la+1) = 2^(la-lb+1) * 2^lb <= 2^(la-lb+1) * b *)
    assert (E : 2 ^ (la + 1) == 2 ^ (la - lb + 1) * 2 ^ lb).
    { rewrite <- Qpower_plus by apply two_neq_0. f_equiv. lia. }
    pose proof (pow2_pos (la - lb + 1)) as P.
    apply Qnot_le_lt. intros Hc.
    assert (H1 : 2 ^ (la - lb + 1) * inject_Z (Z.pos b) <= (a # b) * inject_Z (Z.pos b)).
    { apply Qmult_le_compat_r; [assumption | now apply Qlt_le_weak]. }
    assert (H2 : 2 ^ (la - lb + 1) * 2 ^ lb <= 2 ^ (la - lb + 1) * inject_Z (Z.pos b)).
    { rewrite !(Qmult_comm (2 ^ (la - lb + 1))).
      apply Qmult_le_compat_r; [assumption | now apply Qlt_le_weak]. }
    rewrite Hmul in H1. rewrite <- E in H2. lra. }
  assert (L : 2 ^ (la - lb - 1) < a # b).
  { assert (E : 2 ^ la == 2 ^ (la - lb - 1) * 2 ^ (lb + 1)).
    { rewrite <- Qpower_plus by apply two_neq_0. f_equiv. lia. }
    pose proof (pow2_pos (la - lb - 1)) as P.
    apply Qnot_le_lt. intros Hc.
    assert (H1 : (a # b) * inject_Z (Z.pos b) <= 2 ^ (la - lb - 1) * inject_Z (Z.pos b)).
    { apply Qmult_le_compat_r; [assumption | now apply Qlt_le_weak]. }
    assert (H2 : 2 ^ (la - lb - 1) * inject_Z (Z.pos b) < 2 ^ (la - lb - 1) * 2 ^ (lb + 1)).
    { rewrite !(Qmult_comm (2 ^ (la - lb - 1))).
      apply Qmult_lt_compat_r; assumption. }
    rewrite Hmul in H1. rewrite <- E in H2. lra. }
  destruct (Qle_bool (2 ^ (la - lb)) (a # b)) eqn:E.
  - apply Qle_bool_iff in E. split; assumption.
  - split.
    + now apply Qlt_le_weak.
    + replace (la - lb - 1 + 1)%Z with (la - lb)%Z by lia.
      apply Qnot_le_lt. intros Hc. apply Qle_bool_iff in Hc. congruence.
Qed.

Lemma Qlog2_monotone (x y : Q) : 0 < x -> x <= y -> (Qlog2 x <= Qlog2 y)%Z.
Proof.
  intros Hx Hxy.
  destruct (Qlog2_spec x Hx) as [X1 _].
  destruct (Qlog2_spec y) as [_ Y2]; [lra|].
  assert (H : 2 ^ Qlog2 x < 2 ^ (Qlog2 y + 1)) by lra.
  apply Qpower_lt_compat_l_inv in H; [lia | reflexivity].
Qed.

(** The significand of a positive number lies in [2^52, 2^53). *)
Lemma significand_range (q : Q) :
  0 < q ->
  inject_Z (2 ^ 52) <= q / 2 ^ (Qlog2 q - 52) /\
  q / 2 ^ (Qlog2 q - 52) < inject_Z (2 ^ 53).
Proof.
  intros Hq. destruct (Qlog2_spec q Hq) as [L U].
  set (l := Qlog2 q) in *.
  pose proof (pow2_pos (l - 52)) as P.
  assert (E1 : 2 ^ l == inject_Z (2 ^ 52) * 2 ^ (l - 52)).
  { rewrite Zpower_Qpower by lia. change (inject_Z 2) with 2.
    rewrite <- Qpower_plus by apply two_neq_0. f_equiv. lia. }
  assert (E2 : 2 ^ (l + 1) == inject_Z (2 ^ 53) * 2 ^ (l - 52)).
  { rewrite Zpower_Qpower by lia. change (inject_Z 2) with 2.
    rewrite <- Qpower_plus by apply two_neq_0. f_equiv. lia. }
  split.
  - apply Qle_shift_div_l; [assumption|]. rewrite <- E1. assumption.
  - apply Qlt_shift_div_r; [assumption|]. rewrite <- E2. assumption.
Qed.

Lemma roundPositive_range (q : Q) :
  0 < q ->
  2 ^ Qlog2 q <= roundPositive q /\ roundPositive q <= 2 ^ (Qlog2 q + 1).
Proof.
  intros Hq. destruct (significand_range q Hq) as [L U].
  unfold roundPositive. cbv zeta.
  set (l := Qlog2 q) in *. set (m := q / 2 ^ (l - 52)) in *.
  pose proof (pow2_pos (l - 52)) as P.
  pose proof (roundHalfEven_near m) as Hn.
  pose proof (Qfloor_resp_le _ _ L) as FL. rewrite Qfloor_Z in FL.
  assert (FU : (Qfloor m < 2 ^ 53)%Z).
  { apply Z.lt_nge. intros Hc.
    assert (H : inject_Z (2 ^ 53) <= inject_Z (Qfloor m)) by (rewrite <- Zle_Qle; assumption).
    pose proof (Qfloor_le m). lra. }
  assert (E1 : 2 ^ l == inject_Z (2 ^ 52) * 2 ^ (l - 52)).
  { rewrite Zpower_Qpower by lia. change (inject_Z 2) with 2.
    rewrite <- Qpower_plus by apply two_neq_0. f_equiv. lia. }
  assert (E2 : 2 ^ (l + 1) == inject_Z (2 ^ 53) * 2 ^ (l - 52)).
  { rewrite Zpower_Qpower by lia. change (inject_Z 2) with 2.
    rewrite <- Qpower_plus by apply two_neq_0. f_equiv. lia. }
  rewrite E1, E2. split; apply Qmult_le_compat_r; try (now apply Qlt_le_weak);
    rewrite <- Zle_Qle; lia.
Qed.

Lemma roundPositive_monotone (x y : Q) :
  0 < x -> x <= y -> roundPositive x <= roundPositive y.
Proof.
  intros Hx Hxy.
  assert (Hy : 0 < y) by lra.
  pose proof (Qlog2_monotone x y Hx Hxy) as Hl.
  destruct (Z.eq_dec (Qlog2 x) (Qlog2 y)) as [He|Hne].
  - unfold roundPositive. cbv zeta. rewrite He.
    pose proof (pow2_pos (Qlog2 y - 52)) as P.
    apply Qmult_le_compat_r; [|now apply Qlt_le_weak].
    rewrite <- Zle_Qle. apply roundHalfEven_monotone.
    apply Qmult_le_compat_r; [assumption|].
    apply Qlt_le_weak, Qinv_lt_0_compat. assumption.
  - destruct (roundPositive_range x Hx) as [_ U].
    destruct (roundPositive_range y Hy) as [L _].
    assert (H : 2 ^ (Qlog2 x + 1) <= 2 ^ Qlog2 y).
    { apply Qpower_le_compat_l; [lia | discriminate]. }
    lra.
Qed.

Lemma roundPositive_pos (q : Q) : 0 < q -> 0 < roundPositive q.
Proof.
  intros Hq. destruct (roundPositive_range q Hq) as [L _].
  pose proof (pow2_pos (Qlog2 q)). lra.
Qed.

Lemma roundDouble_monotone (x y : Q) : x <= y -> roundDouble x <= roundDouble y.
Proof.
  intros Hxy. unfold roundDouble.
  destruct (Qcompare_spec x 0) as [Cx|Cx|Cx];
    destruct (Qcompare_spec y 0) as [Cy|Cy|Cy]; try lra.
  - pose proof (roundPositive_pos y Cy). lra.
  - assert (H : 0 < - x) by lra. pose proof (roundPositive_pos _ H). lra.
  - assert (H : 0 < - y) by lra.
    assert (H' : - y <= - x) by lra.
    pose proof (roundPositive_monotone _ _ H H'). lra.
  - assert (H : 0 < - x) by lra. pose proof (roundPositive_pos _ H).
    pose proof (roundPositive_pos y Cy). lra.
  - now apply roundPositive_monotone.
Qed.

(** A whole number below 2^53 is a double. *)
Lemma roundHalfEven_Z (z : Z) : roundHalfEven (inject_Z z) = z.
Proof.
  unfold roundHalfEven. cbv zeta. rewrite Qfloor_Z.
  destruct (Qcompare_spec (inject_Z z - inject_Z z) (1 # 2)) as [C|C|C];
    try reflexivity; exfalso; lra.
Qed.

End Doubles.

Lemma roundDouble_zero : roundDouble 0 = 0%Q.
Proof. reflexivity. Qed.

Lemma roundDouble_nonneg (q : Q) : (0 <= q)%Q -> (0 <= roundDouble q)%Q.
Proof.
  intros H. rewrite <- roundDouble_zero. now apply roundDouble_monotone.
Qed.

Lemma roundDouble_nonpos (q : Q) : (q <= 0)%Q -> (roundDouble q <= 0)%Q.
Proof.
  intros H. rewrite <- roundDouble_zero. now apply roundDouble_monotone.
Qed.

(** The products of the source's example and of two fractions that are
    not doubles: [3 * 0.3333333333333333] is 1 and [49 * (1 / 49)] is the
    double below 1, where the rational products are below 1 and 1;
    [100 * 0.57] is below 57. *)
Example doubleProduct_samples :
  Qfloor (doubleProduct 1 (4 # 10)) = 0%Z /\
  Qfloor (doubleProduct 10 (4 # 10)) = 4%Z /\
  Qfloor (doubleProduct 3 (3333333333333333 # 10000000000000000)) = 1%Z /\
  Qfloor (doubleProduct 100 (57 # 100)) = 56%Z /\
  Qfloor (doubleProduct 49 (1 # 49)) = 0%Z /\
  (roundDouble (4 # 10) == 3602879701896397 # 9007199254740992)%Q.
Proof. vm_compute. repeat split; reflexivity. Qed.

(** On these pairs [doubleProduct] is the product the machine computes on
    binary64 numbers: the fractions of [doubleProduct_samples], a negative
    factor, a product far from 1, and two products that fall half way
    between two doubles (they go to the even one). *)
Example doubleProduct_machine :
  forallb (fun xy => sameNumber (machineProduct (fst xy) (snd xy))
                       (doubleProduct (fst xy) (snd xy)))
    [(1, 4 # 10); (10, 4 # 10); (3, 3333333333333333 # 10000000000000000);
     (100, 57 # 100); (49, 1 # 49); (7, - (3 # 10)); (1000000, 1 # 3);
     (123456789, 1 # 1000); (3, 1 # 10); (0, 4 # 10);
     (4503599627370497, 3 # 2); (4503599627370499, 3 # 2);
     (- (1 # 3), - (1 # 7)); (1 # 1048576, 1 # 3)]%Q
  = true.
Proof. vm_compute. reflexivity. Qed.

(** ** train *)

Lemma js_gt0_floor (q : Q) :
  js_gt0 (js_floor (Fin q)) = (0 <? Qfloor q)%Z.
Proof.
  simpl. destruct (Z.ltb_spec 0 (Qfloor q)) as [H|H].
  - apply negb_true_iff. apply not_true_is_false. intros Hc.
    apply Qle_bool_iff in Hc. unfold Qle in Hc. simpl in Hc. lia.
  - apply negb_false_iff. apply Qle_bool_iff. unfold Qle. simpl. lia.
Qed.

Lemma train_with_examples (c : ImageClassifier) (onProgress : jsval)
  (x : Tensor) (n : nat) (rest : list nat) (f : Q) :
  hasAnyTrainedClass c = true ->
  xs c = Some x ->
  shape x = n :: rest ->
  batchSize c = JNumQ f ->
  train c onProgress =
    let c2 := set_customModel
                (Some (mkSequential (hiddenUnits c) (numClasses c) (learningRate c) None))
                (set_isPredicting false c) in
    if (0 <? Qfloor (doubleProduct (natQ n) f))%Z
    then (set_customModel
            (Some (mkSequential (hiddenUnits c) (numClasses c) (learningRate c)
                     (Some (mkFit (xs c) (ys c) (Qfloor (doubleProduct (natQ n) f))
                              (epochs c) onProgress)))) c2, Ok tt)
    else (c2, Throw (Error "Batch size is 0 or NaN. Please choose a non-zero fraction.")).
Proof.
  intros Hany Hxs Hshape Hbatch. unfold train. rewrite Hany. simpl negb. cbv iota.
  cbn [xs set_customModel set_isPredicting batchSize].
  rewrite Hxs, Hshape, Hbatch.
  unfold JNumQ. cbn [toNumber js_mul].
  rewrite js_gt0_floor.
  destruct (0 <? Qfloor (doubleProduct (natQ n) f))%Z; cbn [negb].
  - cbn [js_floor numberToZ]. rewrite Qfloor_Z. reflexivity.
  - reflexivity.
Qed.

Example sample_world_one_row :
  option_map shape (xs (self (sample_world 1))) = Some (1 :: embeddingShape) /\
  hasAnyTrainedClass (self (sample_world 1)) = true /\
  log (sample_world 1) = [Called noop; Called noop].
Proof. vm_compute. repeat split; reflexivity. Qed.

(** C6.  A classifier built without a [batchSize] option has the fraction
    0.4.  With a dataset of [n] rows and a fraction [f], [train] computes
    [floor(n * f)], where the product is the product of two doubles: it
    throws when that is 0 (or less) and otherwise hands it to [fit] as the
    batch size.  With 1 row and 0.4 it throws; with 10 rows and 0.4 the
    batch size is 4.  The rounding of the product counts: with 3 rows and
    0.3333333333333333 the batch size is 1, and with 100 rows and 0.57 it
    is 56. *)
Theorem train_batch_size_floor
  (processVideo : Pixels -> nat -> Pixels) (video0 callback0 : jsval)
  (c : ImageClassifier) (onProgress : jsval) (n : nat) (rest : list nat) :
  hasAnyTrainedClass c = true ->
  option_map shape (xs c) = Some (n :: rest) ->
  batchSize (self (construct processVideo video0 noOptions callback0)) = JNumQ (4 # 10) /\
  (forall f, batchSize c = JNumQ f ->
     (Qabs (doubleProduct (natQ n) f) < 2 ^ 1024)%Q ->
     match train c onProgress with
     | (c', Ok _) =>
         (0 < Qfloor (doubleProduct (natQ n) f))%Z /\
         fittedBatchSize c' = Some (Qfloor (doubleProduct (natQ n) f))
     | (_, Throw e) =>
         (Qfloor (doubleProduct (natQ n) f) <= 0)%Z /\
         e = Error "Batch size is 0 or NaN. Please choose a non-zero fraction."
     end) /\
  (n = 1 -> batchSize c = JNumQ (4 # 10) ->
     snd (train c onProgress)
     = Throw (Error "Batch size is 0 or NaN. Please choose a non-zero fraction.")) /\
  (n = 10 -> batchSize c = JNumQ (4 # 10) ->
     snd (train c onProgress) = Ok tt /\
     fittedBatchSize (fst (train c onProgress)) = Some 4%Z) /\
  (n = 3 -> batchSize c = JNumQ (3333333333333333 # 10000000000000000) ->
     snd (train c onProgress) = Ok tt /\
     fittedBatchSize (fst (train c onProgress)) = Some 1%Z) /\
  (n = 100 -> batchSize c = JNumQ (57 # 100) ->
     snd (train c onProgress) = Ok tt /\
     fittedBatchSize (fst (train c onProgress)) = Some 56%Z).
Proof.
  intros Hany Hshape.
  destruct (xs c) as [x|] eqn:Hxs; [|discriminate].
  simpl in Hshape. injection Hshape as Hshape.
  split; [unfold construct; destruct video0; reflexivity|].
  split; [|split; [|split; [|split]]].
  - intros f Hf _.
    rewrite (train_with_examples c onProgress x n rest f Hany Hxs Hshape Hf).
    cbv zeta.
    destruct (Z.ltb_spec 0 (Qfloor (doubleProduct (natQ n) f))) as [H|H].
    + split; [assumption | reflexivity].
    + split; [assumption | reflexivity].
  - intros -> Hf.
    rewrite (train_with_examples c onProgress x 1 rest _ Hany Hxs Hshape Hf).
    reflexivity.
  - intros -> Hf.
    rewrite (train_with_examples c onProgress x 10 rest _ Hany Hxs Hshape Hf).
    split; reflexivity.
  - intros -> Hf.
    rewrite (train_with_examples c onProgress x 3 rest _ Hany Hxs Hshape Hf).
    split; reflexivity.
  - intros -> Hf.
    rewrite (train_with_examples c onProgress x 100 rest _ Hany Hxs Hshape Hf).
    split; reflexivity.
Qed.

Lemma train_batch_size_floor_witness :
  hasAnyTrainedClass (self (sample_world 10)) = true /\
  option_map shape (xs (self (sample_world 10))) = Some (10 :: embeddingShape) /\
  batchSize (self (sample_world 10)) = JNumQ (4 # 10) /\
  snd (train (self (sample_world 10)) noop) = Ok tt /\
  fittedBatchSize (fst (train (self (sample_world 10)) noop)) = Some 4%Z.
Proof.
  assert (Hany : hasAnyTrainedClass (self (sample_world 10)) = true)
    by (vm_compute; reflexivity).
  assert (Hxs : option_map shape (xs (self (sample_world 10)))
                = Some (10 :: embeddingShape))
    by (vm_compute; reflexivity).
  assert (Hb : batchSize (self (sample_world 10)) = JNumQ (4 # 10))
    by (vm_compute; reflexivity).
  refine (conj Hany (conj Hxs (conj Hb _))).
  exact (proj1 (proj2 (proj2 (proj2
           (train_batch_size_floor same_frames JUndefined JUndefined
              (self (sample_world 10)) noop 10 embeddingShape Hany Hxs))))
           eq_refl Hb).
Defined.

(** ** Tensors *)

Lemma flat_map_ext_in {A B : Type} (f g : A -> list B) (l : list A) :
  (forall x, In x l -> f x = g x) -> flat_map f l = flat_map g l.
Proof.
  induction l as [|x l IH]; intros H; simpl; [reflexivity|].
  rewrite (H x (or_introl eq_refl)), IH; [reflexivity|].
  intros y Hy. apply H. now right.
Qed.

Lemma map_flat_map_seq {A B C : Type} (g : B -> C) (h : A -> list B) (l : list A) :
  map g (flat_map h l) = flat_map (fun x => map g (h x)) l.
Proof.
  induction l as [|x l IH]; simpl; [reflexivity|]. now rewrite map_app, IH.
Qed.

Lemma nth_flat_map_uniform {A : Type} (g : nat -> list A) (m : nat) (d : A) :
  forall n s i j,
    (forall k, length (g k) = m) ->
    i < n -> j < m ->
    nth (i * m + j) (flat_map g (seq s n)) d = nth j (g (s + i)) d.
Proof.
  induction n as [|n IH]; intros s i j Hlen Hi Hj; [lia|].
  simpl. destruct i as [|i].
  - simpl. rewrite Nat.add_0_r. apply app_nth1. now rewrite Hlen.
  - rewrite app_nth2; rewrite Hlen; [|simpl; lia].
    replace (S i * m + j - m) with (i * m + j) by (simpl; lia).
    rewrite IH; [|assumption|lia|assumption].
    f_equal. f_equal. lia.
Qed.

Lemma length_flat_map_uniform {A : Type} (g : nat -> list A) (m : nat) :
  forall n s, (forall k, length (g k) = m) -> length (flat_map g (seq s n)) = n * m.
Proof.
  induction n as [|n IH]; intros s Hlen; simpl; [reflexivity|].
  now rewrite length_app, Hlen, IH.
Qed.

Lemma nth_tabulate3 (d0 d1 d2 : nat) (f : nat -> nat -> nat -> Q) (i j c : nat) (d : Q) :
  i < d0 -> j < d1 -> c < d2 ->
  nth (offset3 d1 d2 i j c) (tabulate3 d0 d1 d2 f) d = f i j c.
Proof.
  intros Hi Hj Hc. unfold offset3, tabulate3.
  replace ((i * d1 + j) * d2 + c) with (i * (d1 * d2) + (j * d2 + c)) by lia.
  rewrite (nth_flat_map_uniform _ (d1 * d2)); [| |assumption|nia].
  - simpl. rewrite (nth_flat_map_uniform _ d2); [| |assumption|assumption].
    + simpl. rewrite (nth_indep _ d (f i j 0));
        [|now rewrite length_map, length_seq].
      rewrite (map_nth (fun c0 => f i j c0) (seq 0 d2) 0 c).
      now rewrite seq_nth.
    + intros k. now rewrite length_map, length_seq.
  - intros k. apply length_flat_map_uniform.
    intros k'. now rewrite length_map, length_seq.
Qed.

Lemma map_tabulate3 (g : Q -> Q) (d0 d1 d2 : nat) (f : nat -> nat -> nat -> Q) :
  map g (tabulate3 d0 d1 d2 f) = tabulate3 d0 d1 d2 (fun i j c => g (f i j c)).
Proof.
  unfold tabulate3. rewrite map_flat_map_seq.
  apply flat_map_ext. intros i. rewrite map_flat_map_seq.
  apply flat_map_ext. intros j. apply map_map.
Qed.

Lemma tabulate3_ext (d0 d1 d2 : nat) (f g : nat -> nat -> nat -> Q) :
  (forall i j c, i < d0 -> j < d1 -> c < d2 -> f i j c = g i j c) ->
  tabulate3 d0 d1 d2 f = tabulate3 d0 d1 d2 g.
Proof.
  intros H. unfold tabulate3.
  apply flat_map_ext_in. intros i Hi. apply in_seq in Hi.
  apply flat_map_ext_in. intros j Hj. apply in_seq in Hj.
  apply map_ext_in. intros c Hc. apply in_seq in Hc.
  apply H; lia.
Qed.

Lemma fromPixels_element (input : jsval) (t : Tensor) :
  fromPixels input = Ok t ->
  exists p, (input = JImage p \/ input = JVideo p \/ input = JCanvas p) /\
            t = mkTensor [pheight p; pwidth p; 3]
                  (tabulate3 (pheight p) (pwidth p) 3
                     (fun i j c => inject_Z (rgb p i j c))).
Proof.
  destruct input; simpl; intros H; try discriminate;
    inversion H; eexists; split; eauto.
Qed.

Lemma slice3_shape (t t' : Tensor) (b0 b1 b2 : Q) (s0 s1 s2 : nat) :
  slice3 t b0 b1 b2 s0 s1 s2 = Ok t' -> shape t' = [s0; s1; s2].
Proof.
  unfold slice3.
  destruct (shape t) as [|d0 [|d1 [|d2 [|? ?]]]]; try discriminate.
  destruct (asIndex b0), (asIndex b1), (asIndex b2); try discriminate.
  destruct (_ && _)%bool; [|discriminate].
  intros H. now inversion H.
Qed.

(** The tensor of [imgToTensor] has one row and a square image of the
    crop size: nothing resizes it. *)
Lemma imgToTensor_shape (input : jsval) (t : Tensor) :
  imgToTensor input = Ok t ->
  exists p, (input = JImage p \/ input = JVideo p \/ input = JCanvas p) /\
            shape t = [1; Nat.min (pheight p) (pwidth p);
                       Nat.min (pheight p) (pwidth p); 3].
Proof.
  unfold imgToTensor. destruct (fromPixels input) as [img|] eqn:Himg; [|discriminate].
  simpl bind. destruct (fromPixels_element _ _ Himg) as [p [Hp ->]].
  unfold cropImage.
  destruct (slice3 _ _ _ _ _ _ _) as [cropped|] eqn:Hc; [|discriminate].
  simpl. intros H. inversion H. subst t. simpl.
  exists p. split; [assumption|].
  rewrite (slice3_shape _ _ _ _ _ _ _ _ Hc). reflexivity.
Qed.

Lemma natQ_half_difference (a s k : nat) :
  a = s + 2 * k -> (natQ a / 2 - natQ s / 2 == natQ k)%Q.
Proof.
  intros ->. unfold natQ.
  rewrite Nat2Z.inj_add, Nat2Z.inj_mul, inject_Z_plus, inject_Z_mult.
  change (inject_Z (Z.of_nat 2)) with 2%Q. field.
Qed.

Lemma even_split (a s : nat) :
  s <= a -> Nat.Even (a - s) -> a = s + 2 * ((a - s) / 2).
Proof.
  intros Hle [k Hk].
  rewrite Hk. rewrite (Nat.mul_comm 2 k), Nat.div_mul by lia. lia.
Qed.

Example imgToTensor_sample :
  imgToTensor (JImage (mkPixels 1 1 (fun _ _ c => Z.of_nat (127 * c))))
  = Ok (mkTensor [1; 1; 1; 3] [0 / 127 - 1; 127 / 127 - 1; 254 / 127 - 1]%Q).
Proof. reflexivity. Qed.

(** C9 (as amended).  [imgToTensor] reads the pixels as a tensor of shape
    [[H, W, 3]], crops the square of side [S = min H W] whose origin is
    [((H - S) / 2, (W - S) / 2)], adds a leading dimension of size 1 and
    maps every value [x] to [x / 127 - 1].  No step resizes: the result has
    shape [[1, S, S, 3]], and when the two offsets are whole numbers its
    entry at row [i], column [j], channel [c] comes from the pixel at row
    [(H - S) / 2 + i] and column [(W - S) / 2 + j]. *)
Theorem imgToTensor_steps (p : Pixels) :
  let H := pheight p in
  let W := pwidth p in
  let S := Nat.min H W in
  let img := mkTensor [H; W; 3]
               (tabulate3 H W 3 (fun i j c => inject_Z (rgb p i j c))) in
  fromPixels (JImage p) = Ok img /\
  cropSize img = S /\
  (cropBeginHeight img == (natQ H - natQ S) / 2)%Q /\
  (cropBeginWidth img == (natQ W - natQ S) / 2)%Q /\
  (forall t, imgToTensor (JImage p) = Ok t -> shape t = [1; S; S; 3]) /\
  (Nat.Even (H - S) -> Nat.Even (W - S) ->
   imgToTensor (JImage p)
   = Ok (mkTensor [1; S; S; 3]
           (tabulate3 S S 3
              (fun i j c =>
                 (inject_Z (rgb p ((H - S) / 2 + i) ((W - S) / 2 + j) c) / 127 - 1)%Q)))).
Proof.
  intros H W S img.
  split; [reflexivity|].
  split; [reflexivity|].
  split.
  { unfold cropBeginHeight. change (cropSize img) with S.
    change (nth 0 (shape img) 0) with H. cbv zeta. field. }
  split.
  { unfold cropBeginWidth. change (cropSize img) with S.
    change (nth 1 (shape img) 0) with W. cbv zeta. field. }
  split.
  - intros t Ht. destruct (imgToTensor_shape _ _ Ht) as [p' [[Hp|[Hp|Hp]] Hs]];
      inversion Hp; subst p'; exact Hs.
  - intros HevenH HevenW.
    assert (HS_H : S <= H) by apply Nat.le_min_l.
    assert (HS_W : S <= W) by apply Nat.le_min_r.
    pose proof (even_split H S HS_H HevenH) as HH.
    pose proof (even_split W S HS_W HevenW) as HW.
    set (i0 := (H - S) / 2) in *. set (j0 := (W - S) / 2) in *.
    unfold imgToTensor. change (fromPixels (JImage p)) with (Ok img). simpl bind.
    unfold cropImage, slice3.
    change (shape img) with [H; W; 3]. change (cropSize img) with S.
    rewrite (asIndex_natQ (cropBeginHeight img) i0)
      by (apply (natQ_half_difference H S i0 HH)).
    rewrite (asIndex_natQ (cropBeginWidth img) j0)
      by (apply (natQ_half_difference W S j0 HW)).
    change (asIndex 0) with (Some 0).
    replace (i0 + S <=? H) with true by (symmetry; apply Nat.leb_le; lia).
    replace (j0 + S <=? W) with true by (symmetry; apply Nat.leb_le; lia).
    cbn [andb Nat.leb Nat.add bind].
    unfold sub_scalar, div_scalar, toFloat, expandDims0. cbn [shape data].
    f_equal. f_equal.
    rewrite !map_tabulate3. apply tabulate3_ext. intros i j c Hi Hj Hc.
    change (data img) with (tabulate3 H W 3 (fun i j c => inject_Z (rgb p i j c))).
    rewrite nth_tabulate3; [reflexivity|lia|lia|assumption].
Qed.

Lemma imgToTensor_steps_witness :
  Nat.Even (2 - Nat.min 2 4) /\
  Nat.Even (4 - Nat.min 2 4) /\
  imgToTensor (JImage (plain_image 2 4 255))
  = Ok (mkTensor [1; 2; 2; 3]
          (tabulate3 2 2 3
             (fun i j c =>
                (inject_Z (rgb (plain_image 2 4 255) ((2 - 2) / 2 + i) ((4 - 2) / 2 + j) c)
                 / 127 - 1)%Q))).
Proof.
  assert (H0 : Nat.Even (2 - Nat.min 2 4)) by (exists 0; reflexivity).
  assert (H1 : Nat.Even (4 - Nat.min 2 4)) by (exists 1; reflexivity).
  refine (conj H0 (conj H1 _)).
  exact (proj2 (proj2 (proj2 (proj2 (proj2
           (imgToTensor_steps (plain_image 2 4 255)))))) H0 H1).
Defined.

(** C9 (as stated) fails: the claim has a resize to 224 by 224 among the
    steps, and the tensor of a 2 by 4 image is 2 by 2. *)
Lemma imgToTensor_does_not_resize :
  exists t,
    imgToTensor (JImage (plain_image 2 4 255)) = Ok t /\
    shape t = [1; 2; 2; 3] /\
    shape t <> [1; 224; 224; 3].
Proof.
  eexists. split; [reflexivity|]. split; [reflexivity|]. discriminate.
Qed.

(** ** The two preprocessing paths *)

Lemma normalizations_agree_only_at_zero (x : Q) :
  (x / 127 - 1 == (x - (1275 # 10)) / (1275 # 10))%Q <-> (x == 0)%Q.
Proof.
  split; intros H.
  - assert (H1 : (x / 127 - 1 == (x - 127) / 127)%Q) by field.
    assert (H2 : ((x - (1275 # 10)) / (1275 # 10) == (2 * x - 255) / 255)%Q) by field.
    rewrite H1, H2 in H.
    assert (H3 : ((x - 127) / 127 * (127 * 255) == (2 * x - 255) / 255 * (127 * 255))%Q)
      by (now rewrite H).
    assert (H4 : ((x - 127) / 127 * (127 * 255) == (x - 127) * 255)%Q) by field.
    assert (H5 : ((2 * x - 255) / 255 * (127 * 255) == (2 * x - 255) * 127)%Q) by field.
    rewrite H4, H5 in H3. lra.
  - rewrite H. reflexivity.
Qed.

Section Preprocessing.
Variable resizeBilinear : Tensor -> nat -> nat -> Tensor.

Lemma predict_batched_result (c : ImageClassifier) (img : jsval) (t : Tensor) :
  predict_batched resizeBilinear c img = Ok t ->
  exists pixels,
    fromPixels img = Ok pixels /\
    shape t = [1; imageSize c; imageSize c; 3] /\
    data t = map (fun x => x / (1275 # 10))%Q
               (map (fun x => x - (1275 # 10))%Q
                  (data (resizeBilinear pixels (imageSize c) (imageSize c)))).
Proof.
  unfold predict_batched.
  destruct (fromPixels img) as [pixels|]; [|discriminate]. simpl bind.
  unfold reshape. destruct (_ =? _); [|discriminate].
  intros H. injection H as <-. exists pixels.
  split; [reflexivity|]. split; reflexivity.
Qed.

Lemma imgToTensor_result (input : jsval) (t : Tensor) :
  imgToTensor input = Ok t ->
  exists pixels cropped,
    fromPixels input = Ok pixels /\
    cropImage pixels = Ok cropped /\
    shape t = 1 :: shape cropped /\
    data t = map (fun x => x - 1)%Q (map (fun x => x / 127)%Q (data cropped)).
Proof.
  unfold imgToTensor.
  destruct (fromPixels input) as [pixels|]; [|discriminate]. simpl bind.
  destruct (cropImage pixels) as [cropped|] eqn:Hc; [|discriminate]. simpl bind.
  intros H. injection H as <-. exists pixels, cropped.
  split; [reflexivity|]. split; [assumption|]. split; reflexivity.
Qed.

(** C2 (as amended).  The two paths preprocess differently.  [addImage]
    uses [imgToTensor]: crop to the square of side [S = min H W], no
    resize, [x / 127 - 1]; its tensor has shape [[1, S, S, 3]].  [predict]
    uses its own steps: no crop, bilinear resize to 224 by 224,
    [(x - 127.5) / 127.5]; its tensor has shape [[1, 224, 224, 3]].  The two
    normalizations give the same value for the pixel value 0 only. *)
Theorem training_and_inference_preprocessing
  (c : ImageClassifier) (p : Pixels) (t1 t2 : Tensor) :
  imageSize c = 224 ->
  imgToTensor (JImage p) = Ok t1 ->
  predict_batched resizeBilinear c (JImage p) = Ok t2 ->
  exists pixels cropped,
    fromPixels (JImage p) = Ok pixels /\
    cropImage pixels = Ok cropped /\
    shape t1 = [1; Nat.min (pheight p) (pwidth p); Nat.min (pheight p) (pwidth p); 3] /\
    data t1 = map (fun x => x - 1)%Q (map (fun x => x / 127)%Q (data cropped)) /\
    shape t2 = [1; 224; 224; 3] /\
    data t2 = map (fun x => x / (1275 # 10))%Q
                (map (fun x => x - (1275 # 10))%Q
                   (data (resizeBilinear pixels 224 224))) /\
    (forall x : Q,
       (x / 127 - 1 == (x - (1275 # 10)) / (1275 # 10))%Q <-> (x == 0)%Q).
Proof.
  intros Hsize H1 H2.
  destruct (imgToTensor_result _ _ H1) as (pixels & cropped & Hp & Hc & _ & Hd1).
  destruct (predict_batched_result _ _ _ H2) as (pixels' & Hp' & Hs2 & Hd2).
  rewrite Hp in Hp'. inversion Hp'. subst pixels'.
  exists pixels, cropped.
  split; [assumption|]. split; [assumption|].
  split.
  { destruct (imgToTensor_shape _ _ H1) as [p' [[Hq|[Hq|Hq]] Hs]];
      inversion Hq; subst p'; exact Hs. }
  split; [assumption|].
  split; [now rewrite Hs2, Hsize|].
  split; [now rewrite Hd2, Hsize|].
  apply normalizations_agree_only_at_zero.
Qed.

End Preprocessing.

Lemma training_and_inference_preprocessing_witness :
  imageSize (self (sample_world 0)) = 224 /\
  imgToTensor (JImage (plain_image 1 1 255))
  = Ok (mkTensor [1; 1; 1; 3] [255 / 127 - 1; 255 / 127 - 1; 255 / 127 - 1]%Q) /\
  succeeded (predict_batched flat_resize (self (sample_world 0))
               (JImage (plain_image 1 1 255))) = true /\
  forall x : Q, (x / 127 - 1 == (x - (1275 # 10)) / (1275 # 10))%Q <-> (x == 0)%Q.
Proof.
  assert (Hs : imageSize (self (sample_world 0)) = 224) by (vm_compute; reflexivity).
  assert (H1 : imgToTensor (JImage (plain_image 1 1 255))
               = Ok (mkTensor [1; 1; 1; 3]
                       [255 / 127 - 1; 255 / 127 - 1; 255 / 127 - 1]%Q))
    by reflexivity.
  assert (Ht : succeeded (predict_batched flat_resize (self (sample_world 0))
                            (JImage (plain_image 1 1 255))) = true)
    by (vm_compute; reflexivity).
  refine (conj Hs (conj H1 (conj Ht _))).
  destruct (predict_batched flat_resize (self (sample_world 0))
              (JImage (plain_image 1 1 255))) as [t2|] eqn:H2; [|discriminate].
  destruct (training_and_inference_preprocessing flat_resize
              (self (sample_world 0)) (plain_image 1 1 255) _ t2 Hs H1 H2)
    as (_ & _ & _ & _ & _ & _ & _ & _ & H).
  exact H.
Defined.

(** C2 (as stated) fails: for a white image of one pixel the tensor of
    the training path has shape [[1, 1, 1, 3]] and the value 128/127, the
    tensor of the inference path has shape [[1, 224, 224, 3]] and the
    value 1. *)
Lemma preprocessing_paths_differ :
  imgToTensor (JImage (plain_image 1 1 255))
  = Ok (mkTensor [1; 1; 1; 3] [255 / 127 - 1; 255 / 127 - 1; 255 / 127 - 1]%Q) /\
  (255 / 127 - 1 == 128 # 127)%Q /\
  match predict_batched flat_resize (self (sample_world 0))
          (JImage (plain_image 1 1 255)) with
  | Ok t2 => shape t2 = [1; 224; 224; 3] /\ (nth 0 (data t2) 0 == 1)%Q
  | Throw _ => False
  end /\
  imgToTensor (JImage (plain_image 1 1 255))
  <> predict_batched flat_resize (self (sample_world 0)) (JImage (plain_image 1 1 255)).
Proof.
  split; [reflexivity|].
  split; [reflexivity|].
  split.
  - vm_compute. split; reflexivity.
  - intros H.
    apply (f_equal (fun o => match o with Ok t => shape t | Throw _ => [] end)) in H.
    vm_compute in H. discriminate.
Qed.

(** ** What each method leaves alone *)

Section Frames.
Variable IMAGENET_CLASSES : list string.
Variable loadedModel : Tensor -> outcome (list Q).
Variable conv_pw_13_relu : Tensor -> outcome (list Q).
Variable resizeBilinear : Tensor -> nat -> nat -> Tensor.
Variable processVideo : Pixels -> nat -> Pixels.

Abbreviation predict' := (predict resizeBilinear processVideo).
Abbreviation step' :=
  (step IMAGENET_CLASSES loadedModel conv_pw_13_relu resizeBilinear processVideo).
Abbreviation run' :=
  (run IMAGENET_CLASSES loadedModel conv_pw_13_relu resizeBilinear processVideo).
Abbreviation loadDone' :=
  (loadDone loadedModel conv_pw_13_relu resizeBilinear processVideo).

Lemma predict_args_frame (c : ImageClassifier) (a b cb : jsval) :
  core (fst (fst (fst (predict_args processVideo c a b cb)))) = core c /\
  dataset (fst (fst (fst (predict_args processVideo c a b cb)))) = dataset c.
Proof.
  unfold predict_args. destruct a; simpl; try (split; reflexivity).
  destruct (truthy (video c)); split; reflexivity.
Qed.

Lemma predict_frame (w : World) (a b cb : jsval) :
  core (self (predict' w a b cb)) = core (self w) /\
  dataset (self (predict' w a b cb)) = dataset (self w).
Proof.
  unfold predict.
  pose proof (predict_args_frame (self w) a (default_param b JNull)
                (default_param cb JNull)) as [Hc Hd].
  destruct (predict_args processVideo (self w) a (default_param b JNull)
              (default_param cb JNull)) as [[[c1 img] nc] cbk].
  simpl in Hc, Hd.
  destruct (negb (modelLoaded c1)).
  - simpl. split; [rewrite <- Hc | rewrite <- Hd]; reflexivity.
  - destruct (predict_logits resizeBilinear c1 img); simpl; split; assumption.
Qed.

Lemma resume_self (w : World) (p : Pending) :
  self (resume IMAGENET_CLASSES w p) = self w.
Proof.
  unfold resume. destruct (getTopKClasses _ _ _ _) as [[r evs]|e]; reflexivity.
Qed.

Lemma runMicrotasks_self (w : World) :
  self (runMicrotasks IMAGENET_CLASSES w) = self w.
Proof.
  unfold runMicrotasks.
  assert (H : forall ps w0, self (fold_left (resume IMAGENET_CLASSES) ps w0) = self w0).
  { induction ps as [|p ps IH]; intros w0; simpl; [reflexivity|].
    now rewrite IH, resume_self. }
  now rewrite H.
Qed.

Lemma replay_frame (entries : list QueueEntry) (w : World) :
  core (self (fold_left (fun w i => predict' w (imgToPredict i) (num i) (callback i))
                entries w)) = core (self w) /\
  dataset (self (fold_left (fun w i => predict' w (imgToPredict i) (num i) (callback i))
                   entries w)) = dataset (self w).
Proof.
  revert w. induction entries as [|e entries IH]; intros w; simpl.
  - split; reflexivity.
  - destruct (IH (predict' w (imgToPredict e) (num e) (callback e))) as [Hc Hd].
    destruct (predict_frame w (imgToPredict e) (num e) (callback e)) as [Hc' Hd'].
    split; congruence.
Qed.

Lemma train_frame (c : ImageClassifier) (onProgress : jsval) :
  core (fst (train c onProgress)) = core c /\
  dataset (fst (train c onProgress)) = dataset c.
Proof.
  unfold train. destruct (negb (hasAnyTrainedClass c)); [split; reflexivity|].
  cbn [xs set_customModel set_isPredicting].
  destruct (xs c) as [x|]; [|split; reflexivity].
  destruct (negb _); split; reflexivity.
Qed.

(** The end of loading touches neither the dataset nor the configuration;
    when it leaves the instance loaded, both networks are in place. *)
Lemma loadDone_frame (w : World) :
  dataset (self (loadDone' w)) = dataset (self w) /\
  imageSize (self (loadDone' w)) = imageSize (self w) /\
  topKPredictions (self (loadDone' w)) = topKPredictions (self w) /\
  numClasses (self (loadDone' w)) = numClasses (self w) /\
  ((modelLoaded (self w) = true ->
    mobilenet (self w) = Some loadedModel /\
    mobilenetModified (self w) = Some (truncated conv_pw_13_relu)) ->
   modelLoaded (self (loadDone' w)) = true ->
   mobilenet (self (loadDone' w)) = Some loadedModel /\
   mobilenetModified (self (loadDone' w)) = Some (truncated conv_pw_13_relu)).
Proof.
  unfold loadDone. destruct (loading w) eqn:Hl.
  2:{ split; [reflexivity|]. split; [reflexivity|]. split; [reflexivity|].
      split; [reflexivity|]. intros Hinv Hloaded. exact (Hinv Hloaded). }
  unfold loadModel.
  set (c1 := set_mobilenet (Some loadedModel) (self w)).
  assert (Hok :
    let w' := onLoaded resizeBilinear processVideo (settled (with_self c1 w))
                (truncated conv_pw_13_relu) in
    dataset (self w') = dataset (self w) /\
    imageSize (self w') = imageSize (self w) /\
    topKPredictions (self w') = topKPredictions (self w) /\
    numClasses (self w') = numClasses (self w) /\
    mobilenet (self w') = Some loadedModel /\
    mobilenetModified (self w') = Some (truncated conv_pw_13_relu)).
  { unfold onLoaded. cbv zeta.
    match goal with
    | |- context [fold_left ?f ?l ?w0] =>
        destruct (replay_frame l w0) as [Hc Hd]; set (w3 := fold_left f l w0) in *
    end.
    change (self (emit (callNoArg (onReady w3)) w3)) with (self w3).
    unfold core, dataset in Hc, Hd. simpl in Hc, Hd.
    inversion Hc. inversion Hd.
    repeat split; try assumption; congruence. }
  cbv zeta in Hok.
  assert (Hfail :
    forall e,
      let w' := emit [Rejected e] (settled (with_self c1 w)) in
      dataset (self w') = dataset (self w) /\
      imageSize (self w') = imageSize (self w) /\
      topKPredictions (self w') = topKPredictions (self w) /\
      numClasses (self w') = numClasses (self w) /\
      ((modelLoaded (self w) = true ->
        mobilenet (self w) = Some loadedModel /\
        mobilenetModified (self w) = Some (truncated conv_pw_13_relu)) ->
       modelLoaded (self w') = true ->
       mobilenet (self w') = Some loadedModel /\
       mobilenetModified (self w') = Some (truncated conv_pw_13_relu))).
  { intros e. simpl. split; [reflexivity|]. split; [reflexivity|].
    split; [reflexivity|]. split; [reflexivity|].
    intros Hinv Hloaded. split; [reflexivity | exact (proj2 (Hinv Hloaded))]. }
  destruct Hok as (H1 & H2 & H3 & H4 & H5 & H6).
  destruct (truthy (video c1)).
  - destruct (_ <- imgToTensor (video c1) ;; callModel (mobilenet c1) _).
    + repeat split; assumption.
    + apply Hfail.
  - repeat split; assumption.
Qed.

End Frames.

(** ** The dataset *)

Lemma oneHot_shape (label : Z) (depth : jsval) (y : Tensor) :
  oneHot label depth = Ok y ->
  exists q d, depth = JNum (Fin q) /\ asIndex q = Some d /\ shape y = [1; d].
Proof.
  unfold oneHot. destruct depth as [| | |[q|]| | | |]; try discriminate.
  destruct (asIndex q) as [d|] eqn:Hd; [|discriminate].
  intros H. injection H as <-. exists q, d. repeat split. assumption.
Qed.

Lemma datasetInv_frame (c c' : ImageClassifier) :
  dataset c' = dataset c -> numClasses c' = numClasses c ->
  datasetInv c -> datasetInv c'.
Proof.
  unfold dataset, datasetInv. intros Hd Hn. inversion Hd as [[H1 H2 H3]].
  rewrite H1, H2, H3, Hn. tauto.
Qed.

Section Dataset.
Variable conv_pw_13_relu : Tensor -> outcome (list Q).

Lemma addImage_tidy_spec (c : ImageClassifier) (label : Z) (input : jsval)
  (c' : ImageClassifier) (r : outcome unit) :
  mobilenetModified c = Some (truncated conv_pw_13_relu) ->
  datasetInv c ->
  addImage_tidy c label input = (c', r) ->
  core c' = core c /\
  datasetInv c' /\
  match r with
  | Throw _ => c' = c
  | Ok _ =>
      rows (xs c') = S (rows (xs c)) /\
      rows (ys c') = S (rows (ys c)) /\
      exists dx dy,
        values (xs c') = values (xs c) ++ dx /\
        values (ys c') = values (ys c) ++ dy
  end.
Proof.
  intros Hmod Hinv E. pose proof Hinv as (Hany & Hnone & Hrows & Hys).
  unfold addImage_tidy in E.
  destruct (imgToTensor (if truthy input then input else video c))
    as [processedImg|e] eqn:Himg; simpl bind in E.
  2:{ injection E as <- <-. split; [reflexivity|]. split; [exact Hinv | reflexivity]. }
  rewrite Hmod in E. unfold callModel, truncated in E.
  destruct (conv_pw_13_relu processedImg) as [d|e]; simpl bind in E.
  2:{ injection E as <- <-. split; [reflexivity|]. split; [exact Hinv | reflexivity]. }
  destruct (oneHot label (numClasses c)) as [y|e] eqn:Hy; simpl bind in E.
  2:{ injection E as <- <-. split; [reflexivity|]. split; [exact Hinv | reflexivity]. }
  destruct (imgToTensor_shape _ _ Himg) as [p [_ Hshape]].
  rewrite Hshape in E. cbn [hd] in E.
  destruct (oneHot_shape _ _ _ Hy) as (q & dep & Hq & Hdep & Hyshape).
  destruct (xs c) as [oldX|] eqn:Hxs.
  - (* concatenation *)
    destruct (ys c) as [oldY|] eqn:Hys'.
    2:{ exfalso. destruct Hnone as [_ Hn]. specialize (Hn eq_refl). discriminate. }
    destruct (Hys oldY eq_refl) as (n & q' & d' & HoldY & Hq' & Hd').
    rewrite Hq in Hq'. injection Hq' as <-. rewrite Hdep in Hd'. injection Hd' as <-.
    unfold concat0 in E. cbn [shape] in E. rewrite HoldY, Hyshape in E.
    destruct (shape oldX) as [|ra da] eqn:HoldX.
    { injection E as <- <-. split; [reflexivity|]. split; [exact Hinv | reflexivity]. }
    destruct (list_eq_dec Nat.eq_dec da embeddingShape) as [Hda|Hda].
    2:{ injection E as <- <-. split; [reflexivity|]. split; [exact Hinv | reflexivity]. }
    destruct (list_eq_dec Nat.eq_dec [dep] [dep]) as [_|Hne]; [|congruence].
    injection E as <- <-.
    simpl in Hrows. rewrite ?HoldX, ?HoldY in Hrows. simpl in Hrows. subst n.
    split; [reflexivity|]. split.
    + unfold datasetInv.
      cbn [hasAnyTrainedClass xs ys set_xs set_ys numClasses rows shape hd].
      split; [split; [discriminate | intros _; apply Hany; discriminate]|].
      split; [split; discriminate|]. split; [reflexivity|].
      intros y' Hy'. injection Hy' as <-. exists (ra + 1), q, dep.
      repeat split; assumption.
    + cbn [xs ys set_xs set_ys rows values shape data hd].
      rewrite HoldX, HoldY. cbn [hd].
      split; [lia|]. split; [lia|].
      eexists. eexists. split; reflexivity.
  - (* the first example *)
    assert (Hysn : ys c = None) by (now apply Hnone).
    injection E as <- <-.
    split; [reflexivity|]. split.
    + unfold datasetInv.
      cbn [hasAnyTrainedClass xs ys set_xs set_ys set_hasAnyTrainedClass numClasses
           rows shape hd].
      split; [split; [discriminate | reflexivity]|].
      split; [split; discriminate|]. split; [rewrite Hyshape; reflexivity|].
      intros y' Hy'. injection Hy' as <-. exists 1, q, dep. repeat split; assumption.
    + cbn [xs ys set_xs set_ys set_hasAnyTrainedClass rows values shape data hd].
      rewrite Hysn, Hyshape. cbn [rows values hd].
      split; [reflexivity|]. split; [reflexivity|].
      eexists. eexists. split; reflexivity.
Qed.

Lemma addImage_spec (c : ImageClassifier) (label : Z) (cbk input : jsval) :
  (modelLoaded c = true -> mobilenetModified c = Some (truncated conv_pw_13_relu)) ->
  datasetInv c ->
  let c' := fst (addImage c label cbk input) in
  core c' = core c /\
  datasetInv c' /\
  rows (xs c') = rows (xs c) + (if appended c label input then 1 else 0) /\
  rows (ys c') = rows (ys c) + (if appended c label input then 1 else 0) /\
  exists dx dy,
    values (xs c') = values (xs c) ++ dx /\ values (ys c') = values (ys c) ++ dy.
Proof.
  intros Hmod Hinv. unfold addImage, appended.
  destruct (modelLoaded c) eqn:Hl; cbn [andb].
  2:{ simpl. rewrite !Nat.add_0_r.
      split; [reflexivity|]. split; [assumption|].
      split; [reflexivity|]. split; [reflexivity|].
      exists [], []. now rewrite !app_nil_r. }
  destruct (addImage_tidy c label (default_param input JNull)) as [c1 r] eqn:E.
  pose proof (addImage_tidy_spec c label (default_param input JNull) c1 r
                (Hmod eq_refl) Hinv E) as (Hc & Hd & Hr).
  cbn [fst snd] in *.
  destruct r as [u|e]; cbn [succeeded].
  - assert (Hc1 : fst (match default_param cbk noop with
                       | JFun _ _ => (c1, Ok [Called (default_param cbk noop)])
                       | _ => (c1, @Throw (list Event) TypeError)
                       end) = c1)
      by (destruct (default_param cbk noop); reflexivity).
    cbv zeta. rewrite Hc1.
    destruct Hr as (Hx & Hy & Hv).
    split; [assumption|]. split; [assumption|].
    split; [lia|]. split; [lia | assumption].
  - cbv zeta. cbn [fst]. subst c1. rewrite !Nat.add_0_r.
    split; [reflexivity|]. split; [assumption|].
    split; [reflexivity|]. split; [reflexivity|].
    exists [], []. now rewrite !app_nil_r.
Qed.

End Dataset.

(** ** Runs of the program *)

Section Runs.
Variable IMAGENET_CLASSES : list string.
Variable loadedModel : Tensor -> outcome (list Q).
Variable conv_pw_13_relu : Tensor -> outcome (list Q).
Variable resizeBilinear : Tensor -> nat -> nat -> Tensor.
Variable processVideo : Pixels -> nat -> Pixels.

Abbreviation step' :=
  (step IMAGENET_CLASSES loadedModel conv_pw_13_relu resizeBilinear processVideo).
Abbreviation run' :=
  (run IMAGENET_CLASSES loadedModel conv_pw_13_relu resizeBilinear processVideo).

Abbreviation loadedInv' := (loadedInv loadedModel conv_pw_13_relu).
Abbreviation Inv' := (Inv loadedModel conv_pw_13_relu).
Abbreviation appends' :=
  (appends IMAGENET_CLASSES loadedModel conv_pw_13_relu resizeBilinear processVideo).

Lemma loadedInv_core (c c' : ImageClassifier) :
  core c' = core c -> loadedInv' c -> loadedInv' c'.
Proof.
  unfold core, loadedInv'. intros H. inversion H as [[H1 H2 H3 H4 H5 H6]].
  rewrite H1, H2, H3, H4, H5. tauto.
Qed.

Lemma Inv_frame (c c' : ImageClassifier) :
  core c' = core c -> dataset c' = dataset c -> Inv' c -> Inv' c'.
Proof.
  intros Hc Hd [Hl Hds]. split.
  - now apply (loadedInv_core c).
  - apply (datasetInv_frame c); [assumption| |assumption].
    unfold core in Hc. now inversion Hc.
Qed.

Lemma construct_Inv (video0 : jsval) (options : Options) (callback0 : jsval) :
  Inv' (self (construct processVideo video0 options callback0)).
Proof.
  unfold construct, Inv', loadedInv', datasetInv.
  destruct video0; simpl;
    (split; [split; [reflexivity|split; [reflexivity|discriminate]]|]);
    (split; [split; [discriminate | intros H; now contradiction H]|]);
    (split; [split; reflexivity|]);
    (split; [reflexivity | discriminate]).
Qed.

Lemma step_spec (w : World) (call : Call) :
  Inv' (self w) ->
  Inv' (self (step' w call)) /\
  rows (xs (self (step' w call))) = rows (xs (self w)) + added w call /\
  rows (ys (self (step' w call))) = rows (ys (self w)) + added w call /\
  exists dx dy,
    values (xs (self (step' w call))) = values (xs (self w)) ++ dx /\
    values (ys (self (step' w call))) = values (ys (self w)) ++ dy.
Proof.
  intros HI.
  assert (Hsame : forall c', core c' = core (self w) -> dataset c' = dataset (self w) ->
            Inv' c' /\
            rows (xs c') = rows (xs (self w)) + 0 /\
            rows (ys c') = rows (ys (self w)) + 0 /\
            exists dx dy,
              values (xs c') = values (xs (self w)) ++ dx /\
              values (ys c') = values (ys (self w)) ++ dy).
  { intros c' Hc Hd. split; [now apply (Inv_frame (self w))|].
    unfold dataset in Hd. inversion Hd as [[H1 H2 H3]].
    rewrite !Nat.add_0_r. split; [reflexivity|]. split; [reflexivity|].
    exists [], []. now rewrite !app_nil_r. }
  destruct call as [label cbk input|onProgress|a b cb|]; cbn [step added].
  - destruct HI as [[Hsz [Htk Hl]] Hds].
    pose proof (addImage_spec conv_pw_13_relu (self w) label cbk input
                  (fun H => proj2 (Hl H)) Hds) as Hs.
    cbv zeta in Hs.
    assert (Hself :
      self (match addImage (self w) label cbk input with
            | (c1, Ok evs) => emit evs (with_self c1 w)
            | (c1, Throw e) => emit [Rejected e] (with_self c1 w)
            end) = fst (addImage (self w) label cbk input)).
    { destruct (addImage (self w) label cbk input) as [c1 [evs|e]]; reflexivity. }
    rewrite Hself.
    destruct Hs as (Hc & Hd & Hx & Hy & Hv).
    split; [split; [now apply (loadedInv_core (self w)) | assumption]|].
    split; [assumption|]. split; assumption.
  - assert (Hself :
      self (match train (self w) onProgress with
            | (c1, Ok _) => with_self c1 w
            | (c1, Throw e) => emit [Rejected e] (with_self c1 w)
            end) = fst (train (self w) onProgress)).
    { destruct (train (self w) onProgress) as [c1 [u|e]]; reflexivity. }
    rewrite Hself.
    destruct (train_frame (self w) onProgress) as [Hc Hd].
    now apply Hsame.
  - rewrite runMicrotasks_self.
    destruct (predict_frame resizeBilinear processVideo w a b cb) as [Hc Hd].
    now apply Hsame.
  - rewrite runMicrotasks_self.
    destruct (loadDone_frame loadedModel conv_pw_13_relu resizeBilinear processVideo w)
      as (Hd & Hsz & Htk & Hn & Hmod).
    destruct HI as [[Hsz0 [Htk0 Hl]] Hds].
    split.
    + split.
      * split; [congruence|]. split; [congruence|]. apply Hmod, Hl.
      * now apply (datasetInv_frame (self w)).
    + unfold dataset in Hd. inversion Hd as [[H1 H2 H3]].
      rewrite !Nat.add_0_r. split; [reflexivity|]. split; [reflexivity|].
      exists [], []. now rewrite !app_nil_r.
Qed.

Lemma run_spec (calls : list Call) (w : World) :
  Inv' (self w) ->
  Inv' (self (run' w calls)) /\
  rows (xs (self (run' w calls))) = rows (xs (self w)) + appends' w calls /\
  rows (ys (self (run' w calls))) = rows (ys (self w)) + appends' w calls.
Proof.
  revert w. induction calls as [|call calls IH]; intros w HI.
  - cbn [run fold_left appends']. rewrite !Nat.add_0_r.
    split; [assumption|]. split; reflexivity.
  - destruct (step_spec w call HI) as (HI' & Hx & Hy & _).
    destruct (IH _ HI') as (HI'' & Hx' & Hy').
    change (run' w (call :: calls)) with (run' (step' w call) calls).
    cbn [appends'].
    split; [assumption|].
    rewrite Hx', Hy', Hx, Hy. split; lia.
Qed.

(** C7.  In every run of the program, from the constructor on, the
    feature tensor and the label tensor have the same number of rows: the
    number of [addImage] calls that appended (model loaded, block run to
    its end).  Every call leaves the values already stored where they are:
    the new values are the old ones followed by what the call adds, one
    row when it appends and nothing otherwise. *)
Theorem dataset_rows_count_appends
  (video0 : jsval) (options : Options) (callback0 : jsval) (calls : list Call) :
  let w0 := construct processVideo video0 options callback0 in
  let w := run' w0 calls in
  rows (xs (self w)) = appends' w0 calls /\
  rows (ys (self w)) = appends' w0 calls /\
  forall call,
    rows (xs (self (step' w call))) = rows (xs (self w)) + added w call /\
    rows (ys (self (step' w call))) = rows (ys (self w)) + added w call /\
    added w call <= 1 /\
    exists dx dy,
      values (xs (self (step' w call))) = values (xs (self w)) ++ dx /\
      values (ys (self (step' w call))) = values (ys (self w)) ++ dy.
Proof.
  intros w0 w.
  destruct (run_spec calls w0 (construct_Inv video0 options callback0))
    as (HI & Hx & Hy).
  fold w in HI, Hx, Hy.
  assert (H0 : rows (xs (self w0)) = 0 /\ rows (ys (self w0)) = 0)
    by (unfold w0, construct; destruct video0; split; reflexivity).
  destruct H0 as [Hx0 Hy0]. rewrite Hx0 in Hx. rewrite Hy0 in Hy.
  split; [exact Hx|]. split; [exact Hy|].
  intros call. destruct (step_spec w call HI) as (_ & Hx' & Hy' & Hv).
  split; [assumption|]. split; [assumption|]. split; [|assumption].
  unfold added. destruct call; try lia. destruct (appended _ _ _); lia.
Qed.

(** C8.  In every run of the program, when the dataset is empty [train]
    throws its first error before it assigns anything: the instance it
    returns is the instance it was given, trained head included. *)
Theorem train_empty_dataset_fails_unchanged
  (video0 : jsval) (options : Options) (callback0 : jsval) (calls : list Call)
  (onProgress : jsval) :
  let w := run' (construct processVideo video0 options callback0) calls in
  xs (self w) = None ->
  train (self w) onProgress
  = (self w, Throw (Error "Add some examples before training!")) /\
  customModel (fst (train (self w) onProgress)) = customModel (self w) /\
  self (step' w (CallTrain onProgress)) = self w /\
  log (step' w (CallTrain onProgress))
  = log w ++ [Rejected (Error "Add some examples before training!")].
Proof.
  intros w Hxs.
  destruct (run_spec calls _ (construct_Inv video0 options callback0))
    as ([_ (Hany & _)] & _).
  fold w in Hany.
  assert (Hfalse : hasAnyTrainedClass (self w) = false).
  { destruct (hasAnyTrainedClass (self w)); [|reflexivity].
    exfalso. now apply (proj1 Hany eq_refl). }
  assert (Ht : train (self w) onProgress
               = (self w, Throw (Error "Add some examples before training!"))).
  { unfold train. now rewrite Hfalse. }
  split; [exact Ht|]. cbn [step]. rewrite Ht. repeat split.
Qed.

(** C1 (as amended).  In every run of the program, once the model is
    loaded the probability vector of [predict] is the output of the full,
    untruncated network on the tensor preprocessed by [predict] itself,
    whether or not [train] has run: the trained head is not consulted, and
    replacing it changes nothing.  When the network answers with a vector
    as long as the label vocabulary, so does [predict]. *)
Theorem predict_uses_full_network
  (video0 : jsval) (options : Options) (callback0 : jsval) (calls : list Call)
  (img : jsval) :
  let w := run' (construct processVideo video0 options callback0) calls in
  modelLoaded (self w) = true ->
  predict_logits resizeBilinear (self w) img
  = (batched <- predict_batched resizeBilinear (self w) img ;; loadedModel batched) /\
  (forall head,
     predict_logits resizeBilinear (set_customModel head (self w)) img
     = predict_logits resizeBilinear (self w) img) /\
  (forall vocabularySize,
     (forall t v, loadedModel t = Ok v -> length v = vocabularySize) ->
     forall v, predict_logits resizeBilinear (self w) img = Ok v ->
               length v = vocabularySize).
Proof.
  intros w Hloaded.
  destruct (run_spec calls _ (construct_Inv video0 options callback0))
    as ([(_ & _ & Hm) _] & _).
  fold w in Hm. destruct (Hm Hloaded) as [Hfull _].
  assert (Heq : predict_logits resizeBilinear (self w) img
                = (batched <- predict_batched resizeBilinear (self w) img ;;
                   loadedModel batched)).
  { unfold predict_logits. now rewrite Hfull. }
  split; [exact Heq|]. split; [reflexivity|].
  intros V HV v Hv. rewrite Heq in Hv.
  destruct (predict_batched resizeBilinear (self w) img) as [t|]; [|discriminate].
  simpl in Hv. now apply (HV t).
Qed.

End Runs.

Example dataset_rows_sample :
  let w0 := construct same_frames JUndefined noOptions JUndefined in
  let w := run sample_classes (uniform_model 1000) zero_embedding flat_resize
             same_frames w0 sample_mixed_calls in
  appends sample_classes (uniform_model 1000) zero_embedding flat_resize
    same_frames w0 sample_mixed_calls = 2 /\
  rows (xs (self w)) = 2 /\
  rows (ys (self w)) = 2 /\
  values (ys (self w)) = [1; 0; 0; 1]%Q /\
  log w = [Called noop; Called noop; Rejected TfError; Rejected TypeError].
Proof. vm_compute. repeat split; reflexivity. Qed.

Lemma train_empty_dataset_fails_unchanged_witness :
  xs (self (sample_world 0)) = None /\
  train (self (sample_world 0)) noop
  = (self (sample_world 0), Throw (Error "Add some examples before training!")) /\
  customModel (fst (train (self (sample_world 0)) noop))
  = customModel (self (sample_world 0)) /\
  self (step sample_classes (uniform_model 1000) zero_embedding flat_resize same_frames
          (sample_world 0) (CallTrain noop))
  = self (sample_world 0) /\
  log (step sample_classes (uniform_model 1000) zero_embedding flat_resize same_frames
         (sample_world 0) (CallTrain noop))
  = log (sample_world 0) ++ [Rejected (Error "Add some examples before training!")].
Proof.
  unfold sample_world.
  match goal with
  | |- ?A /\ _ => assert (H : A) by (vm_compute; reflexivity)
  end.
  refine (conj H _).
  exact (train_empty_dataset_fails_unchanged sample_classes (uniform_model 1000)
           zero_embedding flat_resize same_frames JUndefined noOptions JUndefined
           (sample_calls 0) noop H).
Defined.

Lemma uniform_model_length (n : nat) (t : Tensor) (v : list Q) :
  uniform_model n t = Ok v -> length v = n.
Proof.
  unfold uniform_model. intros H. injection H as <-. apply repeat_length.
Qed.

Lemma predict_uses_full_network_witness :
  modelLoaded (self sample_trained) = true /\
  predict_logits flat_resize (self sample_trained) (JImage (plain_image 1 1 255))
  = (batched <- predict_batched flat_resize (self sample_trained)
                  (JImage (plain_image 1 1 255)) ;;
     uniform_model 1000 batched) /\
  forall v,
    predict_logits flat_resize (self sample_trained) (JImage (plain_image 1 1 255)) = Ok v ->
    length v = 1000.
Proof.
  unfold sample_trained.
  match goal with
  | |- ?A /\ _ => assert (H : A) by (vm_compute; reflexivity)
  end.
  refine (conj H _).
  destruct (predict_uses_full_network sample_classes (uniform_model 1000)
              zero_embedding flat_resize same_frames JUndefined noOptions JUndefined
              (sample_calls 3 ++ [CallTrain noop]) (JImage (plain_image 1 1 255)) H)
    as (H1 & _ & H3).
  split; [exact H1|].
  exact (H3 1000 (uniform_model_length 1000)).
Defined.

(** C1 (as stated) fails: after three examples and a [train] call that
    reached [fit] with two classes, [predict] still produces the 1000
    probabilities of the full network, not 2. *)
Lemma predict_after_train_skips_head :
  numClasses (self sample_trained) = JNumQ 2 /\
  fittedBatchSize (self sample_trained) = Some 1%Z /\
  log sample_trained = [Called noop; Called noop; Called noop; Called noop] /\
  match predict_logits flat_resize (self sample_trained)
          (JImage (plain_image 1 1 255)) with
  | Ok v => length v = 1000 /\ length v <> 2
  | Throw _ => False
  end.
Proof.
  vm_compute. repeat split; try reflexivity. discriminate.
Qed.

(** ** The queue of early predictions *)

Lemma World_eta (w : World) :
  mkWorld (self w) (loading w) (onReady w) (microtasks w) (log w) = w.
Proof. now destruct w. Qed.

Lemma isDelivery_not_called (evs : list Event) :
  forallb isDelivery evs = true -> filter isCalled evs = [].
Proof.
  induction evs as [|ev evs IH]; simpl; [reflexivity|].
  intros H. apply andb_prop in H. destruct H as [H1 H2].
  destruct ev; simpl in *; try discriminate; now apply IH.
Qed.

Section Queue.
Variable IMAGENET_CLASSES : list string.
Variable loadedModel : Tensor -> outcome (list Q).
Variable conv_pw_13_relu : Tensor -> outcome (list Q).
Variable resizeBilinear : Tensor -> nat -> nat -> Tensor.
Variable processVideo : Pixels -> nat -> Pixels.

Abbreviation predict' := (predict resizeBilinear processVideo).
Abbreviation step' :=
  (step IMAGENET_CLASSES loadedModel conv_pw_13_relu resizeBilinear processVideo).
Abbreviation run' :=
  (run IMAGENET_CLASSES loadedModel conv_pw_13_relu resizeBilinear processVideo).
Abbreviation replay' :=
  (fold_left (fun w i => predict' w (imgToPredict i) (num i) (callback i))).

Lemma construct_queueInv (video0 : jsval) (options : Options) (callback0 : jsval) :
  queueInv (self (construct processVideo video0 options callback0)).
Proof.
  unfold construct, queueInv. destruct video0; simpl;
    (split; [|constructor]); try (now left). right. eexists. reflexivity.
Qed.

(** A call made before the end of loading only adds one entry at the end
    of the queue. *)
Lemma predict_unloaded (w : World) (a b cb : jsval) :
  modelLoaded (self w) = false ->
  topKPredictions (self w) = JNumQ 10 ->
  queueInv (self w) ->
  exists e,
    predict' w a b cb
    = mkWorld (self (predict' w a b cb)) (loading w) (onReady w) (microtasks w) (log w) /\
    waitingPredictions (self (predict' w a b cb)) = waitingPredictions (self w) ++ [e] /\
    captures (a, b, cb) e /\
    queueInv (self (predict' w a b cb)).
Proof.
  intros Hl Htk [Hv Hq]. unfold predict, predict_args, captures.
  destruct a as [| |bb|n|p|p|p|f ar];
    try (cbn [fst snd]; rewrite Hl; cbn [negb]; rewrite Htk;
         eexists; split; [reflexivity|]; split; [reflexivity|];
         split; [cbn [num callback imgToPredict];
                 split; [exact Hv | split; reflexivity]|];
         split; [exact Hv|];
         simpl; apply Forall_app; split; [exact Hq|];
         constructor; [|constructor];
         simpl; intros p0 Hp0; rewrite Hp0; reflexivity).
  - (* an image *)
    cbn [fst snd]. rewrite Hl. cbn [negb]. rewrite Htk.
    eexists. split; [reflexivity|]. split; [reflexivity|].
    split; [cbn [num callback imgToPredict]; repeat split; reflexivity|].
    split; [exact Hv|].
    simpl. apply Forall_app. split; [exact Hq|].
    constructor; [|constructor]. simpl. intros p0 Hp0. discriminate Hp0.
  - (* a video element *)
    destruct (truthy (video (self w))) eqn:Ht.
    + cbn [fst snd]. rewrite Hl. cbn [negb]. rewrite Htk.
      destruct Hv as [Hv|[p1 Hv]]; [rewrite Hv in Ht; discriminate|].
      eexists. split; [reflexivity|]. split; [reflexivity|].
      split.
      { cbn [num callback imgToPredict]. split; [exists p1; exact Hv|].
        split; reflexivity. }
      split; [right; exists p1; exact Hv|].
      simpl. apply Forall_app. split.
      * eapply Forall_impl; [|exact Hq]. intros; exact Ht.
      * constructor; [|constructor]. intros; exact Ht.
    + cbn [fst snd modelLoaded set_video]. rewrite Hl. cbn [negb].
      cbn [topKPredictions video waitingPredictions set_video]. rewrite Htk.
      eexists. split; [reflexivity|]. split; [reflexivity|].
      split.
      { cbn [num callback imgToPredict]. split; [eexists; reflexivity|].
        split; reflexivity. }
      split; [right; eexists; reflexivity|].
      simpl. apply Forall_app. split.
      * eapply Forall_impl; [|exact Hq]. intros; reflexivity.
      * constructor; [|constructor]. intros; reflexivity.
Qed.

Lemma runMicrotasks_nil (w : World) :
  microtasks w = [] -> runMicrotasks IMAGENET_CLASSES w = w.
Proof.
  intros H. unfold runMicrotasks. rewrite H. simpl. rewrite <- H. apply World_eta.
Qed.

(** Calls made before the end of loading fill the queue in the order of
    the calls, and nothing else happens. *)
Lemma run_unloaded (pre : list (jsval * jsval * jsval)) (w : World) :
  modelLoaded (self w) = false ->
  topKPredictions (self w) = JNumQ 10 ->
  queueInv (self w) ->
  microtasks w = [] ->
  let w' := run' w (predictCalls pre) in
  loading w' = loading w /\ onReady w' = onReady w /\
  microtasks w' = [] /\ log w' = log w /\
  modelLoaded (self w') = false /\
  topKPredictions (self w') = JNumQ 10 /\
  queueInv (self w') /\
  exists entries,
    waitingPredictions (self w') = waitingPredictions (self w) ++ entries /\
    Forall2 captures pre entries.
Proof.
  revert w. induction pre as [|[[a b] cb] pre IH]; intros w Hl Htk Hq Hm.
  - cbn [predictCalls map run fold_left].
    repeat (split; [assumption || reflexivity|]).
    exists []. split; [now rewrite app_nil_r | constructor].
  - change (run' w (predictCalls ((a, b, cb) :: pre)))
      with (run' (step' w (CallPredict a b cb)) (predictCalls pre)).
    destruct (predict_unloaded w a b cb Hl Htk Hq) as (e & Hw & Hwait & Hcap & Hq').
    destruct (predict_frame resizeBilinear processVideo w a b cb) as [Hcore _].
    unfold core in Hcore. injection Hcore as _ Htk' Hl' _ _ _.
    assert (Hstep : step' w (CallPredict a b cb) = predict' w a b cb).
    { cbn [step]. apply runMicrotasks_nil. rewrite Hw. exact Hm. }
    rewrite Hstep.
    assert (Hm' : microtasks (predict' w a b cb) = []) by (rewrite Hw; exact Hm).
    assert (Hl'' : modelLoaded (self (predict' w a b cb)) = false) by congruence.
    assert (Htk'' : topKPredictions (self (predict' w a b cb)) = JNumQ 10) by congruence.
    destruct (IH _ Hl'' Htk'' Hq' Hm')
      as (H1 & H2 & H3 & H4 & H5 & H6 & H7 & entries & H8 & H9).
    cbv zeta.
    split; [rewrite H1, Hw; reflexivity|].
    split; [rewrite H2, Hw; reflexivity|].
    split; [assumption|].
    split; [rewrite H4, Hw; reflexivity|].
    split; [assumption|]. split; [assumption|]. split; [assumption|].
    exists (e :: entries). split.
    + rewrite H8, Hwait, <- app_assoc. reflexivity.
    + constructor; assumption.
Qed.

Lemma getTopKClasses_events (values0 : list Q) (topK cbk : jsval)
  (r : list ClassProb) (evs : list Event) :
  getTopKClasses IMAGENET_CLASSES values0 topK cbk = Ok (r, evs) ->
  forallb isDelivery evs = true.
Proof.
  unfold getTopKClasses. destruct (rankTopK values0 topK) as [top|]; [|discriminate].
  simpl bind. unfold callIfSet. destruct (truthy cbk).
  - destruct cbk; simpl; intros H; try discriminate. now inversion H.
  - simpl. intros H. now inversion H.
Qed.

Lemma resume_log (p : Pending) (w : World) :
  exists evs,
    resume IMAGENET_CLASSES w p = emit evs w /\ forallb isDelivery evs = true.
Proof.
  unfold resume.
  destruct (getTopKClasses IMAGENET_CLASSES (p_values p) (p_topK p) (p_callback p))
    as [[r evs]|e] eqn:E.
  - exists evs. split; [reflexivity|]. eapply getTopKClasses_events; exact E.
  - exists [Rejected e]. split; reflexivity.
Qed.

Lemma resume_all_log (ps : list Pending) (w : World) :
  exists ds,
    fold_left (resume IMAGENET_CLASSES) ps w
    = mkWorld (self w) (loading w) (onReady w) (microtasks w) (log w ++ ds) /\
    forallb isDelivery ds = true.
Proof.
  revert w. induction ps as [|p ps IH]; intros w.
  - exists []. simpl. rewrite app_nil_r. split; [symmetry; apply World_eta | reflexivity].
  - cbn [fold_left].
    destruct (resume_log p w) as (evs & -> & Hevs).
    destruct (IH (emit evs w)) as (ds & -> & Hds).
    exists (evs ++ ds). cbn [emit self loading onReady microtasks log].
    rewrite <- app_assoc. split; [reflexivity|].
    rewrite forallb_app, Hevs, Hds. reflexivity.
Qed.

(** The continuations only deliver: each one calls its callback with the
    results or rejects its promise. *)
Lemma runMicrotasks_log (w : World) :
  exists deliveries,
    runMicrotasks IMAGENET_CLASSES w
    = mkWorld (self w) (loading w) (onReady w) [] (log w ++ deliveries) /\
    forallb isDelivery deliveries = true.
Proof.
  unfold runMicrotasks.
  destruct (resume_all_log (microtasks w)
              (mkWorld (self w) (loading w) (onReady w) [] (log w)))
    as (ds & -> & Hds).
  exists ds. split; [reflexivity | exact Hds].
Qed.

Lemma loadModel_succeeded (c : ImageClassifier) :
  succeeded (snd (loadModel loadedModel conv_pw_13_relu c)) = true ->
  loadModel loadedModel conv_pw_13_relu c
  = (set_mobilenet (Some loadedModel) c, Ok (truncated conv_pw_13_relu)).
Proof.
  unfold loadModel. destruct (truthy (video (set_mobilenet (Some loadedModel) c))).
  - destruct (_ <- imgToTensor _ ;; callModel _ _); [reflexivity | discriminate].
  - reflexivity.
Qed.

Lemma startEvents_not_called (c : ImageClassifier) (entries : list QueueEntry) :
  filter isCalled
    (map (fun e => startEvent resizeBilinear c (replayImage c e)) entries) = [].
Proof.
  induction entries as [|e entries IH]; simpl; [reflexivity|].
  unfold startEvent at 1.
  destruct (predict_logits resizeBilinear c (replayImage c e)); simpl; exact IH.
Qed.

Abbreviation replayPending' := (replayPending resizeBilinear).
Abbreviation replayDelivery' := (replayDelivery IMAGENET_CLASSES resizeBilinear).
Abbreviation servedCall' := (servedCall IMAGENET_CLASSES resizeBilinear processVideo).
Abbreviation served' := (served IMAGENET_CLASSES resizeBilinear processVideo).

(** The continuations run in the order in which they were left, and each
    one logs its delivery. *)
Lemma runMicrotasks_exact (w : World) :
  runMicrotasks IMAGENET_CLASSES w
  = mkWorld (self w) (loading w) (onReady w) []
      (log w ++ flat_map (deliveryOf IMAGENET_CLASSES) (microtasks w)).
Proof.
  unfold runMicrotasks.
  assert (H : forall ps w0,
            fold_left (resume IMAGENET_CLASSES) ps w0
            = mkWorld (self w0) (loading w0) (onReady w0) (microtasks w0)
                (log w0 ++ flat_map (deliveryOf IMAGENET_CLASSES) ps)).
  { induction ps as [|p ps IH]; intros w0; cbn [fold_left flat_map].
    - rewrite app_nil_r. symmetry. apply World_eta.
    - rewrite IH. unfold resume, deliveryOf at 2, delivered.
      destruct (getTopKClasses IMAGENET_CLASSES (p_values p) (p_topK p) (p_callback p))
        as [[r evs]|e]; unfold emit; cbn [self loading onReady microtasks log];
        rewrite <- app_assoc; reflexivity. }
  rewrite H. reflexivity.
Qed.

Lemma delivered_not_called (values0 : list Q) (topK cbk : jsval) :
  filter isCalled (delivered IMAGENET_CLASSES values0 topK cbk) = [].
Proof.
  unfold delivered.
  destruct (getTopKClasses IMAGENET_CLASSES values0 topK cbk) as [[r evs]|e] eqn:E;
    [|reflexivity].
  apply isDelivery_not_called. eapply getTopKClasses_events. exact E.
Qed.

(** An entry made by a call of [predict]: it holds an image, a video
    element or [null]. *)
Lemma captures_form (call : jsval * jsval * jsval) (e : QueueEntry) :
  captures call e ->
  (exists p, imgToPredict e = JImage p) \/
  (exists p, imgToPredict e = JVideo p) \/
  imgToPredict e = JNull.
Proof.
  destruct call as [[a b] cb]. unfold captures.
  destruct a as [| |bb|n|p|p|p|f ar];
    try (intros ([H|H] & _); [right; right; exact H | right; left; exact H]).
  - intros (H & _). left. exists p. exact H.
  - intros (H & _). right. left. exact H.
Qed.

(** The replay of one entry: the instance is not changed, the start is
    logged, and the delivery of ten classes is left for later. *)
Lemma replay_step (w : World) (e : QueueEntry) :
  modelLoaded (self w) = true ->
  topKPredictions (self w) = JNumQ 10 ->
  ((exists p, imgToPredict e = JImage p) \/
   (exists p, imgToPredict e = JVideo p) \/
   imgToPredict e = JNull) ->
  (forall p, imgToPredict e = JVideo p -> truthy (video (self w)) = true) ->
  predict' w (imgToPredict e) (num e) (callback e)
  = mkWorld (self w) (loading w) (onReady w)
      (microtasks w ++ replayPending' (self w) e)
      (log w ++ [startEvent resizeBilinear (self w) (replayImage (self w) e)]).
Proof.
  intros Hl Htk Hform Hv.
  unfold predict, predict_args, replayPending, startEvent, replayImage, replayCallback.
  destruct Hform as [[p Hp]|[[p Hp]|Hp]]; rewrite Hp.
  - cbn [fst snd]. rewrite Hl, Htk. cbn [negb].
    change (js_or JUndefined (JNumQ 10)) with (JNumQ 10).
    destruct (predict_logits resizeBilinear (self w) (JImage p)) as [v|err].
    + reflexivity.
    + unfold emit, with_self. cbn [self loading onReady microtasks log].
      now rewrite app_nil_r.
  - rewrite (Hv p Hp). cbn [fst snd]. rewrite Hl, Htk. cbn [negb].
    change (js_or JUndefined (JNumQ 10)) with (JNumQ 10).
    destruct (predict_logits resizeBilinear (self w) (video (self w))) as [v|err].
    + reflexivity.
    + unfold emit, with_self. cbn [self loading onReady microtasks log].
      now rewrite app_nil_r.
  - cbn [fst snd]. rewrite Hl, Htk. cbn [negb].
    change (js_or JNull (JNumQ 10)) with (JNumQ 10).
    destruct (predict_logits resizeBilinear (self w) (video (self w))) as [v|err].
    + reflexivity.
    + unfold emit, with_self. cbn [self loading onReady microtasks log].
      now rewrite app_nil_r.
Qed.

Lemma replay_exact (entries : list QueueEntry) (w : World) :
  modelLoaded (self w) = true ->
  topKPredictions (self w) = JNumQ 10 ->
  Forall (fun e => (exists p, imgToPredict e = JImage p) \/
                   (exists p, imgToPredict e = JVideo p) \/
                   imgToPredict e = JNull) entries ->
  Forall (fun e => forall p, imgToPredict e = JVideo p -> truthy (video (self w)) = true)
         entries ->
  replay' entries w
  = mkWorld (self w) (loading w) (onReady w)
      (microtasks w ++ flat_map (replayPending' (self w)) entries)
      (log w ++ map (fun e => startEvent resizeBilinear (self w)
                                (replayImage (self w) e)) entries).
Proof.
  revert w. induction entries as [|e entries IH]; intros w Hl Htk Hform Hall.
  - cbn [fold_left flat_map map]. rewrite !app_nil_r. symmetry. apply World_eta.
  - inversion Hform as [|? ? Hf Hforms]; subst.
    inversion Hall as [|? ? He Hrest]; subst.
    cbn [fold_left]. rewrite (replay_step w e Hl Htk Hf He).
    rewrite IH; cbn [self loading onReady microtasks log]; try assumption.
    cbn [flat_map map]. rewrite <- !app_assoc. reflexivity.
Qed.

Lemma flat_map_replayPending (c : ImageClassifier) (entries : list QueueEntry) :
  flat_map (deliveryOf IMAGENET_CLASSES) (flat_map (replayPending' c) entries)
  = flat_map (replayDelivery' c) entries.
Proof.
  induction entries as [|e entries IH]; [reflexivity|].
  cbn [flat_map]. rewrite flat_map_app, IH. f_equal.
  unfold replayPending, replayDelivery.
  destruct (predict_logits resizeBilinear c (replayImage c e)); [|reflexivity].
  cbn [flat_map]. now rewrite app_nil_r.
Qed.

Lemma replayDelivery_not_called (c : ImageClassifier) (entries : list QueueEntry) :
  filter isCalled (flat_map (replayDelivery' c) entries) = [].
Proof.
  induction entries as [|e entries IH]; [reflexivity|].
  cbn [flat_map]. rewrite filter_app, IH, app_nil_r.
  unfold replayDelivery.
  destruct (predict_logits resizeBilinear c (replayImage c e)); [|reflexivity].
  apply delivered_not_called.
Qed.

(** A call of [predict] on a loaded instance, run to its end. *)
Lemma step_served (w : World) (a b cb : jsval) :
  modelLoaded (self w) = true -> microtasks w = [] ->
  step' w (CallPredict a b cb)
  = mkWorld (afterCall processVideo (self w) (a, b, cb)) (loading w) (onReady w) []
      (log w ++ servedCall' (self w) (a, b, cb)).
Proof.
  intros Hl Hm. cbn [step]. rewrite runMicrotasks_exact.
  unfold predict, servedCall, afterCall.
  pose proof (predict_args_frame processVideo (self w) a (default_param b JNull)
                (default_param cb JNull)) as [Hc _].
  destruct (predict_args processVideo (self w) a (default_param b JNull)
              (default_param cb JNull)) as [[[c1 img] nc] cbk].
  cbn [fst snd] in *.
  assert (Hl1 : modelLoaded c1 = true).
  { rewrite <- Hl. exact (f_equal (fun t => snd (fst (fst (fst t)))) Hc). }
  rewrite Hl1. cbn [negb].
  destruct (predict_logits resizeBilinear c1 img) as [v|e].
  - unfold defer, emit, with_self.
    cbn [microtasks self loading onReady log]. rewrite Hm.
    cbn [app flat_map]. unfold deliveryOf. cbn [p_values p_topK p_callback].
    rewrite app_nil_r, <- app_assoc. reflexivity.
  - unfold emit, with_self.
    cbn [microtasks self loading onReady log]. rewrite Hm.
    cbn [flat_map]. rewrite app_nil_r. reflexivity.
Qed.

Lemma afterCall_loaded (c : ImageClassifier) (call : jsval * jsval * jsval) :
  modelLoaded (afterCall processVideo c call) = modelLoaded c.
Proof.
  destruct call as [[a b] cb]. unfold afterCall.
  destruct (predict_args_frame processVideo c a (default_param b JNull)
              (default_param cb JNull)) as [Hc _].
  exact (f_equal (fun t => snd (fst (fst (fst t)))) Hc).
Qed.

Lemma run_served (post : list (jsval * jsval * jsval)) (w : World) :
  modelLoaded (self w) = true -> microtasks w = [] ->
  log (run' w (predictCalls post)) = log w ++ served' (self w) post.
Proof.
  revert w. induction post as [|[[a b] cb] post IH]; intros w Hl Hm.
  - cbn [predictCalls map run fold_left served]. now rewrite app_nil_r.
  - change (run' w (predictCalls ((a, b, cb) :: post)))
      with (run' (step' w (CallPredict a b cb)) (predictCalls post)).
    rewrite (step_served w a b cb Hl Hm).
    rewrite IH; cbn [self microtasks log].
    + cbn [served]. now rewrite <- app_assoc.
    + now rewrite afterCall_loaded.
    + reflexivity.
Qed.

Lemma served_not_called (post : list (jsval * jsval * jsval)) (c : ImageClassifier) :
  filter isCalled (served' c post) = [].
Proof.
  revert c. induction post as [|[[a b] cb] post IH]; intros c; [reflexivity|].
  cbn [served]. rewrite filter_app, IH, app_nil_r.
  unfold servedCall.
  destruct (predict_logits _ _ _) as [v|e]; [|reflexivity].
  cbn [filter isCalled]. apply delivered_not_called.
Qed.


End Queue.

Example replay_sample_log :
  let w0 := construct same_frames JUndefined noOptions (JFun 9 0) in
  let w1 := run sample_classes (uniform_model 12) zero_embedding flat_resize
              same_frames w0 (predictCalls sample_early) in
  let w3 := run sample_classes (uniform_model 12) zero_embedding flat_resize
              same_frames w1 (LoadDone :: predictCalls sample_late) in
  map (fun e => (num e, callback e)) (waitingPredictions (self w1))
  = [(JNumQ 10, JFun 1 1); (JNumQ 2, JFun 2 1); (JNumQ 10, JFun 3 1)] /\
  map eventTag (log w3)
  = [("inferred", 1, 1); ("rejected", 0, 0); ("inferred", 1, 2);
     ("called", 9, 0);
     ("called with", 1, 10); ("called with", 3, 10);
     ("inferred", 1, 3); ("called with", 4, 10)]%string.
Proof. vm_compute. split; reflexivity. Qed.



(* ================================================================== *)
(** * Further properties of the class *)

(** ** getTopKClasses: what is kept and what is returned *)

Lemma StronglySorted_app_cross {A : Type} (R : A -> A -> Prop) (l1 l2 : list A) :
  StronglySorted R (l1 ++ l2) ->
  forall a b, In a l1 -> In b l2 -> R a b.
Proof.
  induction l1 as [|x l1 IH]; simpl; intros Hs a b Ha Hb; [contradiction|].
  inversion Hs as [|? ? Hs' Hx]; subst.
  destruct Ha as [<-|Ha].
  - rewrite Forall_forall in Hx. apply Hx. apply in_or_app. now right.
  - now apply IH.
Qed.

Lemma valuesAndIndicesFrom_In (i : nat) (values : list Q) (j : nat) (v : Q) :
  nth_error values j = Some v ->
  In (mkVI v (i + j)) (valuesAndIndicesFrom i values).
Proof.
  revert i j. induction values as [|x values IH]; intros i [|j] H; simpl in *;
    try discriminate.
  - injection H as <-. left. now rewrite Nat.add_0_r.
  - right. replace (i + S j) with (S i + j) by lia. now apply IH.
Qed.

Lemma indexBefore_NoDup (l : list ValueIndex) :
  StronglySorted indexBefore l -> NoDup (map index l).
Proof.
  induction 1 as [|x l Hs IH Hx]; simpl; constructor; [|assumption].
  intros Hin. apply in_map_iff in Hin. destruct Hin as [y [Hy Hin]].
  rewrite Forall_forall in Hx. specialize (Hx y Hin). unfold indexBefore in Hx. lia.
Qed.

Lemma array_sort_indices_NoDup (values : list Q) :
  NoDup (map index (array_sort byValueDesc (valuesAndIndices values))).
Proof.
  eapply Permutation_NoDup.
  - apply Permutation_map. symmetry. apply array_sort_perm.
  - apply indexBefore_NoDup, valuesAndIndicesFrom_sorted.
Qed.



Lemma fillTopK_stored (sorted : list ValueIndex) (len count : nat)
  (top : list ValueIndex) :
  fillTopK sorted len count = Ok top ->
  count <= length sorted /\ length top = Nat.min len count /\
  Forall (fun vi => In vi sorted) top.
Proof.
  unfold fillTopK. destruct (Nat.leb_spec count (length sorted)) as [Hc|Hc];
    [|discriminate].
  intros H. injection H as <-.
  split; [assumption|]. split; [now rewrite length_map, length_seq|].
  rewrite Forall_map, Forall_forall. intros i Hi. apply in_seq in Hi.
  apply nth_In. lia.
Qed.

Lemma sorted_genuine (values : list Q) :
  Forall (fun vi => nth_error values (index vi) = Some (value vi))
    (array_sort byValueDesc (valuesAndIndices values)).
Proof.
  eapply Permutation_Forall; [symmetry; apply array_sort_perm|].
  eapply Forall_impl; [|apply (valuesAndIndicesFrom_genuine 0)].
  simpl. intros vi [_ H]. now rewrite Nat.sub_0_r in H.
Qed.

(** The loop runs at least as often as the arrays are long, unless the
    count is a function. *)
Lemma neverStored_not_function (CLASSES : list string) (values : list Q)
  (topK : jsval) :
  is_function topK = false -> neverStored CLASSES values topK = [].
Proof.
  intros Hf. unfold neverStored.
  destruct (typedArrayLength (lengthLimit values) topK) as [len|] eqn:E;
    [|reflexivity].
  assert (Hnum : forall q,
            (if ((Qtrunc q <? 0)%Z || (lengthLimit values <? Qtrunc q)%Z)%bool
             then Throw RangeError else Ok (Z.to_nat (Qtrunc q))) = Ok len ->
            len <= Z.to_nat (Qceiling q)).
  { intros q Hq.
    destruct (Qtrunc q <? 0)%Z eqn:Et; [discriminate|]. cbn [orb] in Hq.
    destruct (lengthLimit values <? Qtrunc q)%Z; [discriminate|]. injection Hq as <-.
    apply Z.ltb_ge in Et. apply Z2Nat.inj_le; [assumption| |].
    - unfold Qtrunc in *. destruct (Qle_bool 0 q); [|assumption].
      pose proof (Qle_floor_ceiling q) as H. rewrite <- Zle_Qle in H. lia.
    - unfold Qtrunc. destruct (Qle_bool 0 q); [|lia].
      pose proof (Qle_floor_ceiling q) as H. rewrite <- Zle_Qle in H. lia. }
  assert (Hle : len <= loopCount topK).
  { unfold typedArrayLength, loopCount in *.
    destruct topK as [| |b|n|p|p|p|f a]; cbn [toNumber] in *;
      try discriminate Hf; try (injection E as <-; lia);
      try (now apply Hnum).
    destruct n as [q|]; cbv iota beta in *;
      [now apply Hnum | injection E as <-; lia]. }
  replace (len - loopCount topK) with 0 by lia. reflexivity.
Qed.

(** X2.  What [getTopKClasses] returns, for any count, when the label
    table has a name for every output of the network.  With a count that
    is not a function every entry pairs the probability of some class with
    the name of that same class, and no name is undefined.  With a
    function for a count, as in [predict(gotResults)], nothing is ranked:
    the list has as many entries as the function has parameters, each one
    the first label with NaN for a probability. *)
Theorem getTopKClasses_names_defined
  (CLASSES : list string) (values : list Q) (topK cb : jsval)
  (results : list ClassProb) (evs : list Event) :
  length values <= length CLASSES ->
  getTopKClasses CLASSES values topK cb = Ok (results, evs) ->
  match topK with
  | JFun _ arity => results = repeat (mkCP (nth_error CLASSES 0) NaN) arity
  | _ =>
      Forall (fun cp => exists i v name,
                          nth_error values i = Some v /\
                          probability cp = Fin v /\
                          nth_error CLASSES i = Some name /\
                          className cp = Some name) results
  end.
Proof.
  intros Hlen H. unfold getTopKClasses in H.
  destruct (rankTopK values topK) as [top|] eqn:Hr; [|discriminate].
  cbn [bind] in H. cbv zeta in H.
  destruct (callIfSet cb _); cbn [bind] in H; [|discriminate].
  injection H as <- _.
  assert (Hgen : is_function topK = false ->
            Forall (fun cp => exists i v name,
                                nth_error values i = Some v /\
                                probability cp = Fin v /\
                                nth_error CLASSES i = Some name /\
                                className cp = Some name)
              (topClassesAndProbs CLASSES top ++ neverStored CLASSES values topK)).
  { intros Hf. rewrite (neverStored_not_function _ _ _ Hf), app_nil_r.
    unfold rankTopK in Hr.
    destruct (typedArrayLength (lengthLimit values) topK) as [len|];
      [|discriminate].
    cbn [bind] in Hr. apply fillTopK_stored in Hr. destruct Hr as (_ & _ & Hin).
    unfold topClassesAndProbs. rewrite Forall_map.
    rewrite Forall_forall in *. intros vi Hvi.
    pose proof (sorted_genuine values) as Hsg. rewrite Forall_forall in Hsg.
    specialize (Hsg vi (Hin vi Hvi)). simpl.
    assert (Hi : index vi < length values)
      by (apply nth_error_Some; rewrite Hsg; discriminate).
    destruct (nth_error CLASSES (index vi)) as [name|] eqn:Hn.
    - exists (index vi), (value vi), name. repeat split; assumption.
    - apply nth_error_None in Hn. lia. }
  destruct topK as [| |b|n|p|p|p|f ar]; try (apply Hgen; reflexivity).
  unfold rankTopK in Hr. cbn [typedArrayLength bind] in Hr.
  apply fillTopK_stored in Hr. destruct Hr as (_ & Hl & _).
  change (loopCount (JFun f ar)) with 0 in Hl. rewrite Nat.min_0_r in Hl.
  destruct top; [|discriminate Hl].
  unfold neverStored. cbn [typedArrayLength float32Initial topClassesAndProbs map app].
  change (loopCount (JFun f ar)) with 0. now rewrite Nat.sub_0_r.
Qed.

Lemma getTopKClasses_names_defined_witness :
  length sample_values <= length sample_classes /\
  getTopKClasses sample_classes sample_values (JNumQ (natQ 2)) JNull
  = Ok ([mkCP (Some "goldfish") (Fin (5 # 10));
         mkCP (Some "tiger shark") (Fin (5 # 10))]%string, []) /\
  Forall (fun cp => exists i v name,
                      nth_error sample_values i = Some v /\
                      probability cp = Fin v /\
                      nth_error sample_classes i = Some name /\
                      className cp = Some name)
    [mkCP (Some "goldfish") (Fin (5 # 10));
     mkCP (Some "tiger shark") (Fin (5 # 10))]%string.
Proof.
  assert (H1 : length sample_values <= length sample_classes) by (simpl; lia).
  assert (H2 : getTopKClasses sample_classes sample_values (JNumQ (natQ 2)) JNull
               = Ok ([mkCP (Some "goldfish") (Fin (5 # 10));
                      mkCP (Some "tiger shark") (Fin (5 # 10))]%string, []))
    by reflexivity.
  exact (conj H1 (conj H2
           (getTopKClasses_names_defined sample_classes sample_values
              (JNumQ (natQ 2)) JNull _ _ H1 H2))).
Defined.

(** ** getTopKClasses: counts that are not positive integers *)

Lemma Qtrunc_negative (q : Q) :
  (Qtrunc q <? 0)%Z = true <-> (q <= -1)%Q.
Proof.
  unfold Qtrunc. destruct (Qle_bool 0 q) eqn:E.
  - apply Qle_bool_iff in E.
    pose proof (Qfloor_resp_le 0 q E) as H. change (Qfloor 0) with 0%Z in H.
    split; intros Hc; [apply Z.ltb_lt in Hc; lia | lra].
  - split; intros Hc.
    + apply Z.ltb_lt in Hc.
      pose proof (Qle_ceiling q) as H.
      assert (H1 : (inject_Z (Qceiling q) <= inject_Z (-1))%Q)
        by (rewrite <- Zle_Qle; lia).
      change (inject_Z (-1)) with (-1)%Q in H1. lra.
    + apply Z.ltb_lt.
      pose proof (Qceiling_resp_le q (-1) Hc) as H.
      change (Qceiling (-1)) with (-1)%Z in H. lia.
Qed.

Lemma Qtrunc_length (q : Q) :
  (Qtrunc q <? 0)%Z = false -> Z.to_nat (Qtrunc q) = Z.to_nat (Qfloor q).
Proof.
  unfold Qtrunc. destruct (Qle_bool 0 q) eqn:E; [reflexivity|].
  intros Hc. apply Z.ltb_ge in Hc.
  assert (Hq : (q <= 0)%Q).
  { destruct (Qlt_le_dec 0 q) as [Hlt|Hle]; [|assumption].
    assert (Ht : Qle_bool 0 q = true) by (apply Qle_bool_iff; lra). congruence. }
  pose proof (Qceiling_resp_le q 0 Hq) as H. change (Qceiling 0) with 0%Z in H.
  pose proof (Qle_floor_ceiling q) as H'.
  rewrite <- Zle_Qle in H'.
  lia.
Qed.

Lemma maxIndex_positive : (0 < maxIndex)%Z.
Proof. reflexivity. Qed.

Lemma Qtrunc_above (q : Q) :
  (Qtrunc q <? 0)%Z = false ->
  ((maxIndex <? Qtrunc q)%Z = true <-> (inject_Z (maxIndex + 1) <= q)%Q).
Proof.
  pose proof maxIndex_positive as Hpos.
  unfold Qtrunc. destruct (Qle_bool 0 q) eqn:E; intros Ht; apply Z.ltb_ge in Ht.
  - split; intros H.
    + apply Z.ltb_lt in H.
      apply Qle_trans with (inject_Z (Qfloor q)); [|apply Qfloor_le].
      rewrite <- Zle_Qle. lia.
    + apply Z.ltb_lt.
      pose proof (Qfloor_resp_le _ _ H) as H'. rewrite Qfloor_Z in H'. lia.
  - assert (Hq : (q < 0)%Q).
    { destruct (Qlt_le_dec q 0) as [|Hle]; [assumption|].
      assert (Hc : Qle_bool 0 q = true) by (now apply Qle_bool_iff). congruence. }
    pose proof (Qceiling_resp_le q 0 (Qlt_le_weak _ _ Hq)) as Hc.
    change (Qceiling 0) with 0%Z in Hc.
    split; intros H.
    + apply Z.ltb_lt in H. lia.
    + exfalso.
      assert (H0 : (0 < inject_Z (maxIndex + 1))%Q).
      { change 0%Q with (inject_Z 0). rewrite <- Zlt_Qlt. lia. }
      lra.
Qed.

(** X3.  [getTopKClasses] with any number [q] for a count, on at most
    2^53 - 1 probabilities.  A count of -1 or less and a count of 2^53 or
    more are refused with a RangeError when the typed arrays are created.
    In between the arrays have [floor q] entries and the loop runs
    [ceil q] times: the call returns [floor q] entries when the network
    has at least [ceil q] outputs; when it has fewer the call throws, even
    when [floor q] entries were available, with a TypeError from the read
    past the end of the sorted list, unless the typed array was already
    refused with a RangeError. *)
Theorem getTopKClasses_any_count
  (CLASSES : list string) (values : list Q) (q : Q) (cb : jsval) :
  callable_or_unset cb = true ->
  (Z.of_nat (length values) <= maxIndex)%Z ->
  match getTopKClasses CLASSES values (JNumQ q) cb with
  | Ok (results, _) =>
      (-1 < q)%Q /\ (q < inject_Z (maxIndex + 1))%Q /\
      Z.to_nat (Qceiling q) <= length values /\
      length results = Z.to_nat (Qfloor q)
  | Throw e =>
      (((q <= -1)%Q \/ (inject_Z (maxIndex + 1) <= q)%Q) /\ e = RangeError) \/
      ((-1 < q)%Q /\ (q < inject_Z (maxIndex + 1))%Q /\
       length values < Z.to_nat (Qceiling q) /\
       (e = TypeError \/ e = RangeError))
  end.
Proof.
  intros Hcb Hreal.
  assert (Hlimit : lengthLimit values = maxIndex) by (unfold lengthLimit; lia).
  unfold getTopKClasses.
  rewrite (neverStored_not_function CLASSES values (JNumQ q) eq_refl).
  unfold rankTopK, JNumQ.
  cbn [typedArrayLength toNumber loopCount]. rewrite Hlimit.
  destruct (Qtrunc q <? 0)%Z eqn:Et.
  - apply Qtrunc_negative in Et. simpl. left. split; [now left | reflexivity].
  - assert (Hq : (-1 < q)%Q).
    { destruct (Qlt_le_dec (-1) q) as [|Hle]; [assumption|].
      apply Qtrunc_negative in Hle. congruence. }
    cbn [orb].
    destruct (maxIndex <? Qtrunc q)%Z eqn:Em.
    + apply (Qtrunc_above q Et) in Em. simpl. left. split; [now right | reflexivity].
    + assert (Hq' : (q < inject_Z (maxIndex + 1))%Q).
      { destruct (Qlt_le_dec q (inject_Z (maxIndex + 1))) as [|Hle]; [assumption|].
        apply (Qtrunc_above q Et) in Hle. congruence. }
      cbn [bind]. unfold fillTopK.
      rewrite array_sort_length. unfold valuesAndIndices.
      rewrite valuesAndIndicesFrom_length.
      destruct (Nat.leb_spec (Z.to_nat (Qceiling q)) (length values)) as [Hc|Hc].
      * cbn [bind]. cbv zeta. rewrite app_nil_r.
        match goal with
        | |- context [callIfSet cb ?r] =>
            destruct (callIfSet_callable cb r Hcb) as [evs ->]
        end.
        cbn [bind]. split; [assumption|]. split; [assumption|]. split; [assumption|].
        unfold topClassesAndProbs. rewrite !length_map, length_seq.
        rewrite (Qtrunc_length q Et).
        pose proof (Qle_floor_ceiling q) as H. rewrite <- Zle_Qle in H. lia.
      * cbn [bind]. right. split; [assumption|]. split; [assumption|].
        split; [assumption | now left].
Qed.

Lemma getTopKClasses_any_count_witness :
  callable_or_unset JNull = true /\
  (Z.of_nat (length [6 # 10; 4 # 10]%Q) <= maxIndex)%Z /\
  match getTopKClasses sample_classes [6 # 10; 4 # 10]%Q (JNumQ (5 # 2)) JNull with
  | Ok (results, _) =>
      (-1 < 5 # 2)%Q /\ (5 # 2 < inject_Z (maxIndex + 1))%Q /\
      Z.to_nat (Qceiling (5 # 2)) <= length [6 # 10; 4 # 10]%Q /\
      length results = Z.to_nat (Qfloor (5 # 2))
  | Throw e =>
      (((5 # 2 <= -1)%Q \/ (inject_Z (maxIndex + 1) <= 5 # 2)%Q) /\ e = RangeError) \/
      ((-1 < 5 # 2)%Q /\ (5 # 2 < inject_Z (maxIndex + 1))%Q /\
       length [6 # 10; 4 # 10]%Q < Z.to_nat (Qceiling (5 # 2)) /\
       (e = TypeError \/ e = RangeError))
  end.
Proof.
  assert (H : callable_or_unset JNull = true) by reflexivity.
  assert (H' : (Z.of_nat (length [6 # 10; 4 # 10]%Q) <= maxIndex)%Z)
    by (vm_compute; discriminate).
  exact (conj H (conj H'
           (getTopKClasses_any_count sample_classes [6 # 10; 4 # 10]%Q (5 # 2) JNull H H'))).
Defined.

Example getTopKClasses_fraction_past_end :
  getTopKClasses sample_classes [6 # 10; 4 # 10]%Q (JNumQ (5 # 2)) JNull = Throw TypeError /\
  getTopKClasses sample_classes [6 # 10; 4 # 10]%Q (JNumQ (-2)) JNull = Throw RangeError /\
  getTopKClasses sample_classes [6 # 10; 4 # 10]%Q (JNumQ (- (1 # 2))) JNull = Ok ([], []) /\
  getTopKClasses sample_classes [6 # 10; 4 # 10]%Q (JNumQ (inject_Z (2 ^ 53))) JNull
  = Throw RangeError.
Proof. repeat split. Qed.

(** ** cropImage and imgToTensor: bounds *)

Lemma natQ_le (a b : nat) : a <= b -> (natQ a <= natQ b)%Q.
Proof. intros H. unfold natQ. rewrite <- Zle_Qle. lia. Qed.

(** X4.  The square cut by [cropImage] lies inside the image: both
    offsets are at least 0, offset plus side stays within the height and
    the width, and one of the two offsets is 0 (the crop only shortens the
    longer dimension). *)
Theorem cropImage_within_image (img : Tensor) (H W C : nat) :
  shape img = [H; W; C] ->
  cropSize img <= H /\ cropSize img <= W /\
  (0 <= cropBeginHeight img)%Q /\
  (cropBeginHeight img + natQ (cropSize img) <= natQ H)%Q /\
  (0 <= cropBeginWidth img)%Q /\
  (cropBeginWidth img + natQ (cropSize img) <= natQ W)%Q /\
  ((cropBeginHeight img == 0)%Q \/ (cropBeginWidth img == 0)%Q).
Proof.
  intros Hs. unfold cropBeginHeight, cropBeginWidth, cropSize. rewrite Hs.
  cbn [nth]. cbv zeta.
  pose proof (Nat.le_min_l H W) as HlH. pose proof (Nat.le_min_r H W) as HlW.
  pose proof (natQ_le _ _ HlH) as HqH. pose proof (natQ_le _ _ HlW) as HqW.
  assert (Hh : (natQ H / 2 - natQ (Nat.min H W) / 2
                == (natQ H - natQ (Nat.min H W)) / 2)%Q) by field.
  assert (Hw : (natQ W / 2 - natQ (Nat.min H W) / 2
                == (natQ W - natQ (Nat.min H W)) / 2)%Q) by field.
  set (h := natQ H) in *. set (w := natQ W) in *. set (s := natQ (Nat.min H W)) in *.
  assert (Hdh : ((h - s) / 2 * 2 == h - s)%Q) by field.
  assert (Hdw : ((w - s) / 2 * 2 == w - s)%Q) by field.
  set (dh := ((h - s) / 2)%Q) in *. set (dw := ((w - s) / 2)%Q) in *.
  split; [assumption|]. split; [assumption|].
  rewrite Hh, Hw.
  split; [lra|]. split; [lra|]. split; [lra|]. split; [lra|].
  destruct (Nat.le_ge_cases H W) as [Hle|Hle].
  - left. assert (Hm : s = h) by (unfold s, h; now rewrite Nat.min_l). rewrite Hm in Hdh. lra.
  - right. assert (Hm : s = w) by (unfold s, w; now rewrite Nat.min_r). rewrite Hm in Hdw. lra.
Qed.

Lemma cropImage_within_image_witness :
  shape wide_tensor = [2; 4; 3] /\
  (0 <= cropBeginWidth wide_tensor)%Q /\
  (cropBeginWidth wide_tensor + natQ (cropSize wide_tensor) <= natQ 4)%Q.
Proof.
  assert (H : shape wide_tensor = [2; 4; 3]) by reflexivity.
  destruct (cropImage_within_image wide_tensor 2 4 3 H)
    as (_ & _ & _ & _ & H1 & H2 & _).
  exact (conj H (conj H1 H2)).
Defined.

(** X5.  [cropImage] changes nothing in a square image: the tensor it
    returns is the tensor it was given. *)
Theorem cropImage_square_unchanged (p : Pixels) (img : Tensor) :
  pheight p = pwidth p ->
  fromPixels (JImage p) = Ok img ->
  cropImage img = Ok img.
Proof.
  intros Hsq Himg. simpl in Himg. injection Himg as <-.
  unfold cropImage, slice3. cbn [shape].
  assert (Hsize : cropSize
            (mkTensor [pheight p; pwidth p; 3]
               (tabulate3 (pheight p) (pwidth p) 3
                  (fun i j c => inject_Z (rgb p i j c)))) = pheight p).
  { unfold cropSize. cbn [shape nth]. rewrite <- Hsq. apply Nat.min_id. }
  rewrite Hsize.
  rewrite (asIndex_natQ _ 0).
  2:{ unfold cropBeginHeight. rewrite Hsize. cbn [shape nth]. cbv zeta.
      change (natQ 0) with 0%Q. field. }
  rewrite (asIndex_natQ _ 0).
  2:{ unfold cropBeginWidth. rewrite Hsize. cbn [shape nth]. cbv zeta.
      rewrite <- Hsq. change (natQ 0) with 0%Q. field. }
  change (asIndex 0) with (Some 0). cbn [Nat.add].
  rewrite Nat.leb_refl.
  replace (pheight p <=? pwidth p) with true
    by (symmetry; apply Nat.leb_le; lia).
  cbn [andb Nat.leb data]. f_equal.
  rewrite <- Hsq at 1. f_equal.
  rewrite <- Hsq. apply tabulate3_ext. intros i j c Hi Hj Hc.
  rewrite Hsq. rewrite nth_tabulate3; [reflexivity|lia|lia|assumption].
Qed.

Lemma cropImage_square_unchanged_witness :
  pheight (plain_image 2 2 7) = pwidth (plain_image 2 2 7) /\
  cropImage (mkTensor [2; 2; 3]
               (tabulate3 2 2 3 (fun i j c => inject_Z (rgb (plain_image 2 2 7) i j c))))
  = Ok (mkTensor [2; 2; 3]
          (tabulate3 2 2 3 (fun i j c => inject_Z (rgb (plain_image 2 2 7) i j c)))).
Proof.
  assert (H : pheight (plain_image 2 2 7) = pwidth (plain_image 2 2 7)) by reflexivity.
  exact (conj H (cropImage_square_unchanged (plain_image 2 2 7) _ H eq_refl)).
Defined.

Lemma tabulate3_Forall (P : Q -> Prop) (d0 d1 d2 : nat) (f : nat -> nat -> nat -> Q) :
  (forall i j c, P (f i j c)) -> Forall P (tabulate3 d0 d1 d2 f).
Proof.
  intros H. unfold tabulate3. rewrite Forall_forall. intros x Hx.
  apply in_flat_map in Hx. destruct Hx as [i [_ Hx]].
  apply in_flat_map in Hx. destruct Hx as [j [_ Hx]].
  apply in_map_iff in Hx. destruct Hx as [c [<- _]]. apply H.
Qed.

Lemma nth_Forall {A : Type} (P : A -> Prop) (l : list A) (d : A) (n : nat) :
  Forall P l -> P d -> P (nth n l d).
Proof.
  intros Hl Hd. destruct (Nat.lt_ge_cases n (length l)) as [H|H].
  - rewrite Forall_forall in Hl. apply Hl. now apply nth_In.
  - now rewrite nth_overflow.
Qed.

Lemma slice3_Forall (P : Q -> Prop) (t t' : Tensor) (b0 b1 b2 : Q) (s0 s1 s2 : nat) :
  Forall P (data t) -> P 0%Q ->
  slice3 t b0 b1 b2 s0 s1 s2 = Ok t' -> Forall P (data t').
Proof.
  intros Hl H0. unfold slice3.
  destruct (shape t) as [|d0 [|d1 [|d2 [|? ?]]]]; try discriminate.
  destruct (asIndex b0), (asIndex b1), (asIndex b2); try discriminate.
  destruct (_ && _)%bool; [|discriminate].
  intros H. injection H as <-. cbn [data].
  apply tabulate3_Forall. intros i j c. now apply nth_Forall.
Qed.

(** X6.  When every pixel value lies in 0..255, every value of the tensor
    of [imgToTensor] lies between -1 and 128/127: the top of the range is
    above 1. *)
Theorem imgToTensor_range (p : Pixels) (t : Tensor) :
  (forall i j c, (0 <= rgb p i j c <= 255)%Z) ->
  imgToTensor (JImage p) = Ok t ->
  Forall (fun x => (-1 <= x)%Q /\ (x <= 128 # 127)%Q) (data t).
Proof.
  intros Hpix Ht.
  destruct (imgToTensor_result _ _ Ht) as (pixels & cropped & Hp & Hc & _ & Hd).
  simpl in Hp. injection Hp as <-.
  assert (Hcrop : Forall (fun x => (0 <= x)%Q /\ (x <= 255)%Q) (data cropped)).
  { unfold cropImage in Hc. eapply slice3_Forall; [| |exact Hc].
    - cbn [data]. apply tabulate3_Forall. intros i j c.
      destruct (Hpix i j c) as [Hlo Hhi].
      split.
      + change 0%Q with (inject_Z 0). rewrite <- Zle_Qle. assumption.
      + change 255%Q with (inject_Z 255). rewrite <- Zle_Qle. assumption.
    - split; lra. }
  rewrite Hd, !Forall_map.
  eapply Forall_impl; [|exact Hcrop].
  intros x [Hlo Hhi].
  assert (Hx : (x / 127 * 127 == x)%Q) by field.
  set (y := (x / 127)%Q) in *. split; lra.
Qed.

Lemma imgToTensor_range_witness :
  (forall i j c, (0 <= rgb (plain_image 2 4 255) i j c <= 255)%Z) /\
  Forall (fun x => (-1 <= x)%Q /\ (x <= 128 # 127)%Q)
    (tabulate3 2 2 3
       (fun i j c =>
          (inject_Z (rgb (plain_image 2 4 255) ((2 - 2) / 2 + i) ((4 - 2) / 2 + j) c)
           / 127 - 1)%Q)).
Proof.
  assert (H : forall i j c, (0 <= rgb (plain_image 2 4 255) i j c <= 255)%Z)
    by (intros; simpl; lia).
  refine (conj H _).
  exact (imgToTensor_range (plain_image 2 4 255) _ H eq_refl).
Defined.

(** ** What each method leaves alone, continued *)

Lemma addImage_tidy_besideDataset (c : ImageClassifier) (label : Z) (input : jsval) :
  besideDataset (fst (addImage_tidy c label input)) = besideDataset c.
Proof.
  unfold addImage_tidy.
  destruct (_ <- imgToTensor _ ;; _) as [[prediction y]|e]; [|reflexivity].
  destruct (xs c) as [oldX|]; [|reflexivity].
  destruct (concat0 oldX prediction) as [newX|e]; [|reflexivity].
  destruct (ys c) as [oldY|]; [|reflexivity].
  destruct (concat0 oldY y); reflexivity.
Qed.

Lemma addImage_besideDataset (c : ImageClassifier) (label : Z) (cbk input : jsval) :
  besideDataset (fst (addImage c label cbk input)) = besideDataset c.
Proof.
  unfold addImage. destruct (modelLoaded c); [|reflexivity].
  pose proof (addImage_tidy_besideDataset c label (default_param input JNull)) as H.
  destruct (addImage_tidy c label (default_param input JNull)) as [c1 [u|e]];
    cbn [fst] in H; [|exact H].
  destruct (default_param cbk noop); exact H.
Qed.

Lemma train_besideHead (c : ImageClassifier) (onProgress : jsval) :
  besideHead (fst (train c onProgress)) = besideHead c.
Proof.
  unfold train. destruct (negb (hasAnyTrainedClass c)); [reflexivity|].
  cbn [xs set_customModel set_isPredicting].
  destruct (xs c) as [x|]; [|reflexivity].
  destruct (negb _); reflexivity.
Qed.

Lemma besideDataset_parts (c c' : ImageClassifier) :
  besideDataset c' = besideDataset c ->
  settings c' = settings c /\ video c' = video c /\
  waitingPredictions c' = waitingPredictions c /\
  customModel c' = customModel c /\ isPredicting c' = isPredicting c /\
  core c' = core c.
Proof.
  unfold besideDataset. intros H.
  repeat split;
    [exact (f_equal (fun t => snd (fst (fst (fst (fst t))))) H)
    |exact (f_equal (fun t => snd (fst (fst (fst t)))) H)
    |exact (f_equal (fun t => snd (fst (fst t))) H)
    |exact (f_equal (fun t => snd (fst t)) H)
    |exact (f_equal snd H)
    |exact (f_equal (fun t => fst (fst (fst (fst (fst t))))) H)].
Qed.

Lemma besideHead_parts (c c' : ImageClassifier) :
  besideHead c' = besideHead c ->
  settings c' = settings c /\ video c' = video c /\
  waitingPredictions c' = waitingPredictions c.
Proof.
  unfold besideHead. intros H.
  repeat split;
    [exact (f_equal (fun t => fst (fst t)) H)
    |exact (f_equal (fun t => snd (fst t)) H)
    |exact (f_equal snd H)].
Qed.

Lemma besideQueue_parts (c c' : ImageClassifier) :
  besideQueue c' = besideQueue c ->
  settings c' = settings c /\ customModel c' = customModel c /\
  isPredicting c' = isPredicting c.
Proof.
  unfold besideQueue. intros H.
  repeat split;
    [exact (f_equal (fun t => fst (fst t)) H)
    |exact (f_equal (fun t => snd (fst t)) H)
    |exact (f_equal snd H)].
Qed.

Section MoreFrames.
Variable IMAGENET_CLASSES : list string.
Variable loadedModel : Tensor -> outcome (list Q).
Variable conv_pw_13_relu : Tensor -> outcome (list Q).
Variable resizeBilinear : Tensor -> nat -> nat -> Tensor.
Variable processVideo : Pixels -> nat -> Pixels.

Abbreviation predict' := (predict resizeBilinear processVideo).
Abbreviation step' :=
  (step IMAGENET_CLASSES loadedModel conv_pw_13_relu resizeBilinear processVideo).
Abbreviation run' :=
  (run IMAGENET_CLASSES loadedModel conv_pw_13_relu resizeBilinear processVideo).
Abbreviation loadDone' :=
  (loadDone loadedModel conv_pw_13_relu resizeBilinear processVideo).
Abbreviation replay' :=
  (fold_left (fun w i => predict' w (imgToPredict i) (num i) (callback i))).

Lemma predict_args_keeps (c : ImageClassifier) (a b cb : jsval) :
  let c1 := fst (fst (fst (predict_args processVideo c a b cb))) in
  besideQueue c1 = besideQueue c /\
  waitingPredictions c1 = waitingPredictions c /\
  (truthy (video c) = true -> c1 = c) /\
  (video c1 = video c \/ exists p, video c1 = JVideo p).
Proof.
  unfold predict_args. destruct a; cbn [fst];
    try (repeat split; solve [reflexivity | now left]).
  destruct (truthy (video c)); cbn [fst].
  - repeat split; solve [reflexivity | now left].
  - repeat split; try reflexivity; try discriminate. right. eexists. reflexivity.
Qed.

(** [predict] changes the frame source and the queue, nothing else; it
    leaves the frame source alone once it is set, and the queue alone once
    the model is loaded. *)
Lemma predict_keeps (w : World) (a b cb : jsval) :
  besideQueue (self (predict' w a b cb)) = besideQueue (self w) /\
  (truthy (video (self w)) = true ->
   video (self (predict' w a b cb)) = video (self w)) /\
  (video (self (predict' w a b cb)) = video (self w) \/
   exists p, video (self (predict' w a b cb)) = JVideo p) /\
  (modelLoaded (self w) = true ->
   waitingPredictions (self (predict' w a b cb)) = waitingPredictions (self w)) /\
  loading (predict' w a b cb) = loading w /\
  onReady (predict' w a b cb) = onReady w.
Proof.
  unfold predict.
  pose proof (predict_args_keeps (self w) a (default_param b JNull)
                (default_param cb JNull)) as (Hq & Hw & Hv & Hv').
  pose proof (predict_args_frame processVideo (self w) a (default_param b JNull)
                (default_param cb JNull)) as [Hcore _].
  destruct (predict_args processVideo (self w) a (default_param b JNull)
              (default_param cb JNull)) as [[[c1 img] nc] cbk].
  cbn [fst] in *.
  assert (Hl : modelLoaded c1 = modelLoaded (self w))
    by (unfold core in Hcore; now inversion Hcore).
  rewrite Hl.
  destruct (modelLoaded (self w)) eqn:Hld; cbn [negb].
  - destruct (predict_logits resizeBilinear c1 img);
      cbn [self loading onReady emit defer with_self];
      (split; [assumption|]); (split; [intros Ht; now rewrite (Hv Ht)|]);
      (split; [assumption|]); (split; [intros _; assumption|]); split; reflexivity.
  - cbn [self loading onReady with_self].
    split; [exact Hq|].
    split; [intros Ht; now rewrite (Hv Ht)|].
    split; [exact Hv'|].
    split; [discriminate|]. split; reflexivity.
Qed.

Lemma replay_keeps (entries : list QueueEntry) (w : World) :
  besideQueue (self (replay' entries w)) = besideQueue (self w) /\
  (truthy (video (self w)) = true ->
   video (self (replay' entries w)) = video (self w)) /\
  (video (self (replay' entries w)) = video (self w) \/
   exists p, video (self (replay' entries w)) = JVideo p) /\
  (modelLoaded (self w) = true ->
   waitingPredictions (self (replay' entries w)) = waitingPredictions (self w)) /\
  loading (replay' entries w) = loading w /\
  onReady (replay' entries w) = onReady w.
Proof.
  revert w. induction entries as [|e entries IH]; intros w; cbn [fold_left].
  - repeat split; try reflexivity. now left.
  - destruct (predict_keeps w (imgToPredict e) (num e) (callback e))
      as (Hq & Hv & Hv' & Hw & Hl & Hr).
    destruct (predict_frame resizeBilinear processVideo w (imgToPredict e) (num e)
                (callback e)) as [Hcore _].
    destruct (IH (predict' w (imgToPredict e) (num e) (callback e)))
      as (Hq2 & Hv2 & Hv2' & Hw2 & Hl2 & Hr2).
    split; [congruence|].
    split.
    { intros Ht. rewrite Hv2; [now apply Hv | rewrite (Hv Ht); exact Ht]. }
    split.
    { destruct Hv2' as [Hs|Hs]; [|now right].
      rewrite Hs. exact Hv'. }
    split.
    { intros Hld. rewrite Hw2; [now apply Hw|].
      unfold core in Hcore. inversion Hcore. congruence. }
    split; congruence.
Qed.

Lemma loadDone_keeps (w : World) :
  besideQueue (self (loadDone' w)) = besideQueue (self w) /\
  (truthy (video (self w)) = true -> video (self (loadDone' w)) = video (self w)) /\
  (video (self (loadDone' w)) = video (self w) \/
   exists p, video (self (loadDone' w)) = JVideo p) /\
  waitingPredictions (self (loadDone' w)) = waitingPredictions (self w) /\
  loading (loadDone' w) = false /\
  onReady (loadDone' w) = onReady w.
Proof.
  unfold loadDone. destruct (loading w) eqn:Hl.
  2:{ repeat split; try reflexivity; try assumption. now left. }
  unfold loadModel.
  set (c1 := set_mobilenet (Some loadedModel) (self w)).
  assert (Hfail : forall e,
    let w' := emit [Rejected e] (settled (with_self c1 w)) in
    besideQueue (self w') = besideQueue (self w) /\
    (truthy (video (self w)) = true -> video (self w') = video (self w)) /\
    (video (self w') = video (self w) \/ exists p, video (self w') = JVideo p) /\
    waitingPredictions (self w') = waitingPredictions (self w) /\
    loading w' = false /\ onReady w' = onReady w).
  { intros e. simpl. repeat split; try reflexivity. now left. }
  assert (Hok :
    let w' := onLoaded resizeBilinear processVideo (settled (with_self c1 w))
                (truncated conv_pw_13_relu) in
    besideQueue (self w') = besideQueue (self w) /\
    (truthy (video (self w)) = true -> video (self w') = video (self w)) /\
    (video (self w') = video (self w) \/ exists p, video (self w') = JVideo p) /\
    waitingPredictions (self w') = waitingPredictions (self w) /\
    loading w' = false /\ onReady w' = onReady w).
  { unfold onLoaded. cbv zeta.
    match goal with
    | |- context [fold_left ?f ?l ?w0] =>
        destruct (replay_keeps l w0) as (Hq & Hv & Hv' & Hw & Hld & Hr);
        set (w3 := fold_left f l w0) in *
    end.
    cbn [self loading onReady emit].
    cbn [self loading onReady upd settled with_self] in Hq, Hv, Hv', Hw, Hld, Hr.
    split; [exact Hq|]. split; [exact Hv|]. split; [exact Hv'|].
    split; [exact (Hw eq_refl)|]. split; assumption. }
  destruct (truthy (video c1)).
  - destruct (_ <- imgToTensor (video c1) ;; callModel (mobilenet c1) _).
    + exact Hok.
    + apply Hfail.
  - exact Hok.
Qed.

(** What a call from outside leaves alone. *)
Lemma step_keeps (w : World) (call : Call) :
  settings (self (step' w call)) = settings (self w) /\
  (truthy (video (self w)) = true -> video (self (step' w call)) = video (self w)) /\
  (video (self (step' w call)) = video (self w) \/
   exists p, video (self (step' w call)) = JVideo p) /\
  (modelLoaded (self w) = true ->
   waitingPredictions (self (step' w call)) = waitingPredictions (self w)) /\
  onReady (step' w call) = onReady w /\
  (loading w = false -> loading (step' w call) = false) /\
  (microtasks w = [] -> microtasks (step' w call) = []).
Proof.
  destruct call as [label cbk input|onProgress|a b cb|]; cbn [step].
  - pose proof (addImage_besideDataset (self w) label cbk input) as H.
    apply besideDataset_parts in H. destruct H as (Hs & Hv & Hw & _).
    assert (Hself :
      self (match addImage (self w) label cbk input with
            | (c1, Ok evs) => emit evs (with_self c1 w)
            | (c1, Throw e) => emit [Rejected e] (with_self c1 w)
            end) = fst (addImage (self w) label cbk input) /\
      onReady (match addImage (self w) label cbk input with
               | (c1, Ok evs) => emit evs (with_self c1 w)
               | (c1, Throw e) => emit [Rejected e] (with_self c1 w)
               end) = onReady w /\
      loading (match addImage (self w) label cbk input with
               | (c1, Ok evs) => emit evs (with_self c1 w)
               | (c1, Throw e) => emit [Rejected e] (with_self c1 w)
               end) = loading w /\
      microtasks (match addImage (self w) label cbk input with
                  | (c1, Ok evs) => emit evs (with_self c1 w)
                  | (c1, Throw e) => emit [Rejected e] (with_self c1 w)
                  end) = microtasks w).
    { destruct (addImage (self w) label cbk input) as [c1 [evs|e]]; repeat split. }
    destruct Hself as (-> & -> & -> & ->). rewrite Hv, Hw.
    split; [assumption|]. split; [reflexivity|]. split; [now left|].
    split; [reflexivity|]. split; [reflexivity|]. split; intros Hx; exact Hx.
  - pose proof (train_besideHead (self w) onProgress) as H.
    apply besideHead_parts in H. destruct H as (Hs & Hv & Hw).
    assert (Hself :
      self (match train (self w) onProgress with
            | (c1, Ok _) => with_self c1 w
            | (c1, Throw e) => emit [Rejected e] (with_self c1 w)
            end) = fst (train (self w) onProgress) /\
      onReady (match train (self w) onProgress with
               | (c1, Ok _) => with_self c1 w
               | (c1, Throw e) => emit [Rejected e] (with_self c1 w)
               end) = onReady w /\
      loading (match train (self w) onProgress with
               | (c1, Ok _) => with_self c1 w
               | (c1, Throw e) => emit [Rejected e] (with_self c1 w)
               end) = loading w /\
      microtasks (match train (self w) onProgress with
                  | (c1, Ok _) => with_self c1 w
                  | (c1, Throw e) => emit [Rejected e] (with_self c1 w)
                  end) = microtasks w).
    { destruct (train (self w) onProgress) as [c1 [u|e]]; repeat split. }
    destruct Hself as (-> & -> & -> & ->). rewrite Hv, Hw.
    split; [assumption|]. split; [reflexivity|]. split; [now left|].
    split; [reflexivity|]. split; [reflexivity|]. split; intros Hx; exact Hx.
  - destruct (runMicrotasks_log IMAGENET_CLASSES (predict' w a b cb)) as (ds & -> & _).
    cbn [self loading onReady microtasks].
    destruct (predict_keeps w a b cb) as (Hq & Hv & Hv' & Hw & Hl & Hr).
    apply besideQueue_parts in Hq. destruct Hq as (Hs & _).
    split; [assumption|]. split; [assumption|]. split; [assumption|].
    split; [assumption|]. split; [assumption|]. split; [congruence | reflexivity].
  - destruct (runMicrotasks_log IMAGENET_CLASSES (loadDone' w)) as (ds & -> & _).
    cbn [self loading onReady microtasks].
    destruct (loadDone_keeps w) as (Hq & Hv & Hv' & Hw & Hl & Hr).
    apply besideQueue_parts in Hq. destruct Hq as (Hs & _).
    split; [assumption|]. split; [assumption|]. split; [assumption|].
    split; [intros _; assumption|]. split; [assumption|].
    split; [intros _; assumption | reflexivity].
Qed.

End MoreFrames.

(** ** Before the model is loaded, and when loading fails *)

Section Unloaded.
Variable IMAGENET_CLASSES : list string.
Variable loadedModel : Tensor -> outcome (list Q).
Variable conv_pw_13_relu : Tensor -> outcome (list Q).
Variable resizeBilinear : Tensor -> nat -> nat -> Tensor.
Variable processVideo : Pixels -> nat -> Pixels.

Abbreviation predict' := (predict resizeBilinear processVideo).
Abbreviation step' :=
  (step IMAGENET_CLASSES loadedModel conv_pw_13_relu resizeBilinear processVideo).
Abbreviation run' :=
  (run IMAGENET_CLASSES loadedModel conv_pw_13_relu resizeBilinear processVideo).
Abbreviation loadDone' :=
  (loadDone loadedModel conv_pw_13_relu resizeBilinear processVideo).

Lemma construct_unloaded (video0 : jsval) (options : Options) (callback0 : jsval) :
  unloaded (construct processVideo video0 options callback0) /\
  loading (construct processVideo video0 options callback0) = true /\
  log (construct processVideo video0 options callback0) = [] /\
  waitingPredictions (self (construct processVideo video0 options callback0)) = [].
Proof.
  pose proof (construct_queueInv processVideo video0 options callback0) as Hq.
  unfold unloaded. unfold construct in *.
  destruct video0; cbn in *; repeat split; try reflexivity; apply Hq.
Qed.

Lemma step_unloaded (w : World) (call : Call) :
  unloaded w ->
  loading w = false \/ isLoadDone call = false ->
  unloaded (step' w call) /\
  loading (step' w call) = loading w /\
  log (step' w call)
  = log w ++ (if isTrainCall call then [Rejected noExamples] else []) /\
  length (waitingPredictions (self (step' w call)))
  = length (waitingPredictions (self w)) + (if isPredictCall call then 1 else 0).
Proof.
  intros (Hl & Hany & Hxs & Hys & Hcm & Hm & Htk & Hq) Hcall.
  destruct call as [label cbk input|onProgress|a b cb|];
    cbn [step isTrainCall isPredictCall].
  - unfold addImage. rewrite Hl.
    cbn [self loading log emit with_self]. unfold unloaded.
    cbn [self microtasks]. rewrite app_nil_r, Nat.add_0_r.
    repeat split; try assumption; apply Hq.
  - unfold train. rewrite Hany. cbn [negb].
    cbn [self loading log emit with_self]. unfold unloaded.
    cbn [self microtasks]. rewrite Nat.add_0_r.
    repeat split; try assumption; apply Hq.
  - destruct (predict_unloaded resizeBilinear processVideo w a b cb Hl Htk Hq)
      as (e & Hw & Hwait & _ & Hq').
    destruct (predict_frame resizeBilinear processVideo w a b cb) as [Hcore Hdata].
    destruct (predict_keeps resizeBilinear processVideo w a b cb) as (Hbq & _).
    apply besideQueue_parts in Hbq. destruct Hbq as (_ & Hcm' & _).
    assert (Hm' : microtasks (predict' w a b cb) = []) by (rewrite Hw; exact Hm).
    rewrite (runMicrotasks_nil IMAGENET_CLASSES _ Hm').
    unfold core in Hcore. unfold dataset in Hdata.
    assert (Hl' : modelLoaded (self (predict' w a b cb)) = modelLoaded (self w))
      by (exact (f_equal (fun t => snd (fst (fst (fst t)))) Hcore)).
    assert (Htk' : topKPredictions (self (predict' w a b cb)) = topKPredictions (self w))
      by (exact (f_equal (fun t => snd (fst (fst (fst (fst t))))) Hcore)).
    assert (Hany' : hasAnyTrainedClass (self (predict' w a b cb))
                    = hasAnyTrainedClass (self w))
      by (exact (f_equal (fun t => fst (fst t)) Hdata)).
    assert (Hxs' : xs (self (predict' w a b cb)) = xs (self w))
      by (exact (f_equal (fun t => snd (fst t)) Hdata)).
    assert (Hys' : ys (self (predict' w a b cb)) = ys (self w))
      by (exact (f_equal snd Hdata)).
    split.
    { unfold unloaded. repeat split; try congruence. apply Hq'. apply Hq'. }
    split; [rewrite Hw; reflexivity|].
    split; [rewrite Hw; cbn [log]; now rewrite app_nil_r|].
    rewrite Hwait, length_app. reflexivity.
  - destruct Hcall as [Hload|Hc]; [|discriminate].
    assert (Hw : loadDone' w = w) by (unfold loadDone; now rewrite Hload).
    rewrite Hw, (runMicrotasks_nil IMAGENET_CLASSES w Hm).
    rewrite app_nil_r, Nat.add_0_r. unfold unloaded. repeat split; try assumption; apply Hq.
Qed.

Lemma run_unloaded_calls (calls : list Call) (w : World) :
  unloaded w ->
  loading w = false \/ forallb (fun c => negb (isLoadDone c)) calls = true ->
  unloaded (run' w calls) /\
  loading (run' w calls) = loading w /\
  log (run' w calls)
  = log w ++ map (fun _ => Rejected noExamples) (filter isTrainCall calls) /\
  length (waitingPredictions (self (run' w calls)))
  = length (waitingPredictions (self w)) + length (filter isPredictCall calls).
Proof.
  revert w. induction calls as [|call calls IH]; intros w Hu Hc.
  - cbn [run fold_left filter map length]. rewrite app_nil_r, Nat.add_0_r.
    split; [assumption|]. repeat split.
  - change (run' w (call :: calls)) with (run' (step' w call) calls).
    assert (Hc1 : loading w = false \/ isLoadDone call = false).
    { destruct Hc as [Hc|Hc]; [now left|right].
      cbn [forallb] in Hc. apply andb_prop in Hc. now apply negb_true_iff. }
    destruct (step_unloaded w call Hu Hc1) as (Hu' & Hld & Hlog & Hlen).
    assert (Hc2 : loading (step' w call) = false \/
                  forallb (fun c => negb (isLoadDone c)) calls = true).
    { destruct Hc as [Hc|Hc]; [left; congruence|right].
      cbn [forallb] in Hc. now apply andb_prop in Hc. }
    destruct (IH _ Hu' Hc2) as (Hu'' & Hld' & Hlog' & Hlen').
    split; [assumption|]. split; [congruence|].
    split.
    + rewrite Hlog', Hlog. cbn [filter].
      destruct (isTrainCall call); cbn [map]; rewrite <- app_assoc; reflexivity.
    + rewrite Hlen', Hlen. cbn [filter].
      destruct (isPredictCall call); cbn [length]; lia.
Qed.


Lemma loadModel_failed (c : ImageClassifier) :
  succeeded (snd (loadModel loadedModel conv_pw_13_relu c)) = false ->
  exists e,
    loadModel loadedModel conv_pw_13_relu c
    = (set_mobilenet (Some loadedModel) c, Throw e).
Proof.
  unfold loadModel. destruct (truthy (video (set_mobilenet (Some loadedModel) c))).
  - destruct (_ <- imgToTensor _ ;; callModel _ _) as [v|e]; [discriminate|].
    intros _. exists e. reflexivity.
  - discriminate.
Qed.

(** X8.  When the warm-up run of [loadModel] throws, the handler given to
    [then] never runs and nothing makes up for it: whatever is called
    afterwards, the model stays unloaded, nothing is added, every [train]
    call is rejected for want of examples, no callback is ever called (the
    constructor's one included) and the predictions stay in the queue,
    which only grows. *)
Theorem failed_load_never_recovers
  (video0 : jsval) (options : Options) (callback0 : jsval) (pre post : list Call) :
  let w1 := run' (construct processVideo video0 options callback0) pre in
  let w3 := run' (step' w1 LoadDone) post in
  forallb (fun c => negb (isLoadDone c)) pre = true ->
  succeeded (snd (loadModel loadedModel conv_pw_13_relu (self w1))) = false ->
  modelLoaded (self w3) = false /\
  xs (self w3) = None /\ ys (self w3) = None /\
  customModel (self w3) = None /\
  (exists e,
     log w3 = map (fun _ => Rejected noExamples) (filter isTrainCall pre)
              ++ [Rejected e]
              ++ map (fun _ => Rejected noExamples) (filter isTrainCall post)) /\
  length (waitingPredictions (self w3))
  = length (filter isPredictCall pre) + length (filter isPredictCall post).
Proof.
  intros w1 w3 Hpre Hfail.
  destruct (construct_unloaded video0 options callback0) as (Hu & Hld & Hlog & Hq).
  destruct (run_unloaded_calls pre _ Hu (or_intror Hpre))
    as (Hu1 & Hld1 & Hlog1 & Hlen1).
  fold w1 in Hu1, Hld1, Hlog1, Hlen1.
  rewrite Hld in Hld1. rewrite Hlog in Hlog1. rewrite Hq in Hlen1.
  cbn [app length Nat.add] in Hlog1, Hlen1.
  destruct (loadModel_failed _ Hfail) as [e He].
  pose proof Hu1 as (Hl & Hany & Hxs & Hys & Hcm & Hm & Htk & Hqi).
  assert (Hw2 : step' w1 LoadDone
                = emit [Rejected e]
                    (settled (with_self (set_mobilenet (Some loadedModel) (self w1)) w1))).
  { cbn [step]. unfold loadDone. rewrite Hld1, He.
    apply runMicrotasks_nil. exact Hm. }
  assert (Hu2 : unloaded (step' w1 LoadDone)).
  { rewrite Hw2. unfold unloaded. cbn. repeat split; try assumption; apply Hqi. }
  assert (Hld2 : loading (step' w1 LoadDone) = false) by (rewrite Hw2; reflexivity).
  destruct (run_unloaded_calls post _ Hu2 (or_introl Hld2))
    as ((Hl3 & _ & Hxs3 & Hys3 & Hcm3 & _) & _ & Hlog3 & Hlen3).
  fold w3 in Hl3, Hxs3, Hys3, Hcm3, Hlog3, Hlen3.
  split; [assumption|]. split; [assumption|]. split; [assumption|].
  split; [assumption|]. split.
  - exists e. rewrite Hlog3, Hw2. cbn [log emit settled with_self].
    rewrite Hlog1, <- app_assoc. reflexivity.
  - rewrite Hlen3, Hw2. cbn [self emit settled with_self waitingPredictions set_mobilenet].
    rewrite Hlen1. reflexivity.
Qed.

End Unloaded.


Lemma failed_load_never_recovers_witness :
  let w1 := run sample_classes failing_model zero_embedding flat_resize keep_frames
              (construct keep_frames (JVideo (plain_image 2 2 9)) noOptions (JFun 9 0))
              sample_impatient in
  let w3 := run sample_classes failing_model zero_embedding flat_resize keep_frames
              (step sample_classes failing_model zero_embedding flat_resize keep_frames
                 w1 LoadDone)
              sample_afterwards in
  forallb (fun c => negb (isLoadDone c)) sample_impatient = true /\
  succeeded (snd (loadModel failing_model zero_embedding (self w1))) = false /\
  modelLoaded (self w3) = false /\
  xs (self w3) = None /\ ys (self w3) = None /\
  customModel (self w3) = None /\
  (exists e,
     log w3 = map (fun _ => Rejected noExamples) (filter isTrainCall sample_impatient)
              ++ [Rejected e]
              ++ map (fun _ => Rejected noExamples) (filter isTrainCall sample_afterwards)) /\
  length (waitingPredictions (self w3))
  = length (filter isPredictCall sample_impatient)
    + length (filter isPredictCall sample_afterwards).
Proof.
  intros w1 w3.
  assert (H : forallb (fun c => negb (isLoadDone c)) sample_impatient = true)
    by reflexivity.
  assert (Hf : succeeded (snd (loadModel failing_model zero_embedding (self w1))) = false)
    by (vm_compute; reflexivity).
  exact (conj H (conj Hf
           (failed_load_never_recovers sample_classes failing_model zero_embedding
              flat_resize keep_frames (JVideo (plain_image 2 2 9)) noOptions (JFun 9 0)
              sample_impatient sample_afterwards H Hf))).
Defined.

Example failed_load_sample_log :
  let w1 := run sample_classes failing_model zero_embedding flat_resize keep_frames
              (construct keep_frames (JVideo (plain_image 2 2 9)) noOptions (JFun 9 0))
              sample_impatient in
  let w3 := run sample_classes failing_model zero_embedding flat_resize keep_frames
              w1 sample_afterwards in
  log w3 = [Rejected noExamples; Rejected TfError; Rejected noExamples] /\
  length (waitingPredictions (self w3)) = 3.
Proof. vm_compute. split; reflexivity. Qed.

(** ** What stays as it is during a run *)

Section Stable.
Variable IMAGENET_CLASSES : list string.
Variable loadedModel : Tensor -> outcome (list Q).
Variable conv_pw_13_relu : Tensor -> outcome (list Q).
Variable resizeBilinear : Tensor -> nat -> nat -> Tensor.
Variable processVideo : Pixels -> nat -> Pixels.

Abbreviation predict' := (predict resizeBilinear processVideo).
Abbreviation step' :=
  (step IMAGENET_CLASSES loadedModel conv_pw_13_relu resizeBilinear processVideo).
Abbreviation run' :=
  (run IMAGENET_CLASSES loadedModel conv_pw_13_relu resizeBilinear processVideo).
Abbreviation loadDone' :=
  (loadDone loadedModel conv_pw_13_relu resizeBilinear processVideo).

Lemma step_self_addImage (w : World) (label : Z) (cbk input : jsval) :
  self (step' w (CallAddImage label cbk input)) = fst (addImage (self w) label cbk input).
Proof.
  cbn [step]. destruct (addImage (self w) label cbk input) as [c1 [evs|e]]; reflexivity.
Qed.

Lemma step_self_train (w : World) (onProgress : jsval) :
  self (step' w (CallTrain onProgress)) = fst (train (self w) onProgress).
Proof.
  cbn [step]. destruct (train (self w) onProgress) as [c1 [u|e]]; reflexivity.
Qed.

Lemma loadDone_core (w : World) :
  modelLoaded (self w) = true -> modelLoaded (self (loadDone' w)) = true.
Proof.
  intros Hl. unfold loadDone. destruct (loading w); [|assumption].
  unfold loadModel.
  set (c1 := set_mobilenet (Some loadedModel) (self w)).
  assert (Hok : modelLoaded
            (self (onLoaded resizeBilinear processVideo (settled (with_self c1 w))
                     (truncated conv_pw_13_relu))) = true).
  { unfold onLoaded. cbv zeta.
    match goal with
    | |- context [fold_left ?f ?l ?w0] =>
        destruct (replay_frame resizeBilinear processVideo l w0) as [Hc _];
        set (w3 := fold_left f l w0) in *
    end.
    cbn [self emit].
    exact (f_equal (fun t => snd (fst (fst (fst t)))) Hc). }
  destruct (truthy (video c1)).
  - destruct (_ <- imgToTensor (video c1) ;; callModel (mobilenet c1) _);
      [exact Hok | exact Hl].
  - exact Hok.
Qed.

Lemma step_stays_loaded (w : World) (call : Call) :
  modelLoaded (self w) = true -> modelLoaded (self (step' w call)) = true.
Proof.
  intros Hl. destruct call as [label cbk input|onProgress|a b cb|].
  - rewrite step_self_addImage.
    pose proof (addImage_besideDataset (self w) label cbk input) as H.
    apply besideDataset_parts in H. destruct H as (_ & _ & _ & _ & _ & Hc).
    rewrite <- Hl. exact (f_equal (fun t => snd (fst (fst (fst t)))) Hc).
  - rewrite step_self_train.
    destruct (train_frame (self w) onProgress) as [Hc _].
    rewrite <- Hl. exact (f_equal (fun t => snd (fst (fst (fst t)))) Hc).
  - cbn [step]. rewrite runMicrotasks_self.
    destruct (predict_frame resizeBilinear processVideo w a b cb) as [Hc _].
    rewrite <- Hl. exact (f_equal (fun t => snd (fst (fst (fst t)))) Hc).
  - cbn [step]. rewrite runMicrotasks_self. now apply loadDone_core.
Qed.

(** X9.  The frame source is either absent or a video element, and once
    it is set no call replaces it: a video element passed to [predict]
    later on is not taken. *)
Theorem frame_source_set_once
  (video0 : jsval) (options : Options) (callback0 : jsval) (calls more : list Call) :
  let w := run' (construct processVideo video0 options callback0) calls in
  (video (self w) = JNull \/ exists p, video (self w) = JVideo p) /\
  (truthy (video (self w)) = true -> video (self (run' w more)) = video (self w)).
Proof.
  intros w. split.
  - subst w. generalize (construct_queueInv processVideo video0 options callback0).
    intros [Hv _]. revert Hv.
    generalize (construct processVideo video0 options callback0).
    induction calls as [|call calls IH]; intros w0 Hv; [exact Hv|].
    change (run' w0 (call :: calls)) with (run' (step' w0 call) calls).
    apply IH.
    destruct (step_keeps IMAGENET_CLASSES loadedModel conv_pw_13_relu resizeBilinear
                processVideo w0 call) as (_ & _ & [Hs|Hs] & _).
    + rewrite Hs. exact Hv.
    + now right.
  - generalize w. clear w.
    induction more as [|call more IH]; intros w Ht; [reflexivity|].
    change (run' w (call :: more)) with (run' (step' w call) more).
    destruct (step_keeps IMAGENET_CLASSES loadedModel conv_pw_13_relu resizeBilinear
                processVideo w call) as (_ & Hv & _).
    rewrite IH; [now apply Hv | rewrite (Hv Ht); exact Ht].
Qed.

(** X10.  Once the model is loaded it stays loaded, and no later call
    touches the queue: a [predict] call adds no entry, and the entries
    replayed at the end of loading are never removed. *)
Theorem queue_frozen_once_loaded (w : World) (calls : list Call) :
  modelLoaded (self w) = true ->
  modelLoaded (self (run' w calls)) = true /\
  waitingPredictions (self (run' w calls)) = waitingPredictions (self w).
Proof.
  revert w. induction calls as [|call calls IH]; intros w Hl; [split; [assumption|reflexivity]|].
  change (run' w (call :: calls)) with (run' (step' w call) calls).
  destruct (IH _ (step_stays_loaded w call Hl)) as [Hl' Hw'].
  split; [assumption|]. rewrite Hw'.
  destruct (step_keeps IMAGENET_CLASSES loadedModel conv_pw_13_relu resizeBilinear
              processVideo w call) as (_ & _ & _ & Hw & _).
  now apply Hw.
Qed.

(** X11.  Only [addImage] changes the dataset: a call of [train], a call
    of [predict] and the end of loading (replay included) leave the
    features, the labels and [hasAnyTrainedClass] as they are. *)
Theorem dataset_changed_by_addImage_only (w : World) (onProgress a b cb : jsval) :
  dataset (self (step' w (CallTrain onProgress))) = dataset (self w) /\
  dataset (self (step' w (CallPredict a b cb))) = dataset (self w) /\
  dataset (self (step' w LoadDone)) = dataset (self w).
Proof.
  split; [|split].
  - rewrite step_self_train. apply train_frame.
  - cbn [step]. rewrite runMicrotasks_self. apply predict_frame.
  - cbn [step]. rewrite runMicrotasks_self.
    apply (loadDone_frame loadedModel conv_pw_13_relu resizeBilinear processVideo w).
Qed.

End Stable.

Lemma frame_source_set_once_witness :
  let w := run sample_classes (uniform_model 12) zero_embedding flat_resize keep_frames
             (construct keep_frames (JVideo (plain_image 2 2 9)) noOptions JUndefined)
             [] in
  let more := [CallPredict (JVideo (plain_image 2 2 1)) JUndefined JUndefined;
               LoadDone;
               CallPredict (JVideo (plain_image 4 4 2)) JUndefined JUndefined] in
  truthy (video (self w)) = true /\
  video (self (run sample_classes (uniform_model 12) zero_embedding flat_resize
                 keep_frames w more))
  = video (self w).
Proof.
  intros w more.
  assert (H : truthy (video (self w)) = true) by reflexivity.
  exact (conj H (proj2 (frame_source_set_once sample_classes (uniform_model 12)
                          zero_embedding flat_resize keep_frames
                          (JVideo (plain_image 2 2 9)) noOptions JUndefined [] more) H)).
Defined.

Lemma queue_frozen_once_loaded_witness :
  let w := run sample_classes (uniform_model 12) zero_embedding flat_resize same_frames
             (construct same_frames JUndefined noOptions JUndefined)
             (predictCalls sample_early ++ [LoadDone]) in
  modelLoaded (self w) = true /\
  modelLoaded (self (run sample_classes (uniform_model 12) zero_embedding flat_resize
                       same_frames w sample_afterwards)) = true /\
  waitingPredictions (self (run sample_classes (uniform_model 12) zero_embedding
                              flat_resize same_frames w sample_afterwards))
  = waitingPredictions (self w).
Proof.
  intros w.
  assert (H : modelLoaded (self w) = true) by (vm_compute; reflexivity).
  exact (conj H (queue_frozen_once_loaded sample_classes (uniform_model 12)
                   zero_embedding flat_resize same_frames w sample_afterwards H)).
Defined.

(** ** addImage: what is appended *)

Lemma labelRow_out_of_range (label : Z) (d : nat) :
  (label < 0 \/ Z.of_nat d <= label)%Z -> labelRow label d = repeat 0%Q d.
Proof.
  intros H. unfold labelRow.
  assert (Hgen : forall s n, (label < Z.of_nat s \/ Z.of_nat (s + n) <= label)%Z ->
            map (fun i => if (Z.of_nat i =? label)%Z then 1%Q else 0%Q) (seq s n)
            = repeat 0%Q n).
  { intros s n. revert s. induction n as [|n IH]; intros s Hs; [reflexivity|].
    cbn [seq map repeat]. f_equal.
    - destruct (Z.eqb_spec (Z.of_nat s) label); [lia | reflexivity].
    - apply IH. lia. }
  apply Hgen. simpl. lia.
Qed.

Lemma labelRow_in_range (label : Z) (d : nat) :
  (0 <= label < Z.of_nat d)%Z ->
  nth (Z.to_nat label) (labelRow label d) 0%Q = 1%Q /\
  forall i, i <> Z.to_nat label -> nth i (labelRow label d) 0%Q = 0%Q.
Proof.
  intros H. unfold labelRow.
  assert (Hnth : forall i, i < d ->
            nth i (map (fun i => if (Z.of_nat i =? label)%Z then 1%Q else 0%Q) (seq 0 d)) 0%Q
            = if (Z.of_nat i =? label)%Z then 1%Q else 0%Q).
  { intros i Hi.
    rewrite (nth_indep _ 0%Q ((fun i => if (Z.of_nat i =? label)%Z then 1%Q else 0%Q) 0))
      by (now rewrite length_map, length_seq).
    rewrite (map_nth (fun i => if (Z.of_nat i =? label)%Z then 1%Q else 0%Q)).
    now rewrite seq_nth. }
  split.
  - rewrite Hnth by lia. rewrite Z2Nat.id by lia. now rewrite Z.eqb_refl.
  - intros i Hi. destruct (Nat.lt_ge_cases i d) as [Hlt|Hge].
    + rewrite Hnth by assumption.
      destruct (Z.eqb_spec (Z.of_nat i) label); [|reflexivity].
      exfalso. apply Hi. subst label. now rewrite Nat2Z.id.
    + apply nth_overflow. now rewrite length_map, length_seq.
Qed.

Lemma oneHot_row (label : Z) (depth : jsval) (y : Tensor) :
  oneHot label depth = Ok y ->
  exists q d, depth = JNum (Fin q) /\ asIndex q = Some d /\
              y = mkTensor [1; d] (labelRow label d).
Proof.
  unfold oneHot. destruct depth as [| | |[q|]| | | |]; try discriminate.
  destruct (asIndex q) as [d|] eqn:Hd; [|discriminate].
  intros H. injection H as <-. exists q, d. repeat split. assumption.
Qed.

Section Appending.
Variable IMAGENET_CLASSES : list string.
Variable loadedModel : Tensor -> outcome (list Q).
Variable conv_pw_13_relu : Tensor -> outcome (list Q).
Variable resizeBilinear : Tensor -> nat -> nat -> Tensor.
Variable processVideo : Pixels -> nat -> Pixels.

Abbreviation step' :=
  (step IMAGENET_CLASSES loadedModel conv_pw_13_relu resizeBilinear processVideo).
Abbreviation run' :=
  (run IMAGENET_CLASSES loadedModel conv_pw_13_relu resizeBilinear processVideo).
Abbreviation Inv' := (Inv loadedModel conv_pw_13_relu).

(** What a block of [addImage] that runs to its end has appended. *)
Lemma addImage_tidy_appended (c : ImageClassifier) (label : Z) (input : jsval)
  (c' : ImageClassifier) :
  mobilenetModified c = Some (truncated conv_pw_13_relu) ->
  datasetInv c ->
  xsShaped c ->
  addImage_tidy c label input = (c', Ok tt) ->
  exists processedImg embedding q d,
    imgToTensor (if truthy input then input else video c) = Ok processedImg /\
    conv_pw_13_relu processedImg = Ok embedding /\
    numClasses c = JNum (Fin q) /\ asIndex q = Some d /\
    values (xs c') = values (xs c) ++ embedding /\
    values (ys c') = values (ys c) ++ labelRow label d /\
    xsShaped c'.
Proof.
  intros Hmod Hinv Hshaped E. pose proof Hinv as (Hany & Hnone & Hrows & Hys).
  unfold addImage_tidy in E.
  destruct (imgToTensor (if truthy input then input else video c))
    as [processedImg|e] eqn:Himg; simpl bind in E; [|discriminate].
  rewrite Hmod in E. unfold callModel, truncated in E.
  destruct (conv_pw_13_relu processedImg) as [emb|e] eqn:Hemb; simpl bind in E;
    [|discriminate].
  destruct (oneHot label (numClasses c)) as [y|e] eqn:Hy; simpl bind in E;
    [|discriminate].
  destruct (imgToTensor_shape _ _ Himg) as [p [_ Hshape]].
  rewrite Hshape in E. cbn [hd] in E.
  destruct (oneHot_row _ _ _ Hy) as (q & d & Hq & Hd & ->).
  exists processedImg, emb, q, d.
  split; [reflexivity|]. split; [exact Hemb|].
  split; [assumption|]. split; [assumption|].
  destruct (xs c) as [oldX|] eqn:Hxs.
  - destruct (Hshaped oldX Hxs) as [n HoldX].
    destruct (ys c) as [oldY|] eqn:Hys'.
    2:{ exfalso. destruct Hnone as [_ Hn]. specialize (Hn eq_refl). discriminate. }
    unfold concat0 in E. cbn [shape] in E. rewrite HoldX in E.
    destruct (list_eq_dec Nat.eq_dec embeddingShape embeddingShape) as [_|Hne];
      [|congruence].
    destruct (shape oldY) as [|ry dy]; [discriminate|].
    destruct (list_eq_dec Nat.eq_dec dy [d]); [|discriminate].
    injection E as <-.
    cbn [xs ys set_xs set_ys values data].
    split; [reflexivity|]. split; [reflexivity|].
    intros x Hx. injection Hx as <-. cbn [shape].
    exists (n + 1). reflexivity.
  - assert (Hysn : ys c = None) by (now apply Hnone).
    injection E as <-.
    cbn [xs ys set_xs set_ys set_hasAnyTrainedClass values data].
    rewrite Hysn. cbn [values app].
    split; [reflexivity|]. split; [reflexivity|].
    intros x Hx. injection Hx as <-. cbn [shape]. exists 0. reflexivity.
Qed.

Lemma step_xsShaped (w : World) (call : Call) :
  Inv' (self w) -> xsShaped (self w) -> xsShaped (self (step' w call)).
Proof.
  intros [[_ [_ Hl]] Hds] Hsh.
  assert (Hsame : forall c', dataset c' = dataset (self w) -> xsShaped c').
  { intros c' Hd. unfold xsShaped.
    rewrite (f_equal (fun t => snd (fst t)) Hd : xs c' = xs (self w)). exact Hsh. }
  destruct call as [label cbk input|onProgress|a b cb|].
  - rewrite step_self_addImage. unfold addImage.
    destruct (modelLoaded (self w)) eqn:Hld; [|exact Hsh].
    destruct (addImage_tidy (self w) label (default_param input JNull))
      as [c1 r] eqn:E.
    assert (Hc1 : xsShaped c1).
    { destruct r as [[]|e].
      - destruct (addImage_tidy_appended _ _ _ _ (proj2 (Hl eq_refl)) Hds Hsh E)
          as (? & ? & ? & ? & _ & _ & _ & _ & _ & _ & H). exact H.
      - destruct (addImage_tidy_spec conv_pw_13_relu _ _ _ _ _
                    (proj2 (Hl eq_refl)) Hds E) as (_ & _ & ->). exact Hsh. }
    destruct r as [u|e]; [destruct (default_param cbk noop)|]; exact Hc1.
  - rewrite step_self_train. apply Hsame, train_frame.
  - cbn [step]. rewrite runMicrotasks_self. apply Hsame, predict_frame.
  - cbn [step]. rewrite runMicrotasks_self. apply Hsame.
    apply (loadDone_frame loadedModel conv_pw_13_relu resizeBilinear processVideo w).
Qed.

Lemma run_xsShaped (calls : list Call) (w : World) :
  Inv' (self w) -> xsShaped (self w) -> xsShaped (self (run' w calls)).
Proof.
  revert w. induction calls as [|call calls IH]; intros w HI Hsh; [exact Hsh|].
  change (run' w (call :: calls)) with (run' (step' w call) calls).
  apply IH.
  - apply (step_spec IMAGENET_CLASSES loadedModel conv_pw_13_relu resizeBilinear
             processVideo w call HI).
  - now apply step_xsShaped.
Qed.

Lemma construct_xsShaped (video0 : jsval) (options : Options) (callback0 : jsval) :
  xsShaped (self (construct processVideo video0 options callback0)).
Proof.
  unfold xsShaped, construct. destruct video0; cbn; discriminate.
Qed.

(** The state reached by a run, with what holds of it. *)
Lemma reached (video0 : jsval) (options : Options) (callback0 : jsval)
  (calls : list Call) :
  let w := run' (construct processVideo video0 options callback0) calls in
  Inv' (self w) /\ xsShaped (self w).
Proof.
  intros w. split.
  - apply (run_spec IMAGENET_CLASSES loadedModel conv_pw_13_relu resizeBilinear
             processVideo calls _ (construct_Inv loadedModel conv_pw_13_relu
                                      processVideo video0 options callback0)).
  - apply run_xsShaped.
    + apply construct_Inv.
    + apply construct_xsShaped.
Qed.

(** X12.  In every run the two dataset tensors are absent together;
    when they are there the features have N rows with N at least 1 (one row
    per image, from the batch dimension [imgToTensor] adds), and the labels
    have shape [[N, numClasses]] with the same N: every stored label row is
    as wide as [numClasses] says. *)
Theorem dataset_shapes
  (video0 : jsval) (options : Options) (callback0 : jsval) (calls : list Call) :
  let w := run' (construct processVideo video0 options callback0) calls in
  (xs (self w) = None <-> ys (self w) = None) /\
  (xs (self w) <> None -> 1 <= rows (xs (self w))) /\
  (forall y, ys (self w) = Some y ->
     exists q d, numClasses (self w) = JNum (Fin q) /\ asIndex q = Some d /\
                 shape y = [rows (xs (self w)); d]).
Proof.
  intros w.
  destruct (reached video0 options callback0 calls) as [[_ (Hany & Hnone & Hrows & Hys)] Hsh].
  fold w in Hany, Hnone, Hrows, Hys, Hsh.
  split; [exact Hnone|]. split.
  - intros Hx. destruct (xs (self w)) as [x|] eqn:Ex; [|congruence].
    destruct (Hsh x Ex) as [n Hn]. cbn [rows]. rewrite Hn. cbn [hd]. lia.
  - intros y Hy. destruct (Hys y Hy) as (n & q & d & Hshape & Hq & Hd).
    exists q, d. split; [assumption|]. split; [assumption|].
    rewrite Hrows, Hy. cbn [rows]. rewrite Hshape. reflexivity.
Qed.

(** X13.  [addImage] does not check the label.  When its block runs to
    its end, the label tensor has gained the one-hot row of the label,
    [numClasses] wide: a row of zeros when the label is negative or not
    below [numClasses], a single 1 at the label otherwise. *)
Theorem addImage_label_row
  (video0 : jsval) (options : Options) (callback0 : jsval) (calls : list Call)
  (label : Z) (input : jsval) (c' : ImageClassifier) :
  let w := run' (construct processVideo video0 options callback0) calls in
  modelLoaded (self w) = true ->
  addImage_tidy (self w) label input = (c', Ok tt) ->
  exists q d,
    numClasses (self w) = JNum (Fin q) /\ asIndex q = Some d /\
    values (ys c') = values (ys (self w)) ++ labelRow label d /\
    ((label < 0 \/ Z.of_nat d <= label)%Z -> labelRow label d = repeat 0%Q d) /\
    ((0 <= label < Z.of_nat d)%Z ->
     nth (Z.to_nat label) (labelRow label d) 0%Q = 1%Q /\
     forall i, i <> Z.to_nat label -> nth i (labelRow label d) 0%Q = 0%Q).
Proof.
  intros w Hld E.
  destruct (reached video0 options callback0 calls) as [[[_ [_ Hl]] Hds] Hsh].
  fold w in Hl, Hds, Hsh.
  destruct (addImage_tidy_appended _ _ _ _ (proj2 (Hl Hld)) Hds Hsh E)
    as (img & emb & q & d & _ & _ & Hq & Hd & _ & Hy & _).
  exists q, d. split; [assumption|]. split; [assumption|]. split; [assumption|].
  split; [apply labelRow_out_of_range | apply labelRow_in_range].
Qed.

(** X14.  When the block of [addImage] runs to its end, the feature
    tensor has gained exactly the values the truncated network gives for
    [imgToTensor] of the image (the [input] argument when it is truthy, the
    frame source otherwise). *)
Theorem addImage_appends_embedding
  (video0 : jsval) (options : Options) (callback0 : jsval) (calls : list Call)
  (label : Z) (input : jsval) (c' : ImageClassifier) :
  let w := run' (construct processVideo video0 options callback0) calls in
  modelLoaded (self w) = true ->
  addImage_tidy (self w) label input = (c', Ok tt) ->
  exists processedImg embedding,
    imgToTensor (if truthy input then input else video (self w)) = Ok processedImg /\
    conv_pw_13_relu processedImg = Ok embedding /\
    values (xs c') = values (xs (self w)) ++ embedding.
Proof.
  intros w Hld E.
  destruct (reached video0 options callback0 calls) as [[[_ [_ Hl]] Hds] Hsh].
  fold w in Hl, Hds, Hsh.
  destruct (addImage_tidy_appended _ _ _ _ (proj2 (Hl Hld)) Hds Hsh E)
    as (img & emb & q & d & Hi & He & _ & _ & Hx & _).
  exists img, emb. repeat split; assumption.
Qed.

(** X15.  An [addImage] call that throws has either changed nothing, or
    it has appended its row and then failed to call a callback that is not
    a function: there is no half-appended example. *)
Theorem addImage_throws_cleanly
  (video0 : jsval) (options : Options) (callback0 : jsval) (calls : list Call)
  (label : Z) (cbk input : jsval) (c' : ImageClassifier) (e : JsError) :
  let w := run' (construct processVideo video0 options callback0) calls in
  addImage (self w) label cbk input = (c', Throw e) ->
  c' = self w \/
  (is_function (default_param cbk noop) = false /\ e = TypeError /\
   rows (xs c') = S (rows (xs (self w))) /\
   rows (ys c') = S (rows (ys (self w)))).
Proof.
  intros w E.
  destruct (reached video0 options callback0 calls) as [[[_ [_ Hl]] Hds] _].
  fold w in Hl, Hds.
  unfold addImage in E.
  destruct (modelLoaded (self w)) eqn:Hld; [|discriminate].
  destruct (addImage_tidy (self w) label (default_param input JNull)) as [c1 r] eqn:Et.
  destruct (addImage_tidy_spec conv_pw_13_relu _ _ _ _ _ (proj2 (Hl eq_refl)) Hds Et)
    as (_ & _ & Hr).
  destruct r as [u|e1].
  - destruct Hr as (Hx & Hy & _).
    destruct (default_param cbk noop) eqn:Hcb; try discriminate;
      injection E as <- <-; right; repeat split; assumption.
  - injection E as <- <-. left. exact Hr.
Qed.

End Appending.

Lemma addImage_label_row_witness :
  let w := run sample_classes (uniform_model 12) zero_embedding flat_resize same_frames
             (construct same_frames JUndefined noOptions JUndefined) [LoadDone] in
  let c' := fst (addImage_tidy (self w) 7 (JImage (plain_image 2 4 255))) in
  modelLoaded (self w) = true /\
  addImage_tidy (self w) 7 (JImage (plain_image 2 4 255)) = (c', Ok tt) /\
  exists q d,
    numClasses (self w) = JNum (Fin q) /\ asIndex q = Some d /\
    values (ys c') = values (ys (self w)) ++ labelRow 7 d /\
    ((7 < 0 \/ Z.of_nat d <= 7)%Z -> labelRow 7 d = repeat 0%Q d) /\
    ((0 <= 7 < Z.of_nat d)%Z ->
     nth (Z.to_nat 7) (labelRow 7 d) 0%Q = 1%Q /\
     forall i, i <> Z.to_nat 7 -> nth i (labelRow 7 d) 0%Q = 0%Q).
Proof.
  intros w c'.
  assert (H : modelLoaded (self w) = true) by (vm_compute; reflexivity).
  assert (E : addImage_tidy (self w) 7 (JImage (plain_image 2 4 255)) = (c', Ok tt)).
  { unfold c'. apply injective_projections;
      [cbn [fst]; reflexivity | cbn [snd]; vm_compute; reflexivity]. }
  exact (conj H (conj E
           (addImage_label_row sample_classes (uniform_model 12) zero_embedding
              flat_resize same_frames JUndefined noOptions JUndefined [LoadDone]
              7 (JImage (plain_image 2 4 255)) c' H E))).
Defined.

Lemma addImage_appends_embedding_witness :
  let w := run sample_classes (uniform_model 12) zero_embedding flat_resize same_frames
             (construct same_frames JUndefined noOptions JUndefined)
             [LoadDone] in
  let c' := fst (addImage_tidy (self w) 1 (JImage (plain_image 4 2 9))) in
  modelLoaded (self w) = true /\
  addImage_tidy (self w) 1 (JImage (plain_image 4 2 9)) = (c', Ok tt) /\
  exists processedImg embedding,
    imgToTensor (if truthy (JImage (plain_image 4 2 9)) then (JImage (plain_image 4 2 9)) else video (self w)) = Ok processedImg /\
    zero_embedding processedImg = Ok embedding /\
    values (xs c') = values (xs (self w)) ++ embedding.
Proof.
  intros w c'.
  assert (H : modelLoaded (self w) = true) by (vm_compute; reflexivity).
  assert (E : addImage_tidy (self w) 1 (JImage (plain_image 4 2 9)) = (c', Ok tt)).
  { unfold c'. apply injective_projections;
      [cbn [fst]; reflexivity | cbn [snd]; vm_compute; reflexivity]. }
  exact (conj H (conj E
           (addImage_appends_embedding sample_classes (uniform_model 12) zero_embedding
              flat_resize same_frames JUndefined noOptions JUndefined
              [LoadDone] 1 (JImage (plain_image 4 2 9)) c' H E))).
Defined.

Lemma addImage_throws_cleanly_witness :
  let w := run sample_classes (uniform_model 12) zero_embedding flat_resize same_frames
             (construct same_frames JUndefined noOptions JUndefined) [LoadDone] in
  let c' := fst (addImage (self w) 1 JNull (JImage (plain_image 4 2 0))) in
  addImage (self w) 1 JNull (JImage (plain_image 4 2 0)) = (c', Throw TypeError) /\
  (c' = self w \/
   (is_function (default_param JNull noop) = false /\ TypeError = TypeError /\
    rows (xs c') = S (rows (xs (self w))) /\
    rows (ys c') = S (rows (ys (self w))))).
Proof.
  intros w c'.
  assert (E : addImage (self w) 1 JNull (JImage (plain_image 4 2 0))
              = (c', Throw TypeError)).
  { unfold c'. apply injective_projections;
      [cbn [fst]; reflexivity | cbn [snd]; vm_compute; reflexivity]. }
  exact (conj E
           (addImage_throws_cleanly sample_classes (uniform_model 12) zero_embedding
              flat_resize same_frames JUndefined noOptions JUndefined [LoadDone]
              1 JNull (JImage (plain_image 4 2 0)) c' TypeError E)).
Defined.

(** ** train: how a call ends *)

Lemma train_cases (c : ImageClassifier) (onProgress : jsval) :
  datasetInv c -> xsShaped c ->
  (xs c = None /\ train c onProgress = (c, Throw noExamples)) \/
  (xs c <> None /\ hasAnyTrainedClass c = true /\
   js_gt0 (batchFor c (rows (xs c))) = false /\
   train c onProgress
   = (set_customModel (Some (freshHead c)) (set_isPredicting false c),
      Throw zeroBatch)) \/
  (xs c <> None /\ hasAnyTrainedClass c = true /\
   js_gt0 (batchFor c (rows (xs c))) = true /\
   train c onProgress
   = (set_customModel
        (Some (mkSequential (hiddenUnits c) (numClasses c) (learningRate c)
                 (Some (mkFit (xs c) (ys c)
                          (numberToZ (batchFor c (rows (xs c))))
                          (epochs c) onProgress))))
        (set_customModel (Some (freshHead c)) (set_isPredicting false c)),
      Ok tt)).
Proof.
  intros (Hany & _) Hsh. unfold train.
  destruct (hasAnyTrainedClass c) eqn:Hh; cbn [negb].
  - assert (Hx : xs c <> None) by (now apply Hany).
    destruct (xs c) as [x|] eqn:Hxs; [|congruence].
    destruct (Hsh x Hxs) as [n Hn].
    cbn [xs set_customModel set_isPredicting batchSize ys epochs hiddenUnits
         numClasses learningRate].
    rewrite Hxs, Hn. cbn [rows]. rewrite Hn. cbn [hd].
    unfold batchFor, freshHead, zeroBatch.
    destruct (js_gt0 (js_floor (js_mul (Fin (natQ (S n))) (toNumber (batchSize c)))))
      eqn:Hb; cbn [negb].
    + right. right. split; [discriminate|]. repeat split.
    + right. left. split; [discriminate|]. repeat split.
  - left. split; [|reflexivity].
    destruct (xs c) as [x|] eqn:Hxs; [|reflexivity].
    exfalso. assert (Ht : false = true) by (apply Hany; discriminate). discriminate.
Qed.

Lemma train_succeeds_iff (c : ImageClassifier) (onProgress : jsval) :
  datasetInv c -> xsShaped c ->
  (snd (train c onProgress) = Ok tt <-> trainable c).
Proof.
  intros Hds Hsh. unfold trainable.
  destruct (train_cases c onProgress Hds Hsh)
    as [[Hx Ht]|[(Hx & Hh & Hb & Ht)|(Hx & Hh & Hb & Ht)]]; rewrite Ht; cbn [snd].
  - split; [discriminate|]. intros [Hh _].
    destruct Hds as (Hany & _). exfalso. now apply (proj1 Hany Hh).
  - split; [discriminate|]. intros [_ Hb']. congruence.
  - split; [intros _; split; assumption | reflexivity].
Qed.

Lemma batchFor_more_rows (c c' : ImageClassifier) (n n' : nat) :
  batchSize c' = batchSize c -> n <= n' ->
  js_gt0 (batchFor c n) = true -> js_gt0 (batchFor c' n') = true.
Proof.
  intros Hb Hn. unfold batchFor. rewrite Hb.
  destruct (toNumber (batchSize c)) as [f|]; [|discriminate].
  cbn [js_mul]. rewrite !js_gt0_floor. unfold doubleProduct.
  intros H. apply Z.ltb_lt in H. apply Z.ltb_lt.
  set (g := roundDouble f) in *.
  set (a := roundDouble (natQ n)) in *. set (a' := roundDouble (natQ n')).
  assert (H1 : (1 <= roundDouble (a * g))%Q).
  { eapply Qle_trans; [|apply Qfloor_le].
    change 1%Q with (inject_Z 1). rewrite <- Zle_Qle. lia. }
  assert (Ha : (0 <= a)%Q).
  { apply roundDouble_nonneg. change 0%Q with (inject_Z 0). unfold natQ.
    rewrite <- Zle_Qle. lia. }
  assert (Haa : (a <= a')%Q) by (apply roundDouble_monotone; now apply natQ_le).
  assert (Hg : (0 <= g)%Q).
  { destruct (Qlt_le_dec g 0) as [Hneg|Hpos]; [|exact Hpos].
    exfalso.
    assert (Hle : (a * g <= 0)%Q) by nra.
    pose proof (roundDouble_nonpos _ Hle). lra. }
  assert (Hle : (a * g <= a' * g)%Q).
  { apply Qmult_le_compat_r; assumption. }
  pose proof (roundDouble_monotone _ _ Hle) as Hr.
  pose proof (Qfloor_resp_le _ _ Hr) as Hfl.
  lia.
Qed.

Section Training.
Variable IMAGENET_CLASSES : list string.
Variable loadedModel : Tensor -> outcome (list Q).
Variable conv_pw_13_relu : Tensor -> outcome (list Q).
Variable resizeBilinear : Tensor -> nat -> nat -> Tensor.
Variable processVideo : Pixels -> nat -> Pixels.

Abbreviation step' :=
  (step IMAGENET_CLASSES loadedModel conv_pw_13_relu resizeBilinear processVideo).
Abbreviation run' :=
  (run IMAGENET_CLASSES loadedModel conv_pw_13_relu resizeBilinear processVideo).
Abbreviation Inv' := (Inv loadedModel conv_pw_13_relu).

Lemma step_trainable (w : World) (call : Call) :
  Inv' (self w) -> xsShaped (self w) ->
  trainable (self w) -> trainable (self (step' w call)).
Proof.
  intros HI Hsh [Hh Hb].
  destruct (step_spec IMAGENET_CLASSES loadedModel conv_pw_13_relu resizeBilinear
              processVideo w call HI) as ([_ (Hany' & _)] & Hrows & _).
  destruct (step_keeps IMAGENET_CLASSES loadedModel conv_pw_13_relu resizeBilinear
              processVideo w call) as (Hset & _).
  assert (Hbs : batchSize (self (step' w call)) = batchSize (self w))
    by exact (f_equal (fun t => snd (fst t)) Hset).
  destruct HI as [_ (Hany & _)].
  assert (Hpos : 1 <= rows (xs (self w))).
  { destruct (xs (self w)) as [x|] eqn:Hx.
    - destruct (Hsh x Hx) as [n Hn]. cbn [rows]. rewrite Hn. cbn [hd]. lia.
    - exfalso. now apply (proj1 Hany Hh). }
  split.
  - apply Hany'. intros Hnone. rewrite Hnone in Hrows. cbn [rows] in Hrows. lia.
  - apply (batchFor_more_rows (self w) _ (rows (xs (self w)))); [exact Hbs| |exact Hb].
    rewrite Hrows. lia.
Qed.

Lemma run_trainable (calls : list Call) (w : World) :
  Inv' (self w) -> xsShaped (self w) ->
  trainable (self w) -> trainable (self (run' w calls)).
Proof.
  revert w. induction calls as [|call calls IH]; intros w HI Hsh Ht; [exact Ht|].
  change (run' w (call :: calls)) with (run' (step' w call) calls).
  apply IH.
  - apply (step_spec IMAGENET_CLASSES loadedModel conv_pw_13_relu resizeBilinear
             processVideo w call HI).
  - now apply (step_xsShaped IMAGENET_CLASSES loadedModel conv_pw_13_relu
                 resizeBilinear processVideo).
  - now apply step_trainable.
Qed.

(** X16.  What a call of [train] has done when it ends, in every run.
    When it is refused for its batch size, the examples were there and the
    head has already been replaced: [customModel] is a new head built from
    [hiddenUnits], [numClasses] and [learningRate] that was never fitted
    (a head fitted by an earlier call is gone), and [isPredicting] is
    false.  When it returns, the computed batch size is above 0 and [fit]
    has been given the whole dataset, that batch size, [epochs] and the
    callback, on a new head built from the same three options.  In both
    cases the dataset is as it was. *)
Theorem train_outcomes
  (video0 : jsval) (options : Options) (callback0 : jsval) (calls : list Call)
  (onProgress : jsval) :
  let w := run' (construct processVideo video0 options callback0) calls in
  let c := self w in
  let c' := fst (train c onProgress) in
  (snd (train c onProgress) = Throw zeroBatch ->
   xs c <> None /\
   js_gt0 (batchFor c (rows (xs c))) = false /\
   customModel c' = Some (freshHead c) /\
   isPredicting c' = false /\
   dataset c' = dataset c) /\
  (snd (train c onProgress) = Ok tt ->
   xs c <> None /\
   js_gt0 (batchFor c (rows (xs c))) = true /\
   customModel c'
   = Some (mkSequential (hiddenUnits c) (numClasses c) (learningRate c)
             (Some (mkFit (xs c) (ys c) (numberToZ (batchFor c (rows (xs c))))
                      (epochs c) onProgress))) /\
   isPredicting c' = false /\
   dataset c' = dataset c).
Proof.
  intros w c c'.
  destruct (reached IMAGENET_CLASSES loadedModel conv_pw_13_relu resizeBilinear
              processVideo video0 options callback0 calls) as [[_ Hds] Hsh].
  fold w in Hds, Hsh. fold c in Hds, Hsh.
  pose proof (proj2 (train_frame c onProgress)) as Hframe. fold c' in Hframe.
  unfold c' in *.
  destruct (train_cases c onProgress Hds Hsh)
    as [[Hx Ht]|[(Hx & Hh & Hb & Ht)|(Hx & Hh & Hb & Ht)]];
    rewrite Ht in *; cbn [fst snd] in *.
  - split; intros H; discriminate H.
  - split; intros H; [|discriminate H].
    split; [exact Hx|]. split; [exact Hb|]. split; [reflexivity|].
    split; [reflexivity | exact Hframe].
  - split; intros H; [discriminate H|].
    split; [exact Hx|]. split; [exact Hb|]. split; [reflexivity|].
    split; [reflexivity | exact Hframe].
Qed.

(** X17.  Once a call of [train] would succeed, every later call of
    [train] succeeds as well, whatever is called in between: examples are
    never removed, the batch fraction never changes, and the product of
    two doubles does not decrease when the row count grows. *)
Theorem train_stays_possible
  (video0 : jsval) (options : Options) (callback0 : jsval) (calls more : list Call)
  (onProgress onProgress' : jsval) :
  let w := run' (construct processVideo video0 options callback0) calls in
  snd (train (self w) onProgress) = Ok tt ->
  snd (train (self (run' w more)) onProgress') = Ok tt.
Proof.
  intros w Hok.
  destruct (reached IMAGENET_CLASSES loadedModel conv_pw_13_relu resizeBilinear
              processVideo video0 options callback0 calls) as [HI Hsh].
  fold w in HI, Hsh.
  pose proof (proj1 (train_succeeds_iff _ onProgress (proj2 HI) Hsh) Hok) as Ht.
  pose proof (run_trainable more w HI Hsh Ht) as Ht'.
  apply train_succeeds_iff; [| |exact Ht'].
  - apply (run_spec IMAGENET_CLASSES loadedModel conv_pw_13_relu resizeBilinear
             processVideo more w HI).
  - now apply (run_xsShaped IMAGENET_CLASSES loadedModel conv_pw_13_relu
                 resizeBilinear processVideo).
Qed.

End Training.

(** Both ends of [train] are reached: with two examples and the fraction
    0.4 the call is refused after the head was replaced, with three it
    returns and the batch size is 1. *)
Example train_sample_outcomes :
  snd (train (self (sample_world 2)) noop) = Throw zeroBatch /\
  customModel (fst (train (self (sample_world 2)) noop))
  = Some (freshHead (self (sample_world 2))) /\
  snd (train (self (sample_world 3)) noop) = Ok tt /\
  fittedBatchSize (fst (train (self (sample_world 3)) noop)) = Some 1%Z.
Proof. vm_compute. repeat split; reflexivity. Qed.

Lemma train_stays_possible_witness :
  let w := run sample_classes (uniform_model 12) zero_embedding flat_resize same_frames
             (construct same_frames JUndefined noOptions JUndefined) (sample_calls 3) in
  snd (train (self w) noop) = Ok tt /\
  snd (train (self (run sample_classes (uniform_model 12) zero_embedding flat_resize
                      same_frames w sample_afterwards)) JUndefined) = Ok tt.
Proof.
  intros w.
  assert (H : snd (train (self w) noop) = Ok tt) by (vm_compute; reflexivity).
  exact (conj H (train_stays_possible sample_classes (uniform_model 12) zero_embedding
                   flat_resize same_frames JUndefined noOptions JUndefined
                   (sample_calls 3) sample_afterwards noop JUndefined H)).
Defined.

(** ** predict on a loaded instance *)

Lemma getTopKClasses_function (CLASSES : list string) (values : list Q) (k : nat)
  (f ar : nat) :
  k <= length values ->
  getTopKClasses CLASSES values (JNumQ (natQ k)) (JFun f ar)
  = Ok (topClassesAndProbs CLASSES
          (firstn k (array_sort byValueDesc (valuesAndIndices values))),
        [CalledWith (JFun f ar)
           (topClassesAndProbs CLASSES
              (firstn k (array_sort byValueDesc (valuesAndIndices values))))]).
Proof.
  intros Hk. unfold getTopKClasses. rewrite (rankTopK_nat values k Hk).
  cbn [bind]. cbv zeta. rewrite neverStored_nat, app_nil_r. reflexivity.
Qed.

Lemma sorted_prefix_length (values : list Q) (k : nat) :
  k <= length values ->
  length (firstn k (array_sort byValueDesc (valuesAndIndices values))) = k.
Proof.
  intros Hk. rewrite length_firstn, array_sort_length. unfold valuesAndIndices.
  rewrite valuesAndIndicesFrom_length. lia.
Qed.

Section Predicting.
Variable IMAGENET_CLASSES : list string.
Variable loadedModel : Tensor -> outcome (list Q).
Variable conv_pw_13_relu : Tensor -> outcome (list Q).
Variable resizeBilinear : Tensor -> nat -> nat -> Tensor.
Variable processVideo : Pixels -> nat -> Pixels.

Abbreviation step' :=
  (step IMAGENET_CLASSES loadedModel conv_pw_13_relu resizeBilinear processVideo).
Abbreviation run' :=
  (run IMAGENET_CLASSES loadedModel conv_pw_13_relu resizeBilinear processVideo).
Abbreviation Inv' := (Inv loadedModel conv_pw_13_relu).

(** A call of [predict] on a loaded instance, run to its end. *)
Lemma step_predict_loaded (w : World) (a b cb : jsval) :
  modelLoaded (self w) = true -> microtasks w = [] ->
  let args := predict_args processVideo (self w) a (default_param b JNull)
                (default_param cb JNull) in
  let c1 := fst (fst (fst args)) in
  let img := snd (fst (fst args)) in
  log (step' w (CallPredict a b cb))
  = log w ++
    match predict_logits resizeBilinear c1 img with
    | Throw e => [Rejected e]
    | Ok v => Inferred img
              :: delivered IMAGENET_CLASSES v
                   (js_or (snd (fst args)) (topKPredictions c1)) (snd args)
    end.
Proof.
  intros Hl Hm. cbn [step]. unfold predict.
  pose proof (predict_args_frame processVideo (self w) a (default_param b JNull)
                (default_param cb JNull)) as [Hc _].
  destruct (predict_args processVideo (self w) a (default_param b JNull)
              (default_param cb JNull)) as [[[c1 img] nc] cbk].
  cbn [fst snd] in *.
  assert (Hl1 : modelLoaded c1 = true).
  { rewrite <- Hl. exact (f_equal (fun t => snd (fst (fst (fst t)))) Hc). }
  rewrite Hl1. cbn [negb].
  destruct (predict_logits resizeBilinear c1 img) as [v|e].
  - unfold runMicrotasks, defer, emit, with_self.
    cbn [microtasks self loading onReady log]. rewrite Hm. cbn [app fold_left].
    unfold resume, delivered. cbn [p_values p_topK p_callback].
    destruct (getTopKClasses IMAGENET_CLASSES v (js_or nc (topKPredictions c1)) cbk)
      as [[r evs]|e]; unfold emit; cbn [log]; rewrite <- app_assoc; reflexivity.
  - unfold runMicrotasks, emit, with_self.
    cbn [microtasks self loading onReady log]. rewrite Hm. reflexivity.
Qed.

Lemma run_microtasks_nil (calls : list Call) (w : World) :
  microtasks w = [] -> microtasks (run' w calls) = [].
Proof.
  revert w. induction calls as [|call calls IH]; intros w Hm; [exact Hm|].
  change (run' w (call :: calls)) with (run' (step' w call) calls).
  apply IH.
  now apply (step_keeps IMAGENET_CLASSES loadedModel conv_pw_13_relu resizeBilinear
               processVideo w call).
Qed.

(** X18.  On a loaded instance, a call of [predict] that starts with an
    image takes no count: whatever the second argument is, the callback
    receives the ten best classes when the network gives at least ten
    probabilities, and the call is rejected with a TypeError when it gives
    fewer. *)
Theorem predict_image_takes_no_count
  (video0 : jsval) (options : Options) (callback0 : jsval) (calls : list Call)
  (p : Pixels) (count : jsval) (f ar : nat) (v : list Q) :
  let w := run' (construct processVideo video0 options callback0) calls in
  modelLoaded (self w) = true ->
  predict_logits resizeBilinear (self w) (JImage p) = Ok v ->
  let w' := step' w (CallPredict (JImage p) count (JFun f ar)) in
  (10 <= length v ->
   log w' = log w ++ [Inferred (JImage p);
                      CalledWith (JFun f ar) (tenBest IMAGENET_CLASSES v)] /\
   length (tenBest IMAGENET_CLASSES v) = 10) /\
  (length v < 10 ->
   log w' = log w ++ [Inferred (JImage p); Rejected TypeError]).
Proof.
  intros w Hl Hv w'.
  destruct (reached IMAGENET_CLASSES loadedModel conv_pw_13_relu resizeBilinear
              processVideo video0 options callback0 calls) as [[(_ & Htk & _) _] _].
  fold w in Htk.
  assert (Hm : microtasks w = []) by (apply run_microtasks_nil; reflexivity).
  pose proof (step_predict_loaded w (JImage p) count (JFun f ar) Hl Hm) as Hlog.
  cbv zeta in Hlog. cbn [predict_args fst snd default_param] in Hlog.
  rewrite Hv, Htk in Hlog. fold w' in Hlog.
  change (js_or JUndefined (JNumQ 10)) with (JNumQ (natQ 10)) in Hlog.
  unfold delivered in Hlog.
  split.
  - intros Hlen. rewrite (getTopKClasses_function _ _ _ _ _ Hlen) in Hlog.
    split; [exact Hlog|].
    unfold tenBest, topClassesAndProbs. rewrite length_map.
    now apply sorted_prefix_length.
  - intros Hlen. unfold getTopKClasses in Hlog.
    rewrite (rankTopK_past_end v 10 Hlen) in Hlog by (vm_compute; discriminate).
    exact Hlog.
Qed.

(** X19.  On a loaded instance with a frame source, [predict(k, cb)]
    classifies the current frame and hands [cb] the [k] best classes for
    a whole number [k] between 1 and the number of probabilities; with
    [k = 0] it hands over ten.  A third argument is not looked at. *)
Theorem predict_count_first
  (video0 : jsval) (options : Options) (callback0 : jsval) (calls : list Call)
  (frame : Pixels) (k : nat) (f ar : nat) (third : jsval) (v : list Q) :
  let w := run' (construct processVideo video0 options callback0) calls in
  modelLoaded (self w) = true ->
  video (self w) = JVideo frame ->
  predict_logits resizeBilinear (self w) (JVideo frame) = Ok v ->
  10 <= length v -> k <= length v ->
  let w' := step' w (CallPredict (JNumQ (natQ k)) (JFun f ar) third) in
  exists results,
    log w' = log w ++ [Inferred (JVideo frame); CalledWith (JFun f ar) results] /\
    length results = (if k =? 0 then 10 else k) /\
    results = topClassesAndProbs IMAGENET_CLASSES
                (firstn (if k =? 0 then 10 else k)
                   (array_sort byValueDesc (valuesAndIndices v))).
Proof.
  intros w Hl Hvid Hv H10 Hk w'.
  destruct (reached IMAGENET_CLASSES loadedModel conv_pw_13_relu resizeBilinear
              processVideo video0 options callback0 calls) as [[(_ & Htk & _) _] _].
  fold w in Htk.
  assert (Hm : microtasks w = []) by (apply run_microtasks_nil; reflexivity).
  pose proof (step_predict_loaded w (JNumQ (natQ k)) (JFun f ar) third Hl Hm) as Hlog.
  cbv zeta in Hlog.
  assert (Hargs : predict_args processVideo (self w) (JNumQ (natQ k))
                    (default_param (JFun f ar) JNull) (default_param third JNull)
                  = (self w, video (self w), JNumQ (natQ k), JFun f ar))
    by reflexivity.
  rewrite Hargs in Hlog. cbn [fst snd] in Hlog.
  rewrite Hvid, Hv, Htk in Hlog. fold w' in Hlog.
  assert (Hor : js_or (JNumQ (natQ k)) (JNumQ 10)
                = JNumQ (natQ (if k =? 0 then 10 else k))).
  { unfold js_or, JNumQ. cbn [truthy]. destruct k as [|k]; [reflexivity|].
    cbn [Nat.eqb].
    replace (Qeq_bool (natQ (S k)) 0) with false; [reflexivity|].
    symmetry. apply not_true_is_false. intros Hc. apply Qeq_bool_iff in Hc.
    unfold natQ, Qeq in Hc. simpl in Hc. lia. }
  rewrite Hor in Hlog. unfold delivered in Hlog.
  assert (Hle : (if k =? 0 then 10 else k) <= length v)
    by (destruct (k =? 0); assumption).
  rewrite (getTopKClasses_function _ _ _ _ _ Hle) in Hlog.
  eexists. split; [exact Hlog|]. split; [|reflexivity].
  unfold topClassesAndProbs. rewrite length_map. now apply sorted_prefix_length.
Qed.

(** X20.  On a loaded instance without a frame source, a call of
    [predict] that does not start with an image or a video element is
    rejected by [tf.fromPixels]: no network is run, no callback is called,
    and the instance is left as it was. *)
Theorem predict_without_image_rejected
  (video0 : jsval) (options : Options) (callback0 : jsval) (calls : list Call)
  (a b cb : jsval) :
  let w := run' (construct processVideo video0 options callback0) calls in
  modelLoaded (self w) = true ->
  truthy (video (self w)) = false ->
  isElement a = false ->
  let w' := step' w (CallPredict a b cb) in
  log w' = log w ++ [Rejected TfError] /\ self w' = self w.
Proof.
  intros w Hl Hvid Ha w'.
  assert (Hm : microtasks w = []) by (apply run_microtasks_nil; reflexivity).
  assert (Hargs : predict_args processVideo (self w) a (default_param b JNull)
                    (default_param cb JNull)
                  = (self w, video (self w), a, default_param b JNull)).
  { destruct a; try reflexivity; discriminate Ha. }
  assert (Hpix : predict_logits resizeBilinear (self w) (video (self w)) = Throw TfError).
  { unfold predict_logits, predict_batched.
    destruct (video (self w)); try reflexivity; discriminate Hvid. }
  split.
  - pose proof (step_predict_loaded w a b cb Hl Hm) as Hlog.
    cbv zeta in Hlog. rewrite Hargs in Hlog. cbn [fst snd] in Hlog.
    rewrite Hpix in Hlog. exact Hlog.
  - unfold w'. cbn [step]. rewrite runMicrotasks_self. unfold predict.
    rewrite Hargs. rewrite Hl. cbn [negb]. rewrite Hpix. reflexivity.
Qed.

End Predicting.

Lemma predict_image_takes_no_count_witness :
  let w := run sample_classes (uniform_model 12) zero_embedding flat_resize same_frames
             (construct same_frames JUndefined noOptions JUndefined) [LoadDone] in
  let p := plain_image 1 2 0 in
  let v := repeat (1 # 12)%Q 12 in
  modelLoaded (self w) = true /\
  predict_logits flat_resize (self w) (JImage p) = Ok v /\
  let w' := step sample_classes (uniform_model 12) zero_embedding flat_resize
              same_frames w (CallPredict (JImage p) (JNumQ 3) (JFun 4 1)) in
  (10 <= length v ->
   log w' = log w ++ [Inferred (JImage p);
                      CalledWith (JFun 4 1) (tenBest sample_classes v)] /\
   length (tenBest sample_classes v) = 10) /\
  (length v < 10 ->
   log w' = log w ++ [Inferred (JImage p); Rejected TypeError]).
Proof.
  intros w p v.
  assert (H : modelLoaded (self w) = true) by (vm_compute; reflexivity).
  assert (Hv : predict_logits flat_resize (self w) (JImage p) = Ok v)
    by (vm_compute; reflexivity).
  exact (conj H (conj Hv
           (predict_image_takes_no_count sample_classes (uniform_model 12)
              zero_embedding flat_resize same_frames JUndefined noOptions JUndefined
              [LoadDone] p (JNumQ 3) 4 1 v H Hv))).
Defined.

Lemma predict_count_first_witness :
  let w := run sample_classes (uniform_model 12) zero_embedding flat_resize keep_frames
             (construct keep_frames (JVideo (plain_image 2 2 9)) noOptions JUndefined)
             [LoadDone] in
  let frame := plain_image 2 2 9 in
  let v := repeat (1 # 12)%Q 12 in
  modelLoaded (self w) = true /\
  video (self w) = JVideo frame /\
  predict_logits flat_resize (self w) (JVideo frame) = Ok v /\
  10 <= length v /\ 3 <= length v /\
  let w' := step sample_classes (uniform_model 12) zero_embedding flat_resize
              keep_frames w (CallPredict (JNumQ (natQ 3)) (JFun 4 1) JUndefined) in
  exists results,
    log w' = log w ++ [Inferred (JVideo frame); CalledWith (JFun 4 1) results] /\
    length results = (if 3 =? 0 then 10 else 3) /\
    results = topClassesAndProbs sample_classes
                (firstn (if 3 =? 0 then 10 else 3)
                   (array_sort byValueDesc (valuesAndIndices v))).
Proof.
  intros w frame v.
  assert (H : modelLoaded (self w) = true) by (vm_compute; reflexivity).
  assert (Hvid : video (self w) = JVideo frame) by (vm_compute; reflexivity).
  assert (Hv : predict_logits flat_resize (self w) (JVideo frame) = Ok v)
    by (vm_compute; reflexivity).
  assert (H10 : 10 <= length v) by (vm_compute; lia).
  assert (H3 : 3 <= length v) by (vm_compute; lia).
  exact (conj H (conj Hvid (conj Hv (conj H10 (conj H3
           (predict_count_first sample_classes (uniform_model 12)
              zero_embedding flat_resize keep_frames (JVideo (plain_image 2 2 9))
              noOptions JUndefined [LoadDone] frame 3 4 1 JUndefined v
              H Hvid Hv H10 H3)))))).
Defined.

Lemma predict_without_image_rejected_witness :
  let w := run sample_classes (uniform_model 12) zero_embedding flat_resize same_frames
             (construct same_frames JUndefined noOptions JUndefined) [LoadDone] in
  modelLoaded (self w) = true /\
  truthy (video (self w)) = false /\
  isElement (JNumQ 3) = false /\
  let w' := step sample_classes (uniform_model 12) zero_embedding flat_resize
              same_frames w (CallPredict (JNumQ 3) (JFun 1 1) JUndefined) in
  log w' = log w ++ [Rejected TfError] /\ self w' = self w.
Proof.
  intros w.
  assert (H : modelLoaded (self w) = true) by (vm_compute; reflexivity).
  assert (Hvid : truthy (video (self w)) = false) by (vm_compute; reflexivity).
  assert (Ha : isElement (JNumQ 3) = false) by reflexivity.
  exact (conj H (conj Hvid (conj Ha
           (predict_without_image_rejected sample_classes (uniform_model 12)
              zero_embedding flat_resize same_frames JUndefined noOptions JUndefined
              [LoadDone] (JNumQ 3) (JFun 1 1) JUndefined H Hvid Ha)))).
Defined.

(** ** The options, and the ways a call of addImage ends *)

Section Outcomes.
Variable IMAGENET_CLASSES : list string.
Variable loadedModel : Tensor -> outcome (list Q).
Variable conv_pw_13_relu : Tensor -> outcome (list Q).
Variable resizeBilinear : Tensor -> nat -> nat -> Tensor.
Variable processVideo : Pixels -> nat -> Pixels.

Abbreviation step' :=
  (step IMAGENET_CLASSES loadedModel conv_pw_13_relu resizeBilinear processVideo).
Abbreviation run' :=
  (run IMAGENET_CLASSES loadedModel conv_pw_13_relu resizeBilinear processVideo).

Lemma run_settings (calls : list Call) (w : World) :
  settings (self (run' w calls)) = settings (self w).
Proof.
  revert w. induction calls as [|call calls IH]; intros w; [reflexivity|].
  change (run' w (call :: calls)) with (run' (step' w call) calls).
  rewrite IH.
  apply (step_keeps IMAGENET_CLASSES loadedModel conv_pw_13_relu resizeBilinear
           processVideo w call).
Qed.

(** X21.  The options are fixed by the constructor for the life of the
    instance: after any calls each of the five is still the value given by
    the caller when that is truthy (it is not validated) and the default
    otherwise, the image size is still 224 and the default count still
    10. *)
Theorem options_fixed_for_life
  (video0 : jsval) (options : Options) (callback0 : jsval) (calls : list Call) :
  let c := self (run' (construct processVideo video0 options callback0) calls) in
  epochs c = js_or (o_epochs options) DEFAULTS.epochs /\
  hiddenUnits c = js_or (o_hiddenUnits options) DEFAULTS.hiddenUnits /\
  numClasses c = js_or (o_numClasses options) DEFAULTS.numClasses /\
  learningRate c = js_or (o_learningRate options) DEFAULTS.learningRate /\
  batchSize c = js_or (o_batchSize options) DEFAULTS.batchSize /\
  imageSize c = 224 /\ topKPredictions c = JNumQ 10.
Proof.
  intros c.
  pose proof (run_settings calls (construct processVideo video0 options callback0))
    as Hs.
  fold c in Hs.
  destruct (construct_fields processVideo video0 options callback0)
    as (He & Hh & Hn & Hl & Hb).
  destruct (reached IMAGENET_CLASSES loadedModel conv_pw_13_relu resizeBilinear
              processVideo video0 options callback0 calls) as [[(Hi & Htk & _) _] _].
  fold c in Hi, Htk.
  rewrite <- He, <- Hh, <- Hn, <- Hl, <- Hb.
  split; [exact (f_equal (fun t => fst (fst (fst (fst (fst t))))) Hs)|].
  split; [exact (f_equal (fun t => snd (fst (fst (fst (fst t))))) Hs)|].
  split; [exact (f_equal (fun t => snd (fst (fst (fst t)))) Hs)|].
  split; [exact (f_equal (fun t => snd (fst (fst t))) Hs)|].
  split; [exact (f_equal (fun t => snd (fst t)) Hs)|].
  split; assumption.
Qed.

(** X22.  On a loaded instance without a frame source, [addImage]
    called with an [input] that [tf.fromPixels] does not take (anything
    but an image element, a video element, a canvas element or an
    ImageData object) is rejected by [tf.fromPixels]; nothing is stored and
    the callback is not called. *)
Theorem addImage_without_image_rejected
  (w : World) (label : Z) (cbk input : jsval) :
  modelLoaded (self w) = true ->
  truthy (video (self w)) = false ->
  hasPixels input = false ->
  let w' := step' w (CallAddImage label cbk input) in
  log w' = log w ++ [Rejected TfError] /\ self w' = self w.
Proof.
  intros Hl Hvid Hin w'.
  assert (Ht : addImage_tidy (self w) label (default_param input JNull)
               = (self w, Throw TfError)).
  { unfold addImage_tidy.
    assert (Himg : imgToTensor (if truthy (default_param input JNull)
                                then default_param input JNull
                                else video (self w)) = Throw TfError).
    { destruct (truthy (default_param input JNull)).
      - destruct input; try reflexivity; discriminate Hin.
      - destruct (video (self w)); try reflexivity; discriminate Hvid. }
    rewrite Himg. reflexivity. }
  unfold w'. cbn [step]. unfold addImage. rewrite Hl, Ht. split; reflexivity.
Qed.

(** X23.  In every run a call of [addImage] with a function for a
    callback ends in one of three ways: the example is stored (one more
    row of features and of labels) and the callback is called once; or the
    network is not loaded yet and nothing at all happens, the callback is
    not called; or the call is rejected and the instance is left as it
    was. *)
Theorem addImage_outcomes
  (video0 : jsval) (options : Options) (callback0 : jsval) (calls : list Call)
  (label : Z) (f ar : nat) (input : jsval) :
  let w := run' (construct processVideo video0 options callback0) calls in
  let w' := step' w (CallAddImage label (JFun f ar) input) in
  (appended (self w) label input = true /\
   log w' = log w ++ [Called (JFun f ar)] /\
   rows (xs (self w')) = S (rows (xs (self w))) /\
   rows (ys (self w')) = S (rows (ys (self w)))) \/
  (modelLoaded (self w) = false /\ w' = w) \/
  (modelLoaded (self w) = true /\ appended (self w) label input = false /\
   self w' = self w /\ exists e, log w' = log w ++ [Rejected e]).
Proof.
  intros w w'.
  destruct (reached IMAGENET_CLASSES loadedModel conv_pw_13_relu resizeBilinear
              processVideo video0 options callback0 calls) as [[(_ & _ & Hm) Hds] _].
  fold w in Hm, Hds.
  unfold w', appended. cbn [step]. unfold addImage.
  destruct (modelLoaded (self w)) eqn:Hl; cbn [andb].
  - destruct (addImage_tidy (self w) label (default_param input JNull))
      as [c1 r] eqn:E.
    destruct (addImage_tidy_spec conv_pw_13_relu _ _ _ _ _ (proj2 (Hm eq_refl)) Hds E)
      as (_ & _ & Hr).
    destruct r as [u|e]; cbn [snd succeeded default_param noop].
    + left. destruct Hr as (Hx & Hy & _).
      split; [reflexivity|]. split; [reflexivity|]. split; assumption.
    + right. right. subst c1.
      split; [reflexivity|]. split; [reflexivity|]. split; [reflexivity|].
      exists e. reflexivity.
  - right. left. split; [reflexivity|].
    unfold emit, with_self. cbn [self loading onReady microtasks log].
    rewrite app_nil_r. apply World_eta.
Qed.

End Outcomes.

Lemma addImage_without_image_rejected_witness :
  let w := run sample_classes (uniform_model 12) zero_embedding flat_resize same_frames
             (construct same_frames JUndefined noOptions JUndefined) [LoadDone] in
  modelLoaded (self w) = true /\
  truthy (video (self w)) = false /\
  hasPixels JUndefined = false /\
  let w' := step sample_classes (uniform_model 12) zero_embedding flat_resize
              same_frames w (CallAddImage 1 (JFun 1 0) JUndefined) in
  log w' = log w ++ [Rejected TfError] /\ self w' = self w.
Proof.
  intros w.
  assert (H : modelLoaded (self w) = true) by (vm_compute; reflexivity).
  assert (Hvid : truthy (video (self w)) = false) by (vm_compute; reflexivity).
  assert (Ha : hasPixels JUndefined = false) by reflexivity.
  exact (conj H (conj Hvid (conj Ha
           (addImage_without_image_rejected sample_classes (uniform_model 12)
              zero_embedding flat_resize same_frames w 1 (JFun 1 0) JUndefined
              H Hvid Ha)))).
Defined.
